(** * BitfinexLendingBot: the lending decision and offer-lifecycle engine

    A shallow embedding of [util.go], [data/data.go] and the strategy
    manager, with the properties of the decoder, the two rate selectors,
    offer submission and cancellation, and the allocation cycle.

    Conventions of the embedding
    - Go's [float64] is IEEE 754 binary64, taken from the Standard Library's
      [spec_float] at precision 53 and maximal exponent 1024.
    - Go's [int] (64 bits on the supported platforms) is [Z]; the only
      arithmetic on it in this code is comparison.
    - A response body is represented by the document [json.Unmarshal] reads
      from it, a tree of [interface{}] values; lexing of the bytes is the
      library's part.
    - Calls that leave the process (HTTP requests, the log, the clock, the
      environment) are recorded in a trace, and the answers come from a
      venue the definitions are parametric in. What [fmt.Printf] writes to
      the standard output is not recorded. *)

From Stdlib Require Import ZArith Lia Permutation Sorted Ascii String.
From Stdlib Require Import Floats.SpecFloat.
From stdpp Require Import base option list strings gmap.

Open Scope Z_scope.

(* ================================================================== *)
(** * float64 *)
(* ================================================================== *)

Module Float64.

Definition float64 : Type := spec_float.

Definition prec : Z := 53.
Definition emax : Z := 1024.

(** [a * b] and [a - b], rounded to nearest even, one rounding per
    operation. *)
Definition mul (a b : float64) : float64 := SFmul prec emax a b.
Definition sub (a b : float64) : float64 := SFsub prec emax a b.

(** Go's comparison operators. Every comparison with a NaN is false. *)
Definition lt (a b : float64) : bool := SFltb a b.
Definition gt (a b : float64) : bool := SFltb b a.
Definition ge (a b : float64) : bool := SFleb b a.
Definition eq (a b : float64) : bool := SFeqb a b.

(** [math.Abs] clears the sign. *)
Definition abs (a : float64) : float64 := SFabs a.

(** [float64(i)] for an integer [i]. *)
Definition of_int (i : Z) : float64 := binary_normalize prec emax i 0 false.

Definition min_int : Z := - 2 ^ 63.
Definition max_int : Z := 2 ^ 63 - 1.

(** [int(f)]: the fraction is discarded (truncation towards zero). For a
    value that does not fit, Go leaves the result to the implementation;
    amd64 yields the "integer indefinite" value, the minimal int. *)
Definition to_int (f : float64) : Z :=
  match f with
  | S754_zero _ => 0
  | S754_finite s m e =>
      let a := if 0 <=? e then Z.pos m * 2 ^ e else Z.pos m / 2 ^ (- e) in
      let v := if s then - a else a in
      if (min_int <=? v) && (v <=? max_int) then v else min_int
  | S754_infinity _ | S754_nan => min_int
  end.

Definition is_nan (f : float64) : bool :=
  match f with S754_nan => true | _ => false end.

(** The constants of the program, as the compiler rounds them. *)
Definition zero : float64 := S754_zero false.
(** [-1.0] *)
Definition minus_one : float64 := S754_finite true 4503599627370496 (-52).
(** [0.5] *)
Definition half : float64 := S754_finite false 4503599627370496 (-53).
(** [1.3], the nearest binary64 value 0x1.4cccccccccccdp+0 *)
Definition c1_3 : float64 := S754_finite false 5854679515581645 (-52).
(** [150] *)
Definition c150 : float64 := S754_finite false 5277655813324800 (-45).

End Float64.

Import Float64.

(* ================================================================== *)
(** * Dynamic values and errors *)
(* ================================================================== *)

(** A value of type [interface{}], by dynamic type. [json.Unmarshal] produces
    [nil], [bool], [float64], [string], [[]interface{}] and
    [map[string]interface{}]; the switches of package util also know [int],
    [int64] and [json.Number]. *)
#[local] Unset Elimination Schemes.
Inductive value : Type :=
| VNil
| VBool (b : bool)
| VFloat64 (f : float64)
| VString (s : string)
| VSlice (l : list value)
| VMap (m : list (string * value))
| VInt (i : Z)
| VInt64 (i : Z)
| VNumber (s : string).
#[local] Set Elimination Schemes.

(** An [error] is its message. *)
Definition error : Type := string.

(** A Go result pair [(T, error)]. *)
Inductive result (A : Type) : Type :=
| Ok (a : A)
| Err (e : error).
Arguments Ok {A} a.
Arguments Err {A} e.

Definition is_ok {A} (r : result A) : bool :=
  match r with Ok _ => true | Err _ => false end.

(* ================================================================== *)
(** * package util *)
(* ================================================================== *)

Module util.
Section Strconv.

(** [strconv.ParseFloat(s, 64)] and [strconv.ParseInt(s, 10, 64)], which
    [json.Number]'s methods [Float64] and [Int64] call as well. [None] is
    a non-nil error. *)
Variable ParseFloat : string → option float64.
Variable ParseInt : string → option Z.

Definition ToInt (v : value) : Z * bool :=
  match v with
  | VInt value => (value, true)
  | VFloat64 value => (to_int value, true)
  | VNumber value =>
      match ParseInt value with
      | Some i => (i, true)
      | None => (0, false)
      end
  | _ => (0, false)
  end.

Definition ToFloat64 (v : value) : float64 * bool :=
  match v with
  | VFloat64 value => (value, true)
  | VInt value => (of_int value, true)
  | VNumber value =>
      match ParseFloat value with
      | Some f => (f, true)
      | None => (zero, false)
      end
  | _ => (zero, false)
  end.

(** Where [ParseFloat] fails, Go hands on the value returned with the
    error; the callers look at the flag only, and [zero] stands for that
    value. *)
Definition SafeFloat64 (value : value) : float64 * bool :=
  match value with
  | VFloat64 v => (v, true)
  | VNumber v =>
      match ParseFloat v with
      | Some f => (f, true)
      | None => (zero, false)
      end
  | VString v =>
      match ParseFloat v with
      | Some f => (f, true)
      | None => (zero, false)
      end
  | VInt v => (of_int v, true)
  | VInt64 v => (of_int v, true)
  | _ => (zero, false)
  end.

End Strconv.

(** The coercions with the value of a failed parse kept, for the callers
    that drop the flag. [strconv] is taken with the value it returns and
    whether the error is nil. *)
Module values.
Section Strconv.

Variable ParseFloat : string → float64 * bool.
Variable ParseInt : string → Z * bool.
Variable Atoi : string → Z * bool.

Definition SafeFloat64 (value : value) : float64 * bool :=
  match value with
  | VFloat64 v => (v, true)
  | VNumber v => ParseFloat v
  | VString v => ParseFloat v
  | VInt v => (of_int v, true)
  | VInt64 v => (of_int v, true)
  | _ => (zero, false)
  end.

Definition SafeInt (v : value) : Z * bool :=
  match v with
  | VInt val => (val, true)
  | VInt64 val => (val, true)
  | VFloat64 val => (to_int val, true)
  | VNumber val => ParseInt val
  | VString val => Atoi val
  | _ => (0, false)
  end.

Definition SafeInt64 (v : value) : Z * bool :=
  match v with
  | VInt val => (val, true)
  | VInt64 val => (val, true)
  | VFloat64 val => (to_int val, true)
  | VNumber val => ParseInt val
  | VString val => ParseInt val
  | _ => (0, false)
  end.

End Strconv.
End values.

End util.

(* ================================================================== *)
(** * package data: records *)
(* ================================================================== *)

Module data.

Record FundingOfferRequest : Type := {
  Type_ : string;   (* Order type (LIMIT, FRRDELTAVAR, FRRDELTAFIX) *)
  Symbol : string;  (* Symbol for desired pair (fUSD, fBTC, etc.) *)
  Amount : string;  (* Amount (positive for offer, negative for bid) *)
  Rate : string;    (* Daily rate *)
  Period : Z;       (* Time period of offer (2-120 days) *)
  Flags : Z         (* Optional flags *)
}.

(** [time.Time] values are kept as the nanoseconds since the epoch they
    are built from. *)
Record FundingOffer : Type := {
  fo_ID : Z;
  fo_Symbol : string;
  fo_CreatedAt : Z;
  fo_UpdatedAt : Z;
  fo_Amount : float64;
  fo_AmountOriginal : float64;
  fo_Type : string;
  fo_Flags : Z;
  fo_Status : string;
  fo_Rate : float64;
  fo_Period : Z;
  fo_Notify : bool;
  fo_Hidden : Z;
  fo_Renew : bool
}.

Record FundingStat : Type := {
  Timestamp : Z;
  FRR : float64;
  AveragePeriod : float64;
  FundingAmount : float64;
  FundingAmountUsed : float64;
  FundingBelowThreshold : float64
}.

(** [OFFER_ID, PERIOD, RATE, AMOUNT, ...] *)
Record BitfinexOffer : Type := {
  OfferID : Z;
  bo_Period : Z;
  bo_Rate : float64;
  bo_Amount : float64
}.

(** The zero value of [BitfinexOffer] ([var bestOffer BitfinexOffer]). *)
Definition zero_offer : BitfinexOffer :=
  {| OfferID := 0; bo_Period := 0; bo_Rate := zero; bo_Amount := zero |}.

(** [s[i]] where a length check has established [i < len(s)]. *)
Definition idx (s : list value) (i : nat) : value := default VNil (s !! i).

(** [json.Unmarshal] into a [[]interface{}]: [null] leaves the slice nil,
    an array fills it, anything else is an error. *)
Definition as_slice (doc : value) : option (list value) :=
  match doc with
  | VNil => Some []
  | VSlice l => Some l
  | _ => None
  end.

(** [json.Unmarshal] into a [[][]interface{}]. *)
Definition as_rows (doc : value) : option (list (list value)) :=
  match doc with
  | VNil => Some []
  | VSlice l => mapM as_slice l
  | _ => None
  end.

(** A response body: the document it holds, or [None] for bytes that are
    not JSON. *)
Definition body : Type := option value.

Definition unmarshal_rows (data : body) : option (list (list value)) :=
  doc ← data; as_rows doc.

Definition unmarshal_slice (data : body) : option (list value) :=
  doc ← data; as_slice doc.


(* ---------------------------------------------------------------- *)
(** ** Decoding and rate selection *)
(* ---------------------------------------------------------------- *)

Section Decode.

Variable ParseFloat : string → option float64.
Variable ParseInt : string → option Z.

(** [sort.Slice(offers, less)]: sorts the slice in place. *)
Variable sort_Slice :
  (BitfinexOffer → BitfinexOffer → bool) → list BitfinexOffer → list BitfinexOffer.

Abbreviation ToInt := (util.ToInt ParseInt).
Abbreviation ToFloat64 := (util.ToFloat64 ParseFloat).
Abbreviation SafeFloat64 := (util.SafeFloat64 ParseFloat).

(** One round of the loop of [parseFundingStats]. *)
Definition stats_step (stats : list FundingStat) (raw : list value)
  : list FundingStat :=
  if (length raw <? 12)%nat then stats else
  let '(ts, ok1) := SafeFloat64 (idx raw 0) in
  let '(frr, ok2) := SafeFloat64 (idx raw 3) in
  let '(avgPeriod, ok3) := SafeFloat64 (idx raw 4) in
  let '(fundingAmt, ok4) := SafeFloat64 (idx raw 7) in
  let '(fundingUsed, ok5) := SafeFloat64 (idx raw 8) in
  let '(fundingBelow, ok6) := SafeFloat64 (idx raw 11) in
  if negb ok1 || negb ok2 || negb ok3 || negb ok4 || negb ok5 || negb ok6
  then stats else
  let stat := {| Timestamp := to_int ts;
                 FRR := frr;
                 AveragePeriod := avgPeriod;
                 FundingAmount := fundingAmt;
                 FundingAmountUsed := fundingUsed;
                 FundingBelowThreshold := fundingBelow |} in
  stats ++ [stat].

Definition parseFundingStats (data : body) : result (list FundingStat) :=
  match unmarshal_rows data with
  | None => Err "error parsing JSON"
  | Some rawStats => Ok (fold_left stats_step rawStats [])
  end.

(** One round of the decoding loop of [FindHighestRateForShortestPeriod]. *)
Definition shortest_step (offers : list BitfinexOffer) (rawOffer : list value)
  : list BitfinexOffer :=
  if (length rawOffer <? 4)%nat then offers else
  let '(offerID, okID) := ToInt (idx rawOffer 0) in
  let '(period, okPeriod) := ToInt (idx rawOffer 1) in
  let '(rate, okRate) := ToFloat64 (idx rawOffer 2) in
  let '(amount, okAmount) := ToFloat64 (idx rawOffer 3) in
  if negb okID || negb okPeriod || negb okRate || negb okAmount then offers else
  if ge amount zero then offers else
  offers ++ [ {| OfferID := offerID; bo_Period := period;
                 bo_Rate := rate; bo_Amount := amount |} ].

(** One round of the selection loop: [(highestRate, bestOffer)]. *)
Definition best_step (shortestPeriod : Z) (acc : float64 * BitfinexOffer)
    (offer : BitfinexOffer) : float64 * BitfinexOffer :=
  let '(highestRate, bestOffer) := acc in
  if (bo_Period offer =? shortestPeriod) && gt (bo_Rate offer) highestRate
  then (bo_Rate offer, offer)
  else (highestRate, bestOffer).

(** [sort.Slice] keeps the length of the slice, so [offers[0]] exists
    after the emptiness check; [zero_offer] stands for it otherwise. *)
Definition FindHighestRateForShortestPeriod (data : body) : result BitfinexOffer :=
  match unmarshal_rows data with
  | None => Err "error parsing JSON"
  | Some rawOffers =>
      let offers := fold_left shortest_step rawOffers [] in
      if (length offers =? 0)%nat then Err "no valid offers found" else
      let offers :=
        sort_Slice (λ i j, bo_Period i <? bo_Period j) offers in
      let shortestPeriod := bo_Period (default zero_offer (head offers)) in
      let '(_, bestOffer) :=
        fold_left (best_step shortestPeriod) offers (minus_one, zero_offer) in
      Ok bestOffer
  end.

(** One round of the decoding loop of [FindHighestLendingRate]. *)
Definition lending_step (minPeriod : Z) (offers : list BitfinexOffer)
    (rawOffer : list value) : list BitfinexOffer :=
  if (length rawOffer <? 4)%nat then offers else
  let '(offerID, okID) := ToInt (idx rawOffer 0) in
  let '(period, okPeriod) := ToInt (idx rawOffer 1) in
  let '(rate, okRate) := ToFloat64 (idx rawOffer 2) in
  let '(amount, okAmount) := ToFloat64 (idx rawOffer 3) in
  if negb okID || negb okPeriod || negb okRate || negb okAmount then offers else
  if ge amount zero then offers else
  if period <? minPeriod then offers else
  offers ++ [ {| OfferID := offerID; bo_Period := period;
                 bo_Rate := rate; bo_Amount := abs amount |} ].

Definition highest_step (highestRateOffer offer : BitfinexOffer) : BitfinexOffer :=
  if gt (bo_Rate offer) (bo_Rate highestRateOffer) then offer
  else if eq (bo_Rate offer) (bo_Rate highestRateOffer)
          && (bo_Period offer <? bo_Period highestRateOffer)
       then offer
       else highestRateOffer.

Definition FindHighestLendingRate (data : body) (minPeriod : Z)
  : result BitfinexOffer :=
  match unmarshal_rows data with
  | None => Err "error parsing JSON"
  | Some rawOffers =>
      match fold_left (lending_step minPeriod) rawOffers [] with
      | [] => Err "no valid lending offers found"
      | first :: rest => Ok (fold_left highest_step rest first)
      end
  end.

End Decode.

(** The path [sort.Slice] takes on a slice of at most 12 elements,
    [insertionSortLessFunc]: each element in turn moves left while it is
    less than its left neighbour. [sorted] is the sorted prefix, last
    element first. *)
Fixpoint insert_left {A} (less : A → A → bool) (x : A) (sorted : list A) : list A :=
  match sorted with
  | [] => [x]
  | y :: before => if less x y then y :: insert_left less x before else x :: sorted
  end.

Definition insertionSort {A} (less : A → A → bool) (s : list A) : list A :=
  rev (fold_left (λ sorted x, insert_left less x sorted) s []).


(* ---------------------------------------------------------------- *)
(** ** Effects: the venue, the trace, abnormal termination *)
(* ---------------------------------------------------------------- *)

Record Client : Type := {
  APIKey : string;
  APISecret : string;
  BaseURL : string
}.

Definition NewClient (apiKey apiSecret : string) : Client :=
  {| APIKey := apiKey; APISecret := apiSecret;
     BaseURL := "https://api.bitfinex.com" |}.

(** The [body] argument of [SendRequest]. *)
Inductive payload : Type :=
| NoBody
| OfferBody (offer : FundingOfferRequest)
| CancelBody (id : Z).

Record Request : Type := {
  method : string;
  path : string;
  req_body : payload
}.

Inductive event : Type :=
| EvLoadEnv                                  (* godotenv.Load() *)
| EvSend (r : Request)                       (* Client.SendRequest *)
| EvLog (format : string) (args : list value) (* log.Printf *)
| EvSleep (seconds : Z).                     (* time.Sleep *)

(** How a computation ends: with a value, in [os.Exit] (through
    [log.Fatal]) or in a run-time panic. *)
Inductive res (A : Type) : Type :=
| Val (a : A)
| Exit
| Panic.
Arguments Val {A} a.
Arguments Exit {A}.
Arguments Panic {A}.

Section Effects.

(** The state of everything beyond the process, and what a signed request
    is answered with: a body, or the error [SendRequest] returns. *)
Variable Venue : Type.
Variable transport : Venue → Client → Request → result body * Venue.

Record World : Type := {
  venue : Venue;
  trace : list event
}.

Definition M (A : Type) : Type := World → res A * World.

Definition ret {A} (a : A) : M A := λ w, (Val a, w).

Definition bind {A B} (m : M A) (k : A → M B) : M B :=
  λ w, match m w with
       | (Val a, w') => k a w'
       | (Exit, w') => (Exit, w')
       | (Panic, w') => (Panic, w')
       end.

Definition emit (e : event) : M unit :=
  λ w, (Val tt, {| venue := venue w; trace := trace w ++ [e] |}).

Definition exit {A} : M A := λ w, (Exit, w).
Definition panic {A} : M A := λ w, (Panic, w).

(** A pure step that may panic (a failed type assertion, an index out of
    range). *)
Definition or_panic {A} (o : option A) : M A :=
  match o with Some a => ret a | None => panic end.

Definition SendRequest (c : Client) (method path : string) (b : payload)
  : M (result body) :=
  λ w, let r := {| method := method; path := path; req_body := b |} in
       let '(answer, v) := transport (venue w) c r in
       (Val answer, {| venue := v; trace := trace w ++ [EvSend r] |}).

Definition log_Printf (format : string) (args : list value) : M unit :=
  emit (EvLog format args).

(** [log.Fatal]: the message, then [os.Exit(1)]. *)
Definition log_Fatal {A} (format : string) (args : list value) : M A :=
  bind (emit (EvLog format args)) (λ _, exit).

Definition time_Sleep (seconds : Z) : M unit := emit (EvSleep seconds).

End Effects.

Arguments ret {Venue A} a.
Arguments bind {Venue A B} m k.
Arguments emit {Venue} e.
Arguments exit {Venue A}.
Arguments panic {Venue A}.
Arguments or_panic {Venue A} o.
Arguments log_Printf {Venue} format args.
Arguments log_Fatal {Venue A} format args.
Arguments time_Sleep {Venue} seconds.
Arguments venue {Venue} w.
Arguments trace {Venue} w.
Arguments Build_World {Venue} venue trace.

Notation "x <- m ;; k" := (bind m (λ x, k))
  (at level 100, m at next level, right associativity, only parsing).
Notation "m ;;; k" := (bind m (λ _, k))
  (at level 100, right associativity, only parsing).

(** Type assertions [v.(T)] in their panicking form. *)
Definition assert_string (v : value) : option string :=
  match v with VString s => Some s | _ => None end.
Definition assert_float64 (v : value) : option float64 :=
  match v with VFloat64 f => Some f | _ => None end.
Definition assert_bool (v : value) : option bool :=
  match v with VBool b => Some b | _ => None end.

(** Two's-complement wrap-around of an [int64] product. *)
Definition wrap64 (z : Z) : Z := (z + 2 ^ 63) mod 2 ^ 64 - 2 ^ 63.


(* ---------------------------------------------------------------- *)
(** ** The client's calls *)
(* ---------------------------------------------------------------- *)

(** Where an error message ends in the text of an error of the JSON
    library, the message stops before it. *)

(** The test following a cancel request's answer, on the decoded
    [response]: [None] is a panic, [Some None] a nil error. *)
Definition cancel_check (response : list value) : option (option error) :=
  if (7 <=? length response)%nat then
    status ← assert_string (idx response 6);
    if negb (String.eqb status "SUCCESS") then
      message ← response !! 7%nat ≫= assert_string;
      Some (Some ("failed to cancel funding offer: " +:+ message))
    else Some None
  else Some None.

(** The validation that opens [SubmitFundingOffer]. *)
Definition validate (offer : FundingOfferRequest) : option error :=
  if String.eqb (Symbol offer) "" then Some "symbol cannot be empty"
  else if String.eqb (Amount offer) "" then Some "amount cannot be empty"
  else if String.eqb (Rate offer) "" then Some "rate cannot be empty"
  else if (Period offer <? 2) || (120 <? Period offer)
       then Some "period must be between 2 and 120 days"
  else None.

Definition default_type (offer : FundingOfferRequest) : FundingOfferRequest :=
  if String.eqb (Type_ offer) "" then
    {| Type_ := "LIMIT"; Symbol := Symbol offer; Amount := Amount offer;
       Rate := Rate offer; Period := Period offer; Flags := Flags offer |}
  else offer.

(** Populating the [FundingOffer] from [offerData], of length at least 20;
    [None] where a type assertion panics. Fields are evaluated in the order
    of the composite literal. *)
Definition populate (offerData : list value) : option FundingOffer :=
  id ← assert_float64 (idx offerData 0);
  symbol ← assert_string (idx offerData 1);
  created ← assert_float64 (idx offerData 2);
  updated ← assert_float64 (idx offerData 3);
  amount ← assert_float64 (idx offerData 4);
  amountOrig ← assert_float64 (idx offerData 5);
  type ← assert_string (idx offerData 6);
  flags ← assert_float64 (idx offerData 9);
  status ← assert_string (idx offerData 10);
  rate ← assert_float64 (idx offerData 14);
  period ← assert_float64 (idx offerData 15);
  notify ← assert_bool (idx offerData 16);
  hidden ← assert_float64 (idx offerData 17);
  renew ← assert_bool (idx offerData 19);
  Some {| fo_ID := to_int id;
          fo_Symbol := symbol;
          fo_CreatedAt := wrap64 (to_int created * 1000000);
          fo_UpdatedAt := wrap64 (to_int updated * 1000000);
          fo_Amount := amount;
          fo_AmountOriginal := amountOrig;
          fo_Type := type;
          fo_Flags := to_int flags;
          fo_Status := status;
          fo_Rate := rate;
          fo_Period := to_int period;
          fo_Notify := notify;
          fo_Hidden := to_int hidden;
          fo_Renew := renew |}.

(** The decoding of a submit answer: [None] is a panic. *)
Definition submit_decode (respBody : body) : option (result FundingOffer) :=
  match unmarshal_slice respBody with
  | None => Some (Err "failed to parse response")
  | Some response =>
      if (length response <? 8)%nat then Some (Err "invalid response format") else
      match idx response 4 with
      | VSlice offerData =>
          if (length offerData <? 20)%nat
          then Some (Err "invalid offer data format")
          else result ← populate offerData; Some (Ok result)
      | _ => Some (Err "invalid offer data format")
      end
  end.

(** One round of the loop of [GetWallets]; [None] is a panic. *)
Definition wallets_step (fundingBalances : gmap string float64)
    (wallet : list value) : option (gmap string float64) :=
  if (5 <=? length wallet)%nat then
    walletType ← assert_string (idx wallet 0);
    currency ← assert_string (idx wallet 1);
    if String.eqb walletType "funding" then
      availableBalance ← assert_float64 (idx wallet 4);
      let totalBalance := availableBalance in
      Some (<[currency := totalBalance]> fundingBalances)
    else Some fundingBalances
  else Some fundingBalances.

(** One round of the loop of [GetTotalWalletBalance] on
    [(usdBalance, ustBalance)]. *)
Definition total_step (acc : float64 * float64) (wallet : list value)
  : option (float64 * float64) :=
  let '(usdBalance, ustBalance) := acc in
  if (3 <=? length wallet)%nat then
    walletType ← assert_string (idx wallet 0);
    currency ← assert_string (idx wallet 1);
    balance ← assert_float64 (idx wallet 2);
    if String.eqb walletType "funding" then
      if String.eqb currency "USD" then Some (balance, ustBalance)
      else if String.eqb currency "UST" then Some (usdBalance, balance)
      else Some acc
    else Some acc
  else Some acc.

Section ClientCalls.

Variable ParseFloat : string → option float64.
Variable ParseInt : string → option Z.
Variable Venue : Type.
Variable transport : Venue → Client → Request → result body * Venue.

Abbreviation SendRequest := (SendRequest Venue transport).
Abbreviation M := (M Venue).

Definition GetFundingStat (c : Client) (symbol : string) : M (result (list FundingStat)) :=
  let path := "v2/funding/stats/" +:+ symbol +:+ "/hist" in
  r <- SendRequest c "GET" path NoBody ;;
  match r with
  | Err err => ret (Err ("failed to get funding statistics: " +:+ err))
  | Ok respBody =>
      match parseFundingStats ParseFloat respBody with
      | Err err => ret (Err ("error parsing FundingStat: " +:+ err))
      | Ok stats => ret (Ok stats)
      end
  end.

Definition GetWallets (c : Client) : M (result (gmap string float64)) :=
  r <- SendRequest c "POST" "v2/auth/r/wallets" NoBody ;;
  match r with
  | Err err => ret (Err ("failed to get wallets: " +:+ err))
  | Ok respBody =>
      match unmarshal_rows respBody with
      | None => ret (Err "JSON parsing error")
      | Some wallets =>
          fundingBalances <- or_panic (foldl (λ acc wallet, m ← acc; wallets_step m wallet)
                                             (Some ∅) wallets) ;;
          ret (Ok fundingBalances)
      end
  end.

Definition GetRawBookHighest (c : Client) : M (result body) :=
  SendRequest c "GET" "v2/book/fUSD/R0?len=100" NoBody.

Definition GetTotalWalletBalance (c : Client) : M (result (float64 * float64)) :=
  r <- SendRequest c "POST" "v2/auth/r/wallets" NoBody ;;
  match r with
  | Err err => ret (Err ("failed to get wallets: " +:+ err))
  | Ok respBody =>
      match unmarshal_rows respBody with
      | None => ret (Err "failed to parse wallets")
      | Some wallets =>
          balances <- or_panic (foldl (λ acc wallet, b ← acc; total_step b wallet)
                                      (Some (zero, zero)) wallets) ;;
          ret (Ok balances)
      end
  end.

Definition SubmitFundingOffer (c : Client) (offer : FundingOfferRequest)
  : M (result FundingOffer) :=
  match validate offer with
  | Some err => ret (Err err)
  | None =>
      let offer := default_type offer in
      r <- SendRequest c "POST" "v2/auth/w/funding/offer/submit" (OfferBody offer) ;;
      match r with
      | Err err => ret (Err ("failed to submit funding offer: " +:+ err))
      | Ok respBody => or_panic (submit_decode respBody)
      end
  end.

Definition CancelFundingOffer (c : Client) (offerID : Z) : M (option error) :=
  r <- SendRequest c "POST" "v2/auth/w/funding/offer/cancel" (CancelBody offerID) ;;
  match r with
  | Err err => ret (Some ("failed to cancel funding offer: " +:+ err))
  | Ok respBody =>
      match unmarshal_slice respBody with
      | None => ret (Some "failed to parse response")
      | Some response => or_panic (cancel_check response)
      end
  end.

End ClientCalls.

(* ---------------------------------------------------------------- *)
(** ** The trade stream *)
(* ---------------------------------------------------------------- *)

(** TradeMessage represents a trade message *)
Record TradeMessage : Type := {
  tm_ID : Z;
  tm_Timestamp : Z;
  tm_Amount : float64;
  tm_Rate : float64;
  tm_Period : Z
}.

(** What [listen] does with one message it has read. *)
Inductive handled : Type :=
| Deliver (trade : TradeMessage)   (* s.onMessage(trade) *)
| ParseError                       (* log.Printf("Error parsing message: %v", err) *)
| Skip.

(** [v == s] for an interface value and a string. *)
Definition is_string (v : value) (s : string) : bool :=
  match v with VString s' => String.eqb s' s | _ => false end.

Section Stream.

Variable ParseFloat : string → float64 * bool.
Variable ParseInt : string → Z * bool.
Variable Atoi : string → Z * bool.

(** The body of the loop of [listen] after a message is read. *)
Definition listen_message (message : body) : handled :=
  match unmarshal_slice message with
  | None => ParseError
  | Some msg =>
      if (2 <=? length msg)%nat && is_string (idx msg 1) "te" && (3 <=? length msg)%nat then
        match idx msg 2 with
        | VSlice data =>
            if (length data <? 5)%nat then Skip else
            let '(id, _) := util.values.SafeInt64 ParseInt (idx data 0) in
            let '(ts, _) := util.values.SafeInt64 ParseInt (idx data 1) in
            let '(amount, _) := util.values.SafeFloat64 ParseFloat (idx data 2) in
            let '(rate, _) := util.values.SafeFloat64 ParseFloat (idx data 3) in
            let '(period, _) := util.values.SafeInt ParseInt Atoi (idx data 4) in
            Deliver {| tm_ID := id; tm_Timestamp := ts; tm_Amount := amount;
                       tm_Rate := rate; tm_Period := period |}
        | _ => Skip
        end
      else Skip
  end.

End Stream.

End data.

Import data.

(* ================================================================== *)
(** * package strategy *)
(* ================================================================== *)

Module strategy.

(** Distribution represents the fund allocation ratio *)
Record Distribution : Type := {
  Fix : float64;     (* Fixed lending ratio *)
  Predict : float64  (* Predictive lending ratio *)
}.

(** CurrentPredictOrder represents the current prediction order *)
Record CurrentPredictOrder : Type := {
  ID : Z;             (* Order ID *)
  cp_Rate : float64;  (* Interest rate *)
  cp_Period : Z;      (* Period (days) *)
  Since : Z           (* Creation time *)
}.

(** The two variables of the order status. *)
Record OrderStatus : Type := {
  currentPredictOrder : list CurrentPredictOrder;
  currentOrderBool : bool
}.

(** What [godotenv.Load] and [os.Getenv] find. *)
Record Environment : Type := {
  dotenv_loaded : bool;
  BITFINEX_API_KEY : string;
  BITFINEX_API_SECRET : string
}.

(** How a block of statements is left: at its end, or by [return]. *)
Inductive flow (A : Type) : Type :=
| Next (a : A)
| Return_.
Arguments Next {A} a.
Arguments Return_ {A}.

Section Strategy.

Variable ParseFloat : string → option float64.
Variable ParseInt : string → option Z.
Variable sort_Slice :
  (BitfinexOffer → BitfinexOffer → bool) → list BitfinexOffer → list BitfinexOffer.
(** [fmt.Sprintf("%.2f", x)] and [fmt.Sprintf("%.6f", x)]. *)
Variable Sprintf_2f : float64 → string.
Variable Sprintf_6f : float64 → string.
Variable Venue : Type.
Variable transport : Venue → Client → Request → result body * Venue.

Abbreviation M := (M Venue).
Abbreviation GetTotalWalletBalance := (GetTotalWalletBalance Venue transport).
Abbreviation GetWallets := (GetWallets Venue transport).
Abbreviation GetRawBookHighest := (GetRawBookHighest Venue transport).
Abbreviation GetFundingStat := (GetFundingStat ParseFloat Venue transport).
Abbreviation SubmitFundingOffer := (SubmitFundingOffer Venue transport).
Abbreviation CancelFundingOffer := (CancelFundingOffer Venue transport).
Abbreviation FindHighestRateForShortestPeriod :=
  (FindHighestRateForShortestPeriod ParseFloat ParseInt sort_Slice).

(** [if limit < amount { amount = limit }] *)
Definition clamp (available remain : float64) : float64 :=
  if lt available remain then available else remain.

(** 5. Handle fixed lending: the statement block on [remainFixUsdBalance],
    which yields the available balance it leaves. *)
Definition fixed_leg (client : Client) (remainFixUsdBalance availableUsdBalance : float64)
  : M (flow float64) :=
  if gt remainFixUsdBalance c150 then
    let remainFixUsdBalance := clamp availableUsdBalance remainFixUsdBalance in
    if gt remainFixUsdBalance c150 then
      highest <- GetRawBookHighest client ;;
      match highest with
      | Err err => log_Printf "Error getting book: %v" [VString err] ;;; ret Return_
      | Ok highest =>
          match FindHighestRateForShortestPeriod highest with
          | Err err =>
              log_Printf "Error finding highest lending rate: %v" [VString err] ;;;
              ret Return_
          | Ok bestOffer =>
              let offer := {| Type_ := "LIMIT";
                              Symbol := "fUSD";
                              Amount := Sprintf_2f remainFixUsdBalance;
                              Rate := Sprintf_6f (bo_Rate bestOffer);
                              Period := bo_Period bestOffer;
                              Flags := 0 |} in
              r <- SubmitFundingOffer client offer ;;
              match r with
              | Err err =>
                  log_Printf "Failed to submit fixed lending order: %v" [VString err]
              | Ok _ => ret tt
              end ;;;
              ret (Next (sub availableUsdBalance remainFixUsdBalance))
          end
      end
    else ret (Next availableUsdBalance)
  else ret (Next availableUsdBalance).

(** Cancel existing prediction orders if any: the [for] loop over
    [currentPredictOrder]. *)
Fixpoint cancel_each (client : Client) (orders : list CurrentPredictOrder) : M unit :=
  match orders with
  | [] => ret tt
  | order :: orders =>
      err <- CancelFundingOffer client (ID order) ;;
      match err with
      | Some err =>
          log_Printf "Failed to cancel order (ID: %d): %v" [VInt (ID order); VString err]
      | None => ret tt
      end ;;;
      cancel_each client orders
  end.

Definition cancel_existing (client : Client) (st : OrderStatus) : M OrderStatus :=
  if currentOrderBool st then
    cancel_each client (currentPredictOrder st) ;;;
    ret {| currentPredictOrder := []; currentOrderBool := false |}
  else ret st.

(** 6. Handle predictive lending. *)
Definition predictive_leg (client : Client) (st : OrderStatus)
    (remainPredictUsdBalance availableUsdBalance : float64) : M (flow OrderStatus) :=
  if gt remainPredictUsdBalance c150 then
    let remainPredictUsdBalance := clamp availableUsdBalance remainPredictUsdBalance in
    if gt remainPredictUsdBalance c150 then
      stats <- GetFundingStat client "fUSD" ;;
      match stats with
      | Err err =>
          log_Printf "Failed to get funding statistics: %v" [VString err] ;;;
          ret Return_
      | Ok [] => ret (Next st)
      | Ok (latestStat :: _) =>
          st <- cancel_existing client st ;;
          let predictRate := mul (FRR latestStat) c1_3 in
          let offer := {| Type_ := "LIMIT";
                          Symbol := "fUSD";
                          Amount := Sprintf_2f remainPredictUsdBalance;
                          Rate := Sprintf_6f predictRate;
                          Period := 2;
                          Flags := 0 |} in
          r <- SubmitFundingOffer client offer ;;
          match r with
          | Err err =>
              log_Printf "Failed to submit predictive lending order: %v" [VString err] ;;;
              ret (Next st)
          | Ok res =>
              let current := {| ID := fo_ID res;
                                cp_Rate := fo_Rate res;
                                cp_Period := fo_Period res;
                                Since := fo_CreatedAt res |} in
              ret (Next {| currentPredictOrder := currentPredictOrder st ++ [current];
                           currentOrderBool := true |})
          end
      end
    else ret (Next st)
  else ret (Next st).

(** The statements of [StrategyManager] after the initialisation of the
    order status, which is given as [st]; the status is handed back where
    the end of the function is reached. *)
Definition cycle (st : OrderStatus) (env : Environment) : M (flow OrderStatus) :=
  (* Set fund allocation ratio *)
  let distribution := {| Fix := half; Predict := half |} in
  (* Load environment variables *)
  emit EvLoadEnv ;;;
  if negb (dotenv_loaded env) then log_Fatal "Error loading .env file" [] else
  let apiKey := BITFINEX_API_KEY env in
  let apiSecret := BITFINEX_API_SECRET env in
  if String.eqb apiKey "" || String.eqb apiSecret "" then
    log_Fatal "API key and secret must be set in environment variables." []
  else
  (* Create API client *)
  let client := NewClient apiKey apiSecret in
  (* 1. Get total balance *)
  total <- GetTotalWalletBalance client ;;
  match total with
  | Err err => log_Fatal "Error getting total wallet balance:" [VString err]
  | Ok (usdBalance, ustBalance) =>
  (* 2. Get available balance *)
  wallets <- GetWallets client ;;
  match wallets with
  | Err err => log_Fatal "Error getting wallets:" [VString err]
  | Ok wallets =>
  match wallets !! "USD" with
  | None => ret Return_
  | Some availableUsdBalance =>
  (* 3. Calculate allocation amounts *)
  let fixUsdBalance := mul usdBalance (Fix distribution) in
  let predictUsdBalance := mul usdBalance (Predict distribution) in
  (* 4. Calculate amount needed for lending *)
  let alreadyLentAmount := sub usdBalance availableUsdBalance in
  let remainFixUsdBalance :=
    sub fixUsdBalance (mul alreadyLentAmount (Fix distribution)) in
  let remainPredictUsdBalance :=
    sub predictUsdBalance (mul alreadyLentAmount (Predict distribution)) in
  fixed <- fixed_leg client remainFixUsdBalance availableUsdBalance ;;
  match fixed with
  | Return_ => ret Return_
  | Next availableUsdBalance =>
  predictive <- predictive_leg client st remainPredictUsdBalance availableUsdBalance ;;
  match predictive with
  | Return_ => ret Return_
  | Next st =>
  time_Sleep 300 ;;;
  ret (Next st)
  end end end end end.

(** Initialize order status *)
Definition initial_status : OrderStatus :=
  {| currentPredictOrder := []; currentOrderBool := false |}.

Definition StrategyManager (env : Environment) : M unit :=
  cycle initial_status env ;;; ret tt.

(** Modelled from the spec: the loop driver that calls [StrategyManager],
    which is not among the sources. Section 4.4 has the cycle "repeat from
    step 1" after the sleep, with no terminal state; [cycles] bounds the
    number of repetitions looked at. *)
Fixpoint run (cycles : nat) (env : Environment) : M unit :=
  match cycles with
  | O => ret tt
  | S cycles => StrategyManager env ;;; run cycles env
  end.

End Strategy.

End strategy.

Import strategy.

(* ================================================================== *)
(** * Specification vocabulary *)
(* ================================================================== *)

Module spec.
Section Rows.

Variable ParseFloat : string → option float64.
Variable ParseInt : string → option Z.

(** Numeric coercion of one field: the value where the flag is set. *)
Definition coerced {A} (r : A * bool) : option A :=
  if r.2 then Some r.1 else None.

(** The fields at fixed positions that a rate-statistics row must have. *)
Definition stat_fields : list nat := [0; 3; 4; 7; 8; 11]%nat.

(** A rate-statistics row by the spec's words: at least 12 fields, and the
    required ones coerce to numbers; otherwise there is no record. *)
Definition stat_of_row (raw : list value) : option FundingStat :=
  if decide (length raw < 12)%nat then None else
  fields ← mapM (λ i, v ← raw !! i; coerced (util.SafeFloat64 ParseFloat v)) stat_fields;
  match fields with
  | [ts; frr; avgPeriod; fundingAmt; fundingUsed; fundingBelow] =>
      Some {| Timestamp := to_int ts; FRR := frr; AveragePeriod := avgPeriod;
              FundingAmount := fundingAmt; FundingAmountUsed := fundingUsed;
              FundingBelowThreshold := fundingBelow |}
  | _ => None
  end.

(** A book row by the spec's words: [offerID, periodDays, rate, amount, …],
    at least 4 fields, all four coercing. *)
Definition book_entry (rawOffer : list value) : option BitfinexOffer :=
  match rawOffer with
  | id :: period :: rate :: amount :: _ =>
      offerID ← coerced (util.ToInt ParseInt id);
      period ← coerced (util.ToInt ParseInt period);
      rate ← coerced (util.ToFloat64 ParseFloat rate);
      amount ← coerced (util.ToFloat64 ParseFloat amount);
      Some {| OfferID := offerID; bo_Period := period;
              bo_Rate := rate; bo_Amount := amount |}
  | _ => None
  end.

(** What the book loop of the shortest-period selection keeps of a row:
    the entry, unless its amount is [>= 0]. *)
Definition kept (rawOffer : list value) : option BitfinexOffer :=
  o ← book_entry rawOffer;
  if ge (bo_Amount o) zero then None else Some o.

End Rows.

(** [signedAmount < 0]: lending supply. *)
Definition supply (o : BitfinexOffer) : bool := lt (bo_Amount o) zero.

(** Eligible for the selection under a minimum tenor. *)
Definition eligible (minPeriod : Z) (o : BitfinexOffer) : bool :=
  supply o && (minPeriod <=? bo_Period o).

(** The entry with its amount reported as a magnitude. *)
Definition magnitude (o : BitfinexOffer) : BitfinexOffer :=
  {| OfferID := OfferID o; bo_Period := bo_Period o;
     bo_Rate := bo_Rate o; bo_Amount := abs (bo_Amount o) |}.

(** What the book loop of the minimum-period selection keeps of a row. *)
Definition lending_kept (ParseFloat : string → option float64)
    (ParseInt : string → option Z) (minPeriod : Z) (rawOffer : list value)
  : option BitfinexOffer :=
  o ← book_entry ParseFloat ParseInt rawOffer;
  if ge (bo_Amount o) zero then None
  else if bo_Period o <? minPeriod then None
  else Some (magnitude o).

(** The eligible entries of a decoded book, in the order of the rows. *)
Definition candidates (ParseFloat : string → option float64)
    (ParseInt : string → option Z) (minPeriod : Z) (rawOffers : list (list value))
  : list BitfinexOffer :=
  filter (λ o, eligible minPeriod o = true) (omap (book_entry ParseFloat ParseInt) rawOffers).

(** The selection loop keeps an offer of the slice that no offer exceeds
    in rate and that is the shortest among those of its rate. *)
Definition leads (best : BitfinexOffer) (l : list BitfinexOffer) : Prop :=
  best ∈ l ∧
  ∀ o, o ∈ l →
    gt (bo_Rate o) (bo_Rate best) = false ∧
    (eq (bo_Rate o) (bo_Rate best) = true → bo_Period best ≤ bo_Period o).

(** The requests among the events of a trace, in order. *)
Definition sends (evs : list event) : list Request :=
  omap (λ e, match e with EvSend r => Some r | _ => None end) evs.

Definition cancel_request (id : Z) : Request :=
  {| method := "POST"; path := "v2/auth/w/funding/offer/cancel";
     req_body := CancelBody id |}.

Definition submit_request (offer : FundingOfferRequest) : Request :=
  {| method := "POST"; path := "v2/auth/w/funding/offer/submit";
     req_body := OfferBody offer |}.

Definition wallets_request : Request :=
  {| method := "POST"; path := "v2/auth/r/wallets"; req_body := NoBody |}.

Definition book_request : Request :=
  {| method := "GET"; path := "v2/book/fUSD/R0?len=100"; req_body := NoBody |}.

Definition stats_request : Request :=
  {| method := "GET"; path := "v2/funding/stats/fUSD/hist"; req_body := NoBody |}.

(** The flag [currentOrderBool] says whether orders are tracked. *)
Definition consistent (st : OrderStatus) : Prop :=
  currentOrderBool st = true ↔ currentPredictOrder st ≠ [].

(** What the engine records of an accepted predictive offer. *)
Definition tracked_of (res : FundingOffer) : CurrentPredictOrder :=
  {| ID := fo_ID res; cp_Rate := fo_Rate res;
     cp_Period := fo_Period res; Since := fo_CreatedAt res |}.

(** The environment has a [.env] file and both credentials. *)
Definition configured (env : Environment) : Prop :=
  dotenv_loaded env = true ∧ BITFINEX_API_KEY env ≠ "" ∧ BITFINEX_API_SECRET env ≠ "".

(** The four messages of [log.Fatal] in [StrategyManager]. *)
Definition fatal_messages : list string :=
  [ "Error loading .env file";
    "API key and secret must be set in environment variables.";
    "Error getting total wallet balance:";
    "Error getting wallets:" ].

(** The number of cycles begun in a stretch of the trace: each begins by
    loading the environment. *)
Definition cycles_begun (evs : list event) : nat :=
  length (omap (λ e, match e with EvLoadEnv => Some tt | _ => None end) evs).

(** Every answer to a cancel request that decodes to an array passes the
    check without a panic: index 6 holds a string where there are 7
    entries, and index 7 a string where index 6 is not "SUCCESS". *)
Definition cancel_answers_typed {Venue : Type}
    (transport : Venue → Client → Request → result body * Venue) : Prop :=
  ∀ v c id respBody response,
    (transport v c (cancel_request id)).1 = Ok respBody →
    unmarshal_slice respBody = Some response →
    cancel_check response ≠ None.

(** A computation is quiet when it only extends the trace, begins no
    cycle and does not leave the process through [os.Exit]. *)
Definition quiet {Venue A : Type} (m : M Venue A) : Prop :=
  ∀ w, ∃ evs, trace (m w).2 = trace w ++ evs ∧
              cycles_begun evs = 0%nat ∧
              (m w).1 ≠ Exit.

(** A computation that only extends the trace. *)
Definition extends {Venue A : Type} (m : M Venue A) : Prop :=
  ∀ w, ∃ evs, trace (m w).2 = trace w ++ evs.

(** The events of the cancellation loop: a request, or the log line of a
    failed attempt. *)
Definition cancel_event (e : event) : Prop :=
  (∃ id, e = EvSend (cancel_request id)) ∨
  (∃ id err, e = EvLog "Failed to cancel order (ID: %d): %v" [VInt id; VString err]).

(** A computation whose events all satisfy [P]. *)
Definition emits {Venue A : Type} (P : event → Prop) (m : M Venue A) : Prop :=
  ∀ w, ∃ evs, trace (m w).2 = trace w ++ evs ∧ Forall P evs.

(** The requests of the strategy: the two reads of the balances, the read
    of the book, the read of the statistics, and the submission of a LIMIT
    offer for fUSD without flags. Other events are not restricted. *)
Definition strategy_event (e : event) : Prop :=
  match e with
  | EvSend r =>
      r = wallets_request ∨ r = book_request ∨ r = stats_request ∨
      ∃ offer, r = submit_request offer ∧
               Type_ offer = "LIMIT" ∧ Symbol offer = "fUSD" ∧ Flags offer = 0
  | _ => True
  end.

(** A wallet row of the funding type with its currency and the balance at
    a position: what the loops over the wallets take from a row. *)
Definition funding_entry (position : nat) (wallet : list value)
  : option (string * float64) :=
  match wallet !! 0%nat, wallet !! 1%nat, wallet !! position with
  | Some (VString "funding"), Some (VString currency), Some (VFloat64 balance) =>
      Some (currency, balance)
  | _, _, _ => None
  end.

(** The balance of the last funding row of a currency. *)
Definition last_balance (position least : nat) (currency : string)
    (wallets : list (list value)) : option float64 :=
  last (omap (λ wallet,
                if (least <=? length wallet)%nat then
                  '(c, balance) ← funding_entry position wallet;
                  if String.eqb c currency then Some balance else None
                else None) wallets).

(** A wallet row on which [GetWallets] panics: it has 5 entries and its
    type or its currency is no string, or it is a funding row whose
    available balance is no float64. *)
Definition wallets_row_ill_typed (wallet : list value) : Prop :=
  (5 ≤ length wallet)%nat ∧
  (assert_string (idx wallet 0) = None ∨
   assert_string (idx wallet 1) = None ∨
   (idx wallet 0 = VString "funding" ∧ assert_float64 (idx wallet 4) = None)).

(** A wallet row on which [GetTotalWalletBalance] panics: it has 3 entries
    and its type or currency is no string or its balance no float64. *)
Definition total_row_ill_typed (wallet : list value) : Prop :=
  (3 ≤ length wallet)%nat ∧
  (assert_string (idx wallet 0) = None ∨
   assert_string (idx wallet 1) = None ∨
   assert_float64 (idx wallet 2) = None).

(** The offers of a period, in their order. *)
Definition of_period (p : Z) (offers : list BitfinexOffer) : list BitfinexOffer :=
  filter (λ o, bo_Period o = p) offers.

(** The entries of the offer data of a submit answer that are read, by the
    type asserted of each. *)
Definition float64_entries : list nat := [0; 2; 3; 4; 5; 9; 14; 15; 17]%nat.
Definition string_entries : list nat := [1; 6; 10]%nat.
Definition bool_entries : list nat := [16; 19]%nat.

(** Every entry that is read has the type asserted of it. *)
Definition offer_data_typed (offerData : list value) : Prop :=
  Forall (λ i, ∃ f, offerData !! i = Some (VFloat64 f)) float64_entries ∧
  Forall (λ i, ∃ s, offerData !! i = Some (VString s)) string_entries ∧
  Forall (λ i, ∃ b, offerData !! i = Some (VBool b)) bool_entries.

(** A submit answer that carries offer data: an array of at least 8
    entries with an array of at least 20 entries at index 4. *)
Definition carries_offer_data (respBody : body) (offerData : list value) : Prop :=
  ∃ response,
    unmarshal_slice respBody = Some response ∧
    (8 ≤ length response)%nat ∧
    response !! 4%nat = Some (VSlice offerData) ∧
    (20 ≤ length offerData)%nat.

End spec.

Import spec.

(* ================================================================== *)
(** * Instances for the examples *)
(* ================================================================== *)

Module instances.

(** A venue that answers from a script, one answer per request; with the
    script used up it answers with an error. *)
Definition scripted : Type := list (result body).

Definition scripted_transport (v : scripted) (c : Client) (r : Request)
  : result body * scripted :=
  match v with
  | [] => (Err "no answer", [])
  | answer :: v => (answer, v)
  end.

(** [strconv] on plain decimal integer literals. *)
Definition digit_of (a : ascii) : option Z :=
  let n := Z.of_nat (nat_of_ascii a) in
  if (48 <=? n) && (n <=? 57) then Some (n - 48) else None.

Fixpoint parse_digits (s : string) (acc : Z) : option Z :=
  match s with
  | EmptyString => Some acc
  | String a s => d ← digit_of a; parse_digits s (10 * acc + d)
  end.

Definition parse_integer (s : string) : option Z :=
  match s with
  | EmptyString => None
  | String "-"%char (String _ _ as s) => Z.opp <$> parse_digits s 0
  | String "+"%char (String _ _ as s) => parse_digits s 0
  | s => parse_digits s 0
  end.

Definition ParseInt (s : string) : option Z :=
  z ← parse_integer s;
  if (min_int <=? z) && (z <=? max_int) then Some z else None.

Definition ParseFloat (s : string) : option float64 :=
  of_int <$> parse_integer s.

(** [%.Nf] for [N > 0]: the exact value rounded half-to-even at the [N]th
    decimal. *)
Definition digit_char (d : Z) : ascii := ascii_of_nat (48 + Z.to_nat d).

Fixpoint decimal (fuel : nat) (n : Z) (acc : string) : string :=
  match fuel with
  | O => acc
  | S fuel =>
      let acc := String (digit_char (n mod 10)) acc in
      if n / 10 =? 0 then acc else decimal fuel (n / 10) acc
  end.

Definition print_Z (n : Z) : string := decimal (S (Z.to_nat (Z.log2 n))) n "".

Fixpoint zeros (n : nat) : string :=
  match n with O => "" | S n => String "0"%char (zeros n) end.

Definition pad (width : nat) (s : string) : string :=
  zeros (width - String.length s) +:+ s.

Definition round_half_even (num den : Z) : Z :=
  let q := num / den in
  let r := num mod den in
  if (den <? 2 * r) || ((den =? 2 * r) && Z.odd q) then q + 1 else q.

Definition Sprintf_fixed (N : nat) (f : float64) : string :=
  let scale := 10 ^ Z.of_nat N in
  let show (s : bool) (n : Z) :=
    (if s then "-" else "") +:+ print_Z (n / scale) +:+ "." +:+ pad N (print_Z (n mod scale)) in
  match f with
  | S754_nan => "NaN"
  | S754_infinity s => if s then "-Inf" else "+Inf"
  | S754_zero s => show s 0
  | S754_finite s m e =>
      show s (if 0 <=? e then Z.pos m * 2 ^ e * scale
              else round_half_even (Z.pos m * scale) (2 ^ (- e)))
  end.

(** A float of the examples, from an integer. *)
Definition num (z : Z) : value := VFloat64 (of_int z).

(** A wallet row [walletType, currency, balance, unsettledInterest,
    availableBalance]. *)
Definition wallet_row (type currency : string) (balance available : Z) : value :=
  VSlice [VString type; VString currency; num balance; num 0; num available].

Definition env_ok : Environment :=
  {| dotenv_loaded := true; BITFINEX_API_KEY := "key"; BITFINEX_API_SECRET := "secret" |}.

Definition world_of (script : scripted) : World scripted :=
  {| venue := script; trace := [] |}.

(** [0.00015], the nearest binary64 value 0x1.3a92a30553261p-13. *)
Definition rate_0_00015 : float64 := S754_finite false 5534023222112865 (-65).

(** The book row [[101, 2, 0.00015, -500.0]] and a row of length 3. *)
Definition book_row_101 : list value :=
  [num 101; num 2; VFloat64 rate_0_00015; num (-500)].
Definition short_row : list value := [num 102; num 2; VFloat64 rate_0_00015].

(** A book whose only offer has the rate [-2.0]. *)
Definition low_rate_book : body :=
  Some (VSlice [VSlice [num 101; num 2; num (-2); num (-500)]]).

(** A book [[1, 2, 2, -500], [2, 30, 3, -100], [3, 5, 3, -40],
    [4, 1, 9, -70], [5, 7, 8, 60], [6, 2]]. *)
Definition sample_book : list (list value) :=
  [ [num 1; num 2; num 2; num (-500)];
    [num 2; num 30; num 3; num (-100)];
    [num 3; num 5; num 3; num (-40)];
    [num 4; num 1; num 9; num (-70)];
    [num 5; num 7; num 8; num 60];
    [num 6; num 2] ].

(** A venue that accepts or refuses a cancellation by the next flag of a
    list, and times out when the list is used up. *)
Definition flaky : Type := list bool.

Definition cancel_accepted : body :=
  Some (VSlice [num 1700000000000; VString "foc-req"; VNil; VNil; VNil; VNil;
                VString "SUCCESS"; VString "Submitted for cancellation"]).

Definition cancel_refused : body :=
  Some (VSlice [num 1700000000000; VString "foc-req"; VNil; VNil; VNil; VNil;
                VString "ERROR"; VString "Offer not found"]).

Definition flaky_transport (v : flaky) (c : Client) (r : Request)
  : result body * flaky :=
  match v with
  | [] => (Err "timeout", [])
  | true :: v => (Ok cancel_accepted, v)
  | false :: v => (Ok cancel_refused, v)
  end.

(** A rate-statistics answer of one row, with the FRR 0.00015. *)
Definition stats_row : value :=
  VSlice [num 1700000000000; VNil; VNil; VFloat64 rate_0_00015; num 3; VNil; VNil;
          num 100; num 50; VNil; VNil; num 7].

Definition stats_answer : result body := Ok (Some (VSlice [stats_row])).

(** The answer to an accepted submission, with the offer of the given id
    at index 4. *)
Definition offer_data (id : Z) : value :=
  VSlice [num id; VString "fUSD"; num 1700000000000; num 1700000000000;
          num 500; num 500; VString "LIMIT"; VNil; VNil; num 0;
          VString "ACTIVE"; VNil; VNil; VNil; num 1; num 2; VBool false;
          num 0; VNil; VBool false].

Definition submit_accepted (id : Z) : result body :=
  Ok (Some (VSlice [num 1700000000000; VString "fon-req"; VNil; VNil;
                    offer_data id; VNil; VString "SUCCESS"; VString "Submitting"])).

(** The wallets answer with a funding wallet of the given currency. *)
Definition wallets_answer (currency : string) (balance available : Z) : result body :=
  Ok (Some (VSlice [wallet_row "exchange" "USD" 5 5;
                    wallet_row "funding" currency balance available])).

(** A book answer. *)
Definition book_answer : result body :=
  Ok (Some (VSlice [VSlice short_row; VSlice book_row_101])).

Definition order (id : Z) : CurrentPredictOrder :=
  {| ID := id; cp_Rate := rate_0_00015; cp_Period := 2; Since := 0 |}.

(** A book [[1, 2, 2, -500], [2, 2, 3, -100], [3, 2, 3, -40],
    [4, 5, 9, -70]]: two offers of the shortest period share its highest
    rate. *)
Definition tie_book : list (list value) :=
  [ [num 1; num 2; num 2; num (-500)];
    [num 2; num 2; num 3; num (-100)];
    [num 3; num 2; num 3; num (-40)];
    [num 4; num 5; num 9; num (-70)] ].

(** A sort that does not keep the order of the elements that compare
    equal: it hands them back in the reverse of their order. *)
Definition sort_ties_reversed {A} (less : A → A → bool) (s : list A) : list A :=
  insertionSort less (rev s).

(** A book answer whose only offer has a period of 1 day. *)
Definition one_day_book_answer : result body :=
  Ok (Some (VSlice [VSlice [num 7; num 1; num 3; num (-100)]])).

(** A wallets answer [["funding", "UST", 5, 0, 5],
    ["funding", "USD", null, 0, null]]: the balances of the second row are
    null. *)
Definition null_balance_row : list value :=
  [VString "funding"; VString "USD"; VNil; num 0; VNil].

Definition wallets_with_null_balance : body :=
  Some (VSlice [wallet_row "funding" "UST" 5 5; VSlice null_balance_row]).

(** The answers to two calls of the strategy: 1000 USD, all available, and
    on the second call 2000 USD of which 1000 are available; the four
    submissions are accepted as the orders 7 to 10. *)
Definition two_calls : scripted :=
  [ wallets_answer "USD" 1000 1000; wallets_answer "USD" 1000 1000;
    book_answer; submit_accepted 7; stats_answer; submit_accepted 8;
    wallets_answer "USD" 2000 1000; wallets_answer "USD" 2000 1000;
    book_answer; submit_accepted 9; stats_answer; submit_accepted 10 ].

(** A cancel answer cut after the status. *)
Definition cancel_cut_short : body :=
  Some (VSlice [num 1700000000000; VString "foc-req"; VNil; VNil; VNil; VNil;
                VString "ERROR"]).

End instances.

(* ================================================================== *)
(** * Facts about float64 comparison *)
(* ================================================================== *)

Module Float64_facts.

Ltac compare_cases :=
  repeat match goal with
  | |- context [Z.compare ?a ?b] => destruct (Z.compare_spec a b)
  | H : context [Z.compare ?a ?b] |- _ => destruct (Z.compare_spec a b)
  | |- context [Pos.compare_cont Eq ?a ?b] =>
      change (Pos.compare_cont Eq a b) with (Pos.compare a b);
      destruct (Pos.compare_spec a b)
  | H : context [Pos.compare_cont Eq ?a ?b] |- _ =>
      change (Pos.compare_cont Eq a b) with (Pos.compare a b) in H;
      destruct (Pos.compare_spec a b)
  end.

(** All cases of three floats by class and sign; what is left compares
    exponents and mantissas. *)
Ltac by_classes a b c :=
  unfold gt, lt, ge, eq, SFltb, SFleb, SFeqb, SFcompare;
  destruct a as [[]|[]| |[] ? ?], b as [[]|[]| |[] ? ?], c as [[]|[]| |[] ? ?];
  try (simpl; congruence);
  intros; compare_cases; simpl in *; try congruence; try lia.

(** A value above the running maximum is above everything the maximum was
    not below, and equal to none of it. *)
Lemma gt_bound (n b o : float64) :
  gt n b = true → gt o b = false → gt o n = false ∧ eq o n = false.
Proof. intros H1 H2; split; revert H1 H2; by_classes n b o. Qed.

(** Equal values compare alike with a third. *)
Lemma eq_alike (n b o : float64) :
  eq n b = true → gt o n = gt o b ∧ eq o n = eq o b.
Proof. intros H; split; revert H; by_classes n b o. Qed.

(** Off the NaN, "not [>= 0]" is "[< 0]". *)
Lemma not_ge_zero (a : float64) :
  is_nan a = false → ge a zero = negb (lt a zero).
Proof. destruct a as [[]|[]| |[] ? ?]; cbv; congruence. Qed.

Lemma gt_irrefl (a : float64) : gt a a = false.
Proof.
  unfold gt, SFltb, SFcompare. destruct a as [[]|[]| |[] ? ?]; try reflexivity;
    rewrite Z.compare_refl; change (Pos.compare_cont Eq m m) with (Pos.compare m m);
    rewrite Pos.compare_refl; reflexivity.
Qed.

End Float64_facts.

(* ================================================================== *)
(** * The decoder *)
(* ================================================================== *)

Section DecoderFacts.

Variable ParseFloat : string → option float64.
Variable ParseInt : string → option Z.

(** A loop that appends at most one record per row builds its result row
    by row, in the order of the rows. *)
Lemma fold_left_append {A B} (step : list B → A → list B) (f : A → option B) :
  (∀ acc x, step acc x = acc ++ option_list (f x)) →
  ∀ l acc, fold_left step l acc = acc ++ omap f l.
Proof.
  intros Hstep l. induction l as [|x l IH]; intros acc; simpl.
  - by rewrite app_nil_r.
  - rewrite IH, Hstep. destruct (f x); simpl; by rewrite <- ?app_assoc, ?app_nil_r.
Qed.

Lemma stats_step_row (stats : list FundingStat) (raw : list value) :
  stats_step ParseFloat stats raw = stats ++ option_list (stat_of_row ParseFloat raw).
Proof.
  unfold stats_step, stat_of_row.
  do 12 (destruct raw as [|? raw]; [simpl; by rewrite app_nil_r|]).
  change (length _ <? 12)%nat with false; cbv iota.
  destruct (decide _) as [Hl|_]; [simpl in Hl; lia|].
  unfold stat_fields, idx, coerced; simpl.
  repeat match goal with
  | |- context [util.SafeFloat64 ParseFloat ?v] =>
      destruct (util.SafeFloat64 ParseFloat v) as [? []]; simpl
  end; by rewrite ?app_nil_r.
Qed.

Lemma stat_of_row_none (raw : list value) :
  stat_of_row ParseFloat raw = None ↔
  (length raw < 12)%nat ∨
  ∃ i, i ∈ stat_fields ∧ (util.SafeFloat64 ParseFloat (idx raw i)).2 = false.
Proof.
  unfold stat_of_row. destruct (decide _) as [Hl|Hl]; [tauto|].
  do 12 (destruct raw as [|? raw]; [simpl in Hl; lia|]).
  unfold stat_fields, idx, coerced; simpl.
  split.
  - intros H. right.
    repeat match type of H with
    | context [util.SafeFloat64 ParseFloat ?v] =>
        let E := fresh "E" in
        destruct (util.SafeFloat64 ParseFloat v) as [? []] eqn:E; simpl in H
    end; try discriminate;
    match goal with
    | E : util.SafeFloat64 _ ?v = (_, false) |- _ =>
        first [ exists 0%nat; split; [set_solver|simpl; by rewrite E]
              | exists 3%nat; split; [set_solver|simpl; by rewrite E]
              | exists 4%nat; split; [set_solver|simpl; by rewrite E]
              | exists 7%nat; split; [set_solver|simpl; by rewrite E]
              | exists 8%nat; split; [set_solver|simpl; by rewrite E]
              | exists 11%nat; split; [set_solver|simpl; by rewrite E] ]
    end.
  - intros [H|(i & Hi & H)]; [simpl in H; lia|].
    repeat (apply elem_of_cons in Hi as [->|Hi]; [simpl in H|]);
      [..|by apply elem_of_nil in Hi];
      repeat match goal with
      | |- context [util.SafeFloat64 ParseFloat ?v] =>
          destruct (util.SafeFloat64 ParseFloat v) as [? []]; simpl in *
      end; congruence.
Qed.

Lemma shortest_step_row (offers : list BitfinexOffer) (rawOffer : list value) :
  shortest_step ParseFloat ParseInt offers rawOffer = offers ++ option_list (kept ParseFloat ParseInt rawOffer).
Proof.
  unfold shortest_step, kept, book_entry.
  do 4 (destruct rawOffer as [|? rawOffer]; [simpl; by rewrite app_nil_r|]).
  change (length _ <? 4)%nat with false; cbv iota.
  unfold idx, coerced; simpl.
  repeat match goal with
  | |- context [util.ToInt ParseInt ?v] =>
      destruct (util.ToInt ParseInt v) as [? []]; simpl
  | |- context [util.ToFloat64 ParseFloat ?v] =>
      destruct (util.ToFloat64 ParseFloat v) as [? []]; simpl
  end; rewrite ?app_nil_r; try done.
  by destruct (ge _ _); simpl; rewrite ?app_nil_r.
Qed.

Lemma book_entry_none (rawOffer : list value) :
  book_entry ParseFloat ParseInt rawOffer = None ↔
  (length rawOffer < 4)%nat ∨
  (util.ToInt ParseInt (idx rawOffer 0)).2 = false ∨
  (util.ToInt ParseInt (idx rawOffer 1)).2 = false ∨
  (util.ToFloat64 ParseFloat (idx rawOffer 2)).2 = false ∨
  (util.ToFloat64 ParseFloat (idx rawOffer 3)).2 = false.
Proof.
  unfold book_entry.
  do 4 (destruct rawOffer as [|? rawOffer]; [simpl; split; [left; lia|done]|]).
  unfold idx, coerced; simpl.
  repeat match goal with
  | |- context [util.ToInt ParseInt ?v] =>
      destruct (util.ToInt ParseInt v) as [? []]; simpl
  | |- context [util.ToFloat64 ParseFloat ?v] =>
      destruct (util.ToFloat64 ParseFloat v) as [? []]; simpl
  end; split; try done; try tauto; intros [?|[?|[?|[?|?]]]]; try lia; congruence.
Qed.

Lemma omap_kept (f : list value → option BitfinexOffer) (p : BitfinexOffer → bool)
    (l : list (list value)) :
  omap (λ x, o ← f x; if p o then None else Some o) l
  = filter (λ o, p o = false) (omap f l).
Proof.
  induction l as [|x l IH]; [done|].
  set (g := λ x, o ← f x; if p o then None else Some o) in *.
  change (omap g (x :: l)) with (match g x with Some y => y :: omap g l | None => omap g l end).
  change (omap f (x :: l)) with (match f x with Some y => y :: omap f l | None => omap f l end).
  rewrite IH. unfold g. destruct (f x) as [o|]; simpl; [|done].
  rewrite filter_cons. destruct (decide (p o = false)) as [E|E].
  - by rewrite E.
  - by destruct (p o).
Qed.

End DecoderFacts.

(* ================================================================== *)
(** * The rate selectors *)
(* ================================================================== *)

Section SelectorFacts.

Variable ParseFloat : string → option float64.
Variable ParseInt : string → option Z.

Lemma lending_step_row (minPeriod : Z) (offers : list BitfinexOffer)
    (rawOffer : list value) :
  lending_step ParseFloat ParseInt minPeriod offers rawOffer
  = offers ++ option_list (lending_kept ParseFloat ParseInt minPeriod rawOffer).
Proof.
  unfold lending_step, lending_kept, book_entry.
  do 4 (destruct rawOffer as [|? rawOffer]; [simpl; by rewrite app_nil_r|]).
  change (length _ <? 4)%nat with false; cbv iota.
  unfold idx, coerced; simpl.
  repeat match goal with
  | |- context [util.ToInt ParseInt ?v] =>
      destruct (util.ToInt ParseInt v) as [? []]; simpl
  | |- context [util.ToFloat64 ParseFloat ?v] =>
      destruct (util.ToFloat64 ParseFloat v) as [? []]; simpl
  end; rewrite ?app_nil_r; try done.
  destruct (ge _ _); simpl; rewrite ?app_nil_r; [done|].
  by destruct (_ <? _); simpl; rewrite ?app_nil_r.
Qed.

(** Without NaN amounts the loop keeps the eligible entries, as
    magnitudes. *)
Lemma lending_kept_candidates (minPeriod : Z) (rawOffers : list (list value)) :
  (∀ o, o ∈ omap (book_entry ParseFloat ParseInt) rawOffers → is_nan (bo_Amount o) = false) →
  omap (lending_kept ParseFloat ParseInt minPeriod) rawOffers
  = magnitude <$> candidates ParseFloat ParseInt minPeriod rawOffers.
Proof.
  unfold candidates. induction rawOffers as [|raw l IH]; intros Hnan; [done|].
  change (omap ?g (raw :: l))
    with (match g raw with Some y => y :: omap g l | None => omap g l end) in *.
  unfold lending_kept at 1.
  destruct (book_entry ParseFloat ParseInt raw) as [o|] eqn:Eo; simpl.
  - rewrite filter_cons.
    assert (Ho : is_nan (bo_Amount o) = false) by (apply Hnan; left).
    rewrite IH by (intros o' Ho'; apply Hnan; by right).
    rewrite (Float64_facts.not_ge_zero _ Ho), Z.ltb_antisym.
    destruct (decide (eligible minPeriod o = true)) as [He|He];
      unfold eligible, supply in He;
      destruct (lt (bo_Amount o) zero), (minPeriod <=? bo_Period o); simpl in *;
      done.
  - apply IH. intros o' Ho'. by apply Hnan.
Qed.

Lemma highest_step_leads (best x : BitfinexOffer) (l : list BitfinexOffer) :
  leads best l → leads (highest_step best x) (l ++ [x]).
Proof.
  intros [Hin Hmax]. unfold highest_step.
  destruct (gt (bo_Rate x) (bo_Rate best)) eqn:Hgt.
  - split; [apply elem_of_app; right; left|].
    intros o [Ho| ->%list_elem_of_singleton]%elem_of_app.
    + destruct (Float64_facts.gt_bound _ _ (bo_Rate o) Hgt (proj1 (Hmax o Ho))) as [-> ->].
      by split.
    + split; [apply Float64_facts.gt_irrefl|lia].
  - destruct (eq (bo_Rate x) (bo_Rate best)) eqn:Heq; simpl.
    + destruct (bo_Period x <? bo_Period best) eqn:Hp.
      * apply Z.ltb_lt in Hp.
        split; [apply elem_of_app; right; left|].
        intros o [Ho| ->%list_elem_of_singleton]%elem_of_app.
        -- destruct (Float64_facts.eq_alike _ _ (bo_Rate o) Heq) as [-> ->].
           destruct (Hmax o Ho) as [H1 H2]. split; [done|]. intros H. specialize (H2 H). lia.
        -- split; [apply Float64_facts.gt_irrefl|lia].
      * apply Z.ltb_ge in Hp.
        split; [by apply elem_of_app; left|].
        intros o [Ho| ->%list_elem_of_singleton]%elem_of_app.
        -- by apply Hmax.
        -- split; [done|]. intros _. lia.
    + split; [by apply elem_of_app; left|].
      intros o [Ho| ->%list_elem_of_singleton]%elem_of_app.
      * by apply Hmax.
      * split; [done|]. congruence.
Qed.

Lemma highest_loop_leads (first : BitfinexOffer) (rest : list BitfinexOffer) :
  leads (fold_left highest_step rest first) (first :: rest).
Proof.
  induction rest as [|x rest IH] using rev_ind.
  - simpl. split; [left|]. intros o ->%list_elem_of_singleton.
    split; [apply Float64_facts.gt_irrefl|lia].
  - rewrite fold_left_app. simpl.
    change (first :: rest ++ [x]) with ((first :: rest) ++ [x]).
    by apply highest_step_leads.
Qed.

End SelectorFacts.

Section SelectorTheorems.

Variable ParseFloat : string → option float64.
Variable ParseInt : string → option Z.

(** The lenient decoders keep the order of the rows: the
    rate-statistics decoder returns, without an error, exactly the records
    of the rows that have 12 fields and whose six required fields coerce,
    in the order of the rows; the book loop does the same for rows of 4
    fields whose four fields coerce, keeping of them the entries with an
    amount that is not [>= 0]; a row is without record exactly when it is
    short or one required field fails coercion. The row
    [[101, 2, 0.00015, -500.0]] decodes to the offer with these fields, and
    a row of length 3 beside it is dropped. *)
Theorem lenient_decode :
  (∀ data,
     parseFundingStats ParseFloat data =
     match unmarshal_rows data with
     | None => Err "error parsing JSON"
     | Some rawStats => Ok (omap (stat_of_row ParseFloat) rawStats)
     end) ∧
  (∀ raw,
     stat_of_row ParseFloat raw = None ↔
     (length raw < 12)%nat ∨
     ∃ i, i ∈ stat_fields ∧ (util.SafeFloat64 ParseFloat (idx raw i)).2 = false) ∧
  (∀ rawOffers,
     fold_left (shortest_step ParseFloat ParseInt) rawOffers [] =
     filter (λ o, ge (bo_Amount o) zero = false)
            (omap (book_entry ParseFloat ParseInt) rawOffers)) ∧
  (∀ rawOffer,
     book_entry ParseFloat ParseInt rawOffer = None ↔
     (length rawOffer < 4)%nat ∨
     (util.ToInt ParseInt (idx rawOffer 0)).2 = false ∨
     (util.ToInt ParseInt (idx rawOffer 1)).2 = false ∨
     (util.ToFloat64 ParseFloat (idx rawOffer 2)).2 = false ∨
     (util.ToFloat64 ParseFloat (idx rawOffer 3)).2 = false) ∧
  (∀ before after,
     omap (stat_of_row ParseFloat) (before ++ after) =
     omap (stat_of_row ParseFloat) before ++ omap (stat_of_row ParseFloat) after) ∧
  (∀ before after,
     fold_left (shortest_step ParseFloat ParseInt) (before ++ after) [] =
     fold_left (shortest_step ParseFloat ParseInt) before [] ++
     fold_left (shortest_step ParseFloat ParseInt) after []) ∧
  fold_left (shortest_step ParseFloat ParseInt)
            [instances.short_row; instances.book_row_101] [] =
  [ {| OfferID := 101; bo_Period := 2;
       bo_Rate := instances.rate_0_00015;
       bo_Amount := S754_finite true 8796093022208000 (-44) |} ].
Proof.
  assert (Hloop : ∀ rawOffers,
     fold_left (shortest_step ParseFloat ParseInt) rawOffers [] =
     omap (kept ParseFloat ParseInt) rawOffers).
  { intros. by rewrite (fold_left_append _ _ (shortest_step_row ParseFloat ParseInt)). }
  repeat split.
  - intros data. unfold parseFundingStats. destruct (unmarshal_rows data); [|done].
    by rewrite (fold_left_append _ _ (stats_step_row ParseFloat)).
  - apply stat_of_row_none.
  - apply stat_of_row_none.
  - intros. rewrite Hloop. apply omap_kept.
  - apply book_entry_none.
  - apply book_entry_none.
  - intros. apply omap_app.
  - intros. rewrite !Hloop. apply omap_app.
Qed.

(** C2. Highest-rate-meeting-minimum-period. On a decoded book without NaN
    amounts, either no entry is eligible (amount [< 0], period at least the
    minimum) and the selection fails with "no valid lending offers found",
    or it returns an eligible entry, with its amount as a magnitude, whose
    period is at least the minimum, whose rate no eligible entry exceeds,
    and whose period is the shortest among the eligible entries of that
    rate. *)
Theorem highest_rate_meets_minimum (data : body) (rawOffers : list (list value))
    (minPeriod : Z) :
  unmarshal_rows data = Some rawOffers →
  Forall (λ o, is_nan (bo_Amount o) = false)
         (omap (book_entry ParseFloat ParseInt) rawOffers) →
  match FindHighestLendingRate ParseFloat ParseInt data minPeriod with
  | Err e =>
      candidates ParseFloat ParseInt minPeriod rawOffers = [] ∧
      e = "no valid lending offers found"
  | Ok best =>
      (∃ o, o ∈ candidates ParseFloat ParseInt minPeriod rawOffers ∧
            best = magnitude o ∧ bo_Amount best = abs (bo_Amount o)) ∧
      minPeriod ≤ bo_Period best ∧
      (∀ o, o ∈ candidates ParseFloat ParseInt minPeriod rawOffers →
            gt (bo_Rate o) (bo_Rate best) = false) ∧
      (∀ o, o ∈ candidates ParseFloat ParseInt minPeriod rawOffers →
            eq (bo_Rate o) (bo_Rate best) = true → bo_Period best ≤ bo_Period o)
  end.
Proof.
  intros Hdata Hnan. unfold FindHighestLendingRate. rewrite Hdata.
  rewrite (fold_left_append _ _ (lending_step_row ParseFloat ParseInt minPeriod)).
  rewrite app_nil_l, lending_kept_candidates by (by apply Forall_forall).
  set (E := candidates ParseFloat ParseInt minPeriod rawOffers).
  destruct E as [|o0 E'] eqn:HE; [done|].
  change (magnitude <$> o0 :: E') with (magnitude o0 :: (magnitude <$> E')).
  destruct (highest_loop_leads (magnitude o0) (magnitude <$> E')) as [Hin Hmax].
  set (best := fold_left highest_step (magnitude <$> E') (magnitude o0)) in *.
  change (magnitude o0 :: (magnitude <$> E')) with (magnitude <$> o0 :: E') in *.
  apply list_elem_of_fmap in Hin as (o & Hbest & Ho).
  assert (Hel : eligible minPeriod o = true).
  { assert (Ho' : o ∈ E) by (by rewrite HE).
    unfold E, candidates in Ho'. by apply list_elem_of_filter in Ho' as [? _]. }
  repeat split.
  - exists o. by rewrite Hbest.
  - rewrite Hbest. simpl. unfold eligible in Hel.
    apply andb_prop in Hel as [_ Hel]. by apply Z.leb_le.
  - intros o' Ho'.
    apply (Hmax (magnitude o')), list_elem_of_fmap. by exists o'.
  - intros o' Ho'.
    apply (Hmax (magnitude o')), list_elem_of_fmap. by exists o'.
Qed.

(** C1, at the input [[101, 2, -2.0, -500.0]]: the only offer is eligible
    and has period 2, and the selection returns the zero offer, of period
    0, without an error. *)
Theorem shortest_period_low_rate
    (sort_Slice : (BitfinexOffer → BitfinexOffer → bool) →
                  list BitfinexOffer → list BitfinexOffer) :
  (∀ less l, Permutation l (sort_Slice less l)) →
  FindHighestRateForShortestPeriod ParseFloat ParseInt sort_Slice instances.low_rate_book
  = Ok zero_offer.
Proof.
  intros Hperm. unfold FindHighestRateForShortestPeriod.
  change (unmarshal_rows instances.low_rate_book)
    with (Some [[instances.num 101; instances.num 2; instances.num (-2);
                 instances.num (-500)]]).
  cbv iota beta.
  set (o := {| OfferID := 101; bo_Period := 2; bo_Rate := of_int (-2);
               bo_Amount := of_int (-500) |}).
  assert (Hdec : fold_left (shortest_step ParseFloat ParseInt)
                   [[instances.num 101; instances.num 2; instances.num (-2);
                     instances.num (-500)]] [] = [o]) by reflexivity.
  rewrite Hdec. cbv zeta.
  rewrite (Permutation_length_1_inv (Hperm (λ i j, bo_Period i <? bo_Period j) [o])).
  reflexivity.
Qed.

End SelectorTheorems.

Lemma insertionSort_permutation {A} (less : A → A → bool) (l : list A) :
  Permutation l (insertionSort less l).
Proof.
  unfold insertionSort.
  assert (Hins : ∀ x sorted, Permutation (x :: sorted) (insert_left less x sorted)).
  { intros x sorted. induction sorted as [|y sorted IH]; simpl; [done|].
    destruct (less x y); [|done]. rewrite <- IH. apply perm_swap. }
  assert (Hfold : ∀ l sorted,
    Permutation (rev sorted ++ l)
                (rev (fold_left (λ sorted x, insert_left less x sorted) l sorted))).
  { clear l. intros l. induction l as [|x l IH]; intros sorted; simpl.
    - by rewrite app_nil_r.
    - rewrite <- IH, <- Hins. simpl. by rewrite <- app_assoc. }
  apply (Hfold l []).
Qed.

Lemma highest_rate_meets_minimum_witness :
  let PF := instances.ParseFloat in
  let PI := instances.ParseInt in
  let data := Some (VSlice (VSlice <$> instances.sample_book)) in
  match FindHighestLendingRate PF PI data 2 with
  | Err e =>
      candidates PF PI 2 instances.sample_book = [] ∧
      e = "no valid lending offers found"
  | Ok best =>
      (∃ o, o ∈ candidates PF PI 2 instances.sample_book ∧
            best = magnitude o ∧ bo_Amount best = abs (bo_Amount o)) ∧
      2 ≤ bo_Period best ∧
      (∀ o, o ∈ candidates PF PI 2 instances.sample_book →
            gt (bo_Rate o) (bo_Rate best) = false) ∧
      (∀ o, o ∈ candidates PF PI 2 instances.sample_book →
            eq (bo_Rate o) (bo_Rate best) = true → bo_Period best ≤ bo_Period o)
  end.
Proof.
  intros PF PI data.
  apply (highest_rate_meets_minimum PF PI data instances.sample_book 2).
  - reflexivity.
  - repeat constructor.
Defined.

Example sample_book_selection :
  FindHighestLendingRate instances.ParseFloat instances.ParseInt
    (Some (VSlice (VSlice <$> instances.sample_book))) 2
  = Ok {| OfferID := 3; bo_Period := 5; bo_Rate := of_int 3; bo_Amount := of_int 40 |}.
Proof. reflexivity. Qed.

Lemma shortest_period_low_rate_witness :
  FindHighestRateForShortestPeriod instances.ParseFloat instances.ParseInt
    (@insertionSort _) instances.low_rate_book = Ok zero_offer.
Proof.
  apply shortest_period_low_rate. intros. apply insertionSort_permutation.
Defined.

Section ShortestPeriod.

Variable ParseFloat : string → option float64.
Variable ParseInt : string → option Z.
Variable sort_Slice :
  (BitfinexOffer → BitfinexOffer → bool) → list BitfinexOffer → list BitfinexOffer.

(** [sort.Slice] permutes the slice, and leaves it in ascending order of
    the periods when called as in the selection. *)
Hypothesis sort_permutes : ∀ less l, Permutation l (sort_Slice less l).
Hypothesis sort_ascending :
  ∀ l, StronglySorted (λ a b, bo_Period a ≤ bo_Period b)
         (sort_Slice (λ i j, bo_Period i <? bo_Period j) l).

(** The state of the selection loop over the offers seen: no offer of the
    shortest period seen exceeds [highestRate], which is still the
    sentinel, or the rate of [bestOffer], an offer of the shortest period
    that was seen. *)
Lemma best_loop (shortestPeriod : Z) (offers : list BitfinexOffer) :
  let '(highestRate, bestOffer) :=
    fold_left (best_step shortestPeriod) offers (minus_one, zero_offer) in
  (∀ o, o ∈ offers → bo_Period o = shortestPeriod →
        gt (bo_Rate o) highestRate = false) ∧
  ((highestRate = minus_one ∧ bestOffer = zero_offer) ∨
   (bestOffer ∈ offers ∧ bo_Period bestOffer = shortestPeriod ∧
    highestRate = bo_Rate bestOffer)).
Proof.
  induction offers as [|x offers IH] using rev_ind; simpl.
  - split; [by intros o ?%elem_of_nil|by left].
  - rewrite fold_left_app. simpl.
    destruct (fold_left (best_step shortestPeriod) offers (minus_one, zero_offer))
      as [highestRate bestOffer].
    destruct IH as [Hmax Hbest]. unfold best_step.
    destruct (Z.eqb_spec (bo_Period x) shortestPeriod) as [Hp|Hp]; simpl.
    + destruct (gt (bo_Rate x) highestRate) eqn:Hgt.
      * split.
        -- intros o [Ho| ->%list_elem_of_singleton]%elem_of_app Hpo.
           ++ by destruct (Float64_facts.gt_bound _ _ (bo_Rate o) Hgt (Hmax o Ho Hpo)).
           ++ apply Float64_facts.gt_irrefl.
        -- right. split_and!; [apply elem_of_app; right; left|done|done].
      * split.
        -- intros o [Ho| ->%list_elem_of_singleton]%elem_of_app Hpo; [by apply Hmax|done].
        -- destruct Hbest as [?|(? & ? & ?)]; [by left|right].
           split_and!; [by apply elem_of_app; left|done|done].
    + split.
      * intros o [Ho| ->%list_elem_of_singleton]%elem_of_app Hpo; [by apply Hmax|done].
      * destruct Hbest as [?|(? & ? & ?)]; [by left|right].
        split_and!; [by apply elem_of_app; left|done|done].
Qed.

(** Apart from the sentinel the selection is the one of the doc comment:
    where some kept offer of the shortest period has a rate above -1, the
    result is a kept offer of the shortest period whose rate no kept offer
    of that period exceeds. *)
Lemma shortest_period_highest_rate (data : body) (rawOffers : list (list value))
    (o1 : BitfinexOffer) :
  let offers := omap (kept ParseFloat ParseInt) rawOffers in
  unmarshal_rows data = Some rawOffers →
  o1 ∈ offers →
  (∀ o, o ∈ offers → bo_Period o1 ≤ bo_Period o) →
  gt (bo_Rate o1) minus_one = true →
  ∃ best,
    FindHighestRateForShortestPeriod ParseFloat ParseInt sort_Slice data = Ok best ∧
    best ∈ offers ∧
    (∀ o, o ∈ offers → bo_Period best ≤ bo_Period o) ∧
    (∀ o, o ∈ offers → bo_Period o = bo_Period best →
          gt (bo_Rate o) (bo_Rate best) = false).
Proof.
  intros offers Hdata Hin Hmin Hrate.
  unfold FindHighestRateForShortestPeriod. rewrite Hdata.
  rewrite (fold_left_append _ _ (shortest_step_row ParseFloat ParseInt)), app_nil_l.
  fold offers.
  destruct offers as [|o0 offers'] eqn:Hoffers; [by apply elem_of_nil in Hin|].
  change (length (o0 :: offers') =? 0)%nat with false. cbv iota zeta.
  rewrite <- Hoffers in *. clear o0 offers' Hoffers.
  set (sorted := sort_Slice _ offers).
  assert (Hperm : Permutation offers sorted) by apply sort_permutes.
  assert (Hsorted : StronglySorted (λ a b, bo_Period a ≤ bo_Period b) sorted)
    by apply sort_ascending.
  assert (Hshortest : bo_Period (default zero_offer (head sorted)) = bo_Period o1).
  { assert (Hin' : o1 ∈ sorted) by (by rewrite <- Hperm).
    destruct sorted as [|s0 sorted']; [by apply elem_of_nil in Hin'|]. simpl.
    apply Z.le_antisymm.
    - apply StronglySorted_inv in Hsorted as [_ Hall].
      apply elem_of_cons in Hin' as [->|Hin']; [done|].
      rewrite Forall_forall in Hall. by apply Hall.
    - apply Hmin. rewrite Hperm. left. }
  rewrite Hshortest.
  pose proof (best_loop (bo_Period o1) sorted) as Hloop.
  destruct (fold_left (best_step (bo_Period o1)) sorted (minus_one, zero_offer))
    as [highestRate bestOffer].
  destruct Hloop as [Hmax Hbest].
  destruct Hbest as [[-> ->]|(Hb & Hpb & ->)].
  - assert (Hin' : o1 ∈ sorted) by (by rewrite <- Hperm).
    specialize (Hmax o1 Hin' eq_refl). congruence.
  - exists bestOffer. split_and!; [done|by rewrite Hperm| |].
    + intros o Ho. rewrite Hpb. by apply Hmin.
    + intros o Ho Hpo. apply Hmax; [by rewrite <- Hperm|congruence].
Qed.

End ShortestPeriod.

(** Insertion sort, the path of [sort.Slice] on short slices, is such a
    sort. *)
Lemma insert_left_descending (x : BitfinexOffer) (sorted : list BitfinexOffer) :
  StronglySorted (λ a b, bo_Period b ≤ bo_Period a) sorted →
  StronglySorted (λ a b, bo_Period b ≤ bo_Period a)
    (insert_left (λ i j, bo_Period i <? bo_Period j) x sorted) ∧
  ∀ o, o ∈ insert_left (λ i j, bo_Period i <? bo_Period j) x sorted → o = x ∨ o ∈ sorted.
Proof.
  induction sorted as [|y before IH]; intros Hs; simpl.
  - split; [repeat constructor|]. intros o ->%list_elem_of_singleton. by left.
  - apply StronglySorted_inv in Hs as [Hbefore Hall].
    destruct (IH Hbefore) as [IHs IHin].
    destruct (Z.ltb_spec (bo_Period x) (bo_Period y)) as [Hlt|Hge].
    + split.
      * constructor; [done|]. apply Forall_forall. intros o Ho.
        destruct (IHin o Ho) as [->|Ho']; [lia|].
        rewrite Forall_forall in Hall. by apply Hall.
      * intros o [->|Ho]%elem_of_cons; [right; left|].
        destruct (IHin o Ho) as [->|Ho']; [by left|right; by right].
    + split.
      * constructor; [by constructor|]. constructor; [done|].
        apply Forall_forall. intros o Ho. rewrite Forall_forall in Hall.
        specialize (Hall o Ho). lia.
      * intros o [->|Ho]%elem_of_cons; [by left|by right].
Qed.

Lemma StronglySorted_rev (l : list BitfinexOffer) :
  StronglySorted (λ a b, bo_Period b ≤ bo_Period a) l →
  StronglySorted (λ a b, bo_Period a ≤ bo_Period b) (rev l).
Proof.
  induction l as [|x l IH]; intros Hs; simpl; [constructor|].
  apply StronglySorted_inv in Hs as [Hl Hall]. specialize (IH Hl).
  assert (Happ : ∀ l1 : list BitfinexOffer,
            StronglySorted (λ a b, bo_Period a ≤ bo_Period b) l1 →
            Forall (λ o, bo_Period o ≤ bo_Period x) l1 →
            StronglySorted (λ a b, bo_Period a ≤ bo_Period b) (l1 ++ [x])).
  { intros l1. induction l1 as [|y l1 IH1]; intros H1 H2; simpl; [repeat constructor|].
    apply StronglySorted_inv in H1 as [H1 H1all].
    apply Forall_cons in H2 as [Hy H2].
    constructor; [by apply IH1|].
    apply Forall_app. split; [done|]. by constructor. }
  apply Happ; [done|]. apply Forall_forall. intros o Ho.
  rewrite Forall_forall in Hall. apply Hall.
  apply list_elem_of_In. apply in_rev. by apply list_elem_of_In.
Qed.

Lemma insertionSort_ascending (l : list BitfinexOffer) :
  StronglySorted (λ a b, bo_Period a ≤ bo_Period b)
    (insertionSort (λ i j, bo_Period i <? bo_Period j) l).
Proof.
  unfold insertionSort. apply StronglySorted_rev.
  assert (H : ∀ sorted,
            StronglySorted (λ a b, bo_Period b ≤ bo_Period a) sorted →
            StronglySorted (λ a b, bo_Period b ≤ bo_Period a)
              (fold_left (λ sorted x,
                            insert_left (λ i j, bo_Period i <? bo_Period j) x sorted)
                         l sorted)).
  { induction l as [|x l IH]; intros sorted Hs; simpl; [done|].
    apply IH. by apply insert_left_descending. }
  apply H. constructor.
Qed.

(** The sample book under insertion sort: the offer of the shortest
    period. *)
Example sample_book_shortest :
  let offers := omap (kept instances.ParseFloat instances.ParseInt) instances.sample_book in
  ∃ best,
    FindHighestRateForShortestPeriod instances.ParseFloat instances.ParseInt
      (@insertionSort _) (Some (VSlice (VSlice <$> instances.sample_book))) = Ok best ∧
    best ∈ offers ∧
    (∀ o, o ∈ offers → bo_Period best ≤ bo_Period o) ∧
    (∀ o, o ∈ offers → bo_Period o = bo_Period best →
          gt (bo_Rate o) (bo_Rate best) = false).
Proof.
  apply (shortest_period_highest_rate instances.ParseFloat instances.ParseInt
           (@insertionSort _) (@insertionSort_permutation _) insertionSort_ascending
           (Some (VSlice (VSlice <$> instances.sample_book))) instances.sample_book
           {| OfferID := 4; bo_Period := 1; bo_Rate := of_int 9;
              bo_Amount := of_int (-70) |}).
  - reflexivity.
  - simpl. rewrite !elem_of_cons. auto 10.
  - intros o. simpl. rewrite !elem_of_cons, elem_of_nil.
    intros [->|[->|[->|[->|[]]]]]; simpl; vm_compute; discriminate.
  - reflexivity.
Qed.

(* ================================================================== *)
(** * Submission and cancellation *)
(* ================================================================== *)

(** C5, as amended. The check of a cancel answer reports success exactly
    when the response has fewer than 7 entries or holds the string
    "SUCCESS" at index 6; it reports a failure exactly when index 6 holds
    another string and index 7 holds a string, the venue's message, which
    the error carries. *)
Theorem cancel_outcome (response : list value) :
  (cancel_check response = Some None ↔
   (length response < 7)%nat ∨ response !! 6%nat = Some (VString "SUCCESS")) ∧
  (∀ e, cancel_check response = Some (Some e) ↔
        ∃ status message,
          response !! 6%nat = Some (VString status) ∧ status ≠ "SUCCESS" ∧
          response !! 7%nat = Some (VString message) ∧
          e = "failed to cancel funding offer: " +:+ message).
Proof.
  unfold cancel_check, idx.
  destruct (7 <=? length response)%nat eqn:Hlen.
  - apply Nat.leb_le in Hlen.
    destruct (response !! 6%nat) as [v6|] eqn:H6;
      [|apply lookup_ge_None in H6; lia].
    simpl. destruct v6 as [| | |status| | | | |]; simpl;
      try (split; [split; [done|intros [?|?]; [lia|done]]
                  |intros e; split; [done|intros (?&?&?&_); done]]).
    destruct (String.eqb_spec status "SUCCESS") as [->|Hne]; simpl.
    + split; [split; [by right|done]|].
      intros e; split; [done|]. intros (s & m & [= <-] & ? & _); done.
    + split.
      * split; [|intros [?|[= ?]]; [lia|done]].
        destruct (response !! 7%nat) as [[]|]; simpl; done.
      * intros e. destruct (response !! 7%nat) as [v7|] eqn:H7; simpl.
        -- destruct v7 as [| | |message| | | | |]; simpl;
             try (split; [done|intros (?&?&_&_&?&_); done]).
           split.
           ++ intros [= <-]. by exists status, message.
           ++ intros (s & m & _ & _ & [= <-] & ->). done.
        -- split; [done|intros (?&?&_&_&?&_); done].
  - apply Nat.leb_gt in Hlen. split; [split; [by left|done]|].
    intros e; split; [done|]. intros (s & m & H6 & _).
    apply lookup_lt_Some in H6. lia.
Qed.

(** C5 as the specification states it fails: the empty response has no
    "SUCCESS" at index 6, and the cancellation is reported successful. *)
Lemma cancel_succeeds_on_short_response :
  let response : list value := [] in
  ¬ ((CancelFundingOffer instances.scripted instances.scripted_transport
        (NewClient "key" "secret") 7
        (instances.world_of [Ok (Some (VSlice response))])).1 = Val None ↔
     response !! 6%nat = Some (VString "SUCCESS")).
Proof. intros response [H _]. specialize (H eq_refl). discriminate H. Qed.

Section ClientFacts.

Variable Venue : Type.
Variable transport : Venue → Client → Request → result body * Venue.

Abbreviation World := (World Venue).
Abbreviation SubmitFundingOffer := (SubmitFundingOffer Venue transport).
Abbreviation CancelFundingOffer := (CancelFundingOffer Venue transport).

(** The offer as it goes out: with the type defaulted. *)
Lemma default_type_limit (offer : FundingOfferRequest) :
  Type_ (default_type offer) = (if String.eqb (Type_ offer) "" then "LIMIT" else Type_ offer) ∧
  Symbol (default_type offer) = Symbol offer ∧
  Amount (default_type offer) = Amount offer ∧
  Rate (default_type offer) = Rate offer ∧
  Period (default_type offer) = Period offer ∧
  Flags (default_type offer) = Flags offer.
Proof. unfold default_type. by destruct (String.eqb (Type_ offer) ""). Qed.

Lemma validate_none (offer : FundingOfferRequest) :
  validate offer = None ↔
  Symbol offer ≠ "" ∧ Amount offer ≠ "" ∧ Rate offer ≠ "" ∧ 2 ≤ Period offer ≤ 120.
Proof.
  unfold validate.
  destruct (String.eqb_spec (Symbol offer) ""); [split; [done|tauto]|].
  destruct (String.eqb_spec (Amount offer) ""); [split; [done|tauto]|].
  destruct (String.eqb_spec (Rate offer) ""); [split; [done|tauto]|].
  destruct (Z.ltb_spec (Period offer) 2); simpl; [split; [done|lia]|].
  destruct (Z.ltb_spec 120 (Period offer)); simpl; [split; [done|lia]|].
  split; [intros _; repeat split; try done; lia|done].
Qed.

(** How a submission runs: refused by the validation with the world as it
    was, or sent once, with the type defaulted. *)
Lemma SubmitFundingOffer_run (c : Client) (offer : FundingOfferRequest) (w : World) :
  match validate offer with
  | Some e => SubmitFundingOffer c offer w = (Val (Err e), w)
  | None =>
      ∃ r v, SubmitFundingOffer c offer w =
             (r, {| venue := v;
                    trace := trace w ++ [EvSend (submit_request (default_type offer))] |}) ∧
             r ≠ Exit
  end.
Proof.
  unfold data.SubmitFundingOffer. destruct (validate offer) as [e|]; [done|].
  unfold bind, SendRequest.
  destruct (transport _ _ _) as [[respBody|err] v]; simpl.
  - destruct (submit_decode respBody) as [r|]; simpl; eexists _, v; split; done.
  - eexists _, v; split; done.
Qed.

(** C8. A request with an empty symbol, amount or rate, or a period outside
    [2, 120], is refused with an error and the world is as before, the
    trace included: nothing was sent. A request that passes goes out once,
    with the type "LIMIT" where it had none, and otherwise as given. *)
Theorem submit_validation (c : Client) (offer : FundingOfferRequest) (w : World) :
  (Symbol offer = "" ∨ Amount offer = "" ∨ Rate offer = "" ∨
   Period offer < 2 ∨ 120 < Period offer →
   ∃ e, SubmitFundingOffer c offer w = (Val (Err e), w)) ∧
  (Symbol offer ≠ "" ∧ Amount offer ≠ "" ∧ Rate offer ≠ "" ∧ 2 ≤ Period offer ≤ 120 →
   ∃ sent, trace (SubmitFundingOffer c offer w).2 = trace w ++ [EvSend (submit_request sent)] ∧
           Type_ sent = (if String.eqb (Type_ offer) "" then "LIMIT" else Type_ offer) ∧
           Symbol sent = Symbol offer ∧ Amount sent = Amount offer ∧
           Rate sent = Rate offer ∧ Period sent = Period offer ∧
           Flags sent = Flags offer).
Proof.
  pose proof (SubmitFundingOffer_run c offer w) as Hrun.
  pose proof (validate_none offer) as Hval.
  split.
  - intros Hbad. destruct (validate offer) as [e|]; [by exists e|].
    destruct Hval as [Hval _]. specialize (Hval eq_refl). intuition lia.
  - intros Hgood. apply Hval in Hgood. rewrite Hgood in Hrun.
    destruct Hrun as (r & v & -> & _). exists (default_type offer).
    split; [done|]. apply default_type_limit.
Qed.

End ClientFacts.

Lemma submit_validation_witness :
  let c := NewClient "key" "secret" in
  let w := instances.world_of [] in
  let offer (period : Z) (type : string) :=
    {| Type_ := type; Symbol := "fUSD"; Amount := "500.00"; Rate := "0.000150";
       Period := period; Flags := 0 |} in
  (∃ e, SubmitFundingOffer instances.scripted instances.scripted_transport c
          (offer 1 "LIMIT") w = (Val (Err e), w)) ∧
  (∃ e, SubmitFundingOffer instances.scripted instances.scripted_transport c
          (offer 121 "LIMIT") w = (Val (Err e), w)) ∧
  (∃ sent, trace (SubmitFundingOffer instances.scripted instances.scripted_transport c
                    (offer 2 "") w).2 = trace w ++ [EvSend (submit_request sent)] ∧
           Type_ sent = "LIMIT" ∧
           Symbol sent = "fUSD" ∧ Amount sent = "500.00" ∧
           Rate sent = "0.000150" ∧ Period sent = 2 ∧ Flags sent = 0).
Proof.
  intros c w offer. split; [|split].
  - apply (submit_validation instances.scripted instances.scripted_transport
             c (offer 1 "LIMIT") w). right; right; right; left. simpl. lia.
  - apply (submit_validation instances.scripted instances.scripted_transport
             c (offer 121 "LIMIT") w). right; right; right; right. simpl. lia.
  - apply (submit_validation instances.scripted instances.scripted_transport
             c (offer 2 "") w). simpl. repeat split; try discriminate; lia.
Defined.

(* ================================================================== *)
(** * The predictive leg: cancellation and replacement *)
(* ================================================================== *)

Section CancelFacts.

Variable Venue : Type.
Variable transport : Venue → Client → Request → result body * Venue.

Abbreviation World := (World Venue).
Abbreviation CancelFundingOffer := (CancelFundingOffer Venue transport).
Abbreviation cancel_each := (cancel_each Venue transport).
Abbreviation cancel_existing := (cancel_existing Venue transport).

(** A cancellation sends one request; it ends in a value or a panic, and
    in a value where the answers are typed. *)
Lemma CancelFundingOffer_run (c : Client) (id : Z) (w : World) :
  ∃ r v, CancelFundingOffer c id w =
         (r, {| venue := v; trace := trace w ++ [EvSend (cancel_request id)] |}) ∧
         r ≠ Exit ∧
         (cancel_answers_typed transport → r ≠ Panic).
Proof.
  unfold data.CancelFundingOffer, bind, SendRequest.
  destruct (transport (venue w) c _) as [[respBody|err] v] eqn:Ht; simpl.
  - destruct (unmarshal_slice respBody) as [response|] eqn:Hr; simpl.
    + destruct (cancel_check response) as [r|] eqn:Hc; simpl.
      * eexists _, v. by repeat split.
      * eexists _, v. repeat split; [done|]. intros Htyped.
        exfalso. eapply (Htyped (venue w) c id); [|done..].
        unfold cancel_request. by rewrite Ht.
    + eexists _, v. by repeat split.
  - eexists _, v. by repeat split.
Qed.

(** The loop attempts the orders in order, whatever the attempts yield,
    and stops early only in a panic. *)
Lemma cancel_each_run (c : Client) (orders : list CurrentPredictOrder) (w : World) :
  ∃ r w' evs, cancel_each c orders w = (r, w') ∧
              trace w' = trace w ++ evs ∧
              Forall cancel_event evs ∧
              r ≠ Exit ∧
              (r = Val tt → sends evs = cancel_request ∘ ID <$> orders) ∧
              (cancel_answers_typed transport → r = Val tt).
Proof.
  revert w. induction orders as [|o orders IH]; intros w.
  - exists (Val tt), w, []. simpl. rewrite app_nil_r. by split_and!.
  - simpl. unfold bind at 1.
    destruct (CancelFundingOffer_run c (ID o) w) as (r & v & -> & Hexit & Hpanic).
    set (w1 := {| venue := v; trace := trace w ++ [EvSend (cancel_request (ID o))] |}).
    assert (Hsend : cancel_event (EvSend (cancel_request (ID o)))) by (left; by eexists).
    destruct r as [err| |]; [|done|].
    + destruct err as [err|]; unfold bind, log_Printf, emit, ret; simpl.
      * match goal with |- context [cancel_each c orders ?w2] =>
          destruct (IH w2) as (r & w' & evs & -> & Htr & Hev & Hex & Hs & Hty) end.
        exists r, w', (EvSend (cancel_request (ID o))
                       :: EvLog "Failed to cancel order (ID: %d): %v" [VInt (ID o); VString err]
                       :: evs).
        split_and!; [done| | |done| |done].
        -- rewrite Htr. simpl. by rewrite <- !app_assoc.
        -- constructor; [done|]. constructor; [right; by eexists _, _|done].
        -- intros Hr. simpl. by rewrite Hs.
      * destruct (IH w1) as (r & w' & evs & -> & Htr & Hev & Hex & Hs & Hty).
        exists r, w', (EvSend (cancel_request (ID o)) :: evs).
        split_and!; [done| | |done| |done].
        -- rewrite Htr. simpl. by rewrite <- !app_assoc.
        -- by constructor.
        -- intros Hr. simpl. by rewrite Hs.
    + exists Panic, w1, [EvSend (cancel_request (ID o))].
      split_and!; [done|done|by constructor|done|done|].
      intros Hty. by specialize (Hpanic Hty).
Qed.

Lemma cancel_existing_run (c : Client) (st : OrderStatus) (w : World) :
  consistent st →
  ∃ r w' evs, cancel_existing c st w = (r, w') ∧
              trace w' = trace w ++ evs ∧
              Forall cancel_event evs ∧
              r ≠ Exit ∧
              (∀ st', r = Val st' →
                 st' = initial_status ∧
                 sends evs = cancel_request ∘ ID <$> currentPredictOrder st) ∧
              (cancel_answers_typed transport → r = Val initial_status).
Proof.
  intros Hcons. unfold strategy.cancel_existing.
  destruct st as [orders flag]. simpl in *. destruct flag.
  - unfold bind.
    destruct (cancel_each_run c orders w) as (r & w' & evs & -> & Htr & Hev & Hex & Hs & Hty).
    destruct r as [[]| |]; [|done|].
    + exists (Val initial_status), w', evs. split_and!; try done.
      intros st' [= <-]. split; [done|by apply Hs].
    + exists Panic, w', evs. split_and!; try done.
      intros H. by specialize (Hty H).
  - assert (orders = []) as ->.
    { destruct orders; [done|]. by destruct Hcons as [_ Hc]; specialize (Hc ltac:(done)). }
    exists (Val initial_status), w, []. unfold ret. simpl. rewrite app_nil_r.
    split_and!; try done. by intros st' [= <-].
Qed.

(** The cancellation block as it is meant: where the venue's cancel
    answers are typed and the order status is consistent, the cancellation
    of the tracked orders sends a cancel request for every tracked order,
    in order, whether or not earlier ones failed (beside the requests there
    are only the log lines of the failures), and ends with the tracked set
    empty and the flag unset. *)
Theorem cancel_all_then_clear (c : Client) (st : OrderStatus) (w : World) :
  cancel_answers_typed transport →
  consistent st →
  ∃ w' evs, cancel_existing c st w = (Val initial_status, w') ∧
            trace w' = trace w ++ evs ∧
            sends evs = cancel_request ∘ ID <$> currentPredictOrder st ∧
            Forall cancel_event evs.
Proof.
  intros Htyped Hcons.
  destruct (cancel_existing_run c st w Hcons)
    as (r & w' & evs & Hrun & Htr & Hev & _ & Hs & Hty).
  specialize (Hty Htyped). subst r.
  exists w', evs. split_and!; try done. by apply (Hs initial_status).
Qed.

End CancelFacts.

Lemma flaky_answers_typed : cancel_answers_typed instances.flaky_transport.
Proof.
  intros v c id respBody response Ht Hr.
  destruct v as [|[] v]; simpl in Ht; [done|..];
    injection Ht as <-; injection Hr as <-; done.
Qed.

Lemma cancel_all_then_clear_witness :
  let c := NewClient "key" "secret" in
  let st := {| currentPredictOrder := [instances.order 5; instances.order 6];
               currentOrderBool := true |} in
  let w : World instances.flaky := {| venue := [false; true]; trace := [] |} in
  ∃ w' evs, cancel_existing instances.flaky instances.flaky_transport c st w
            = (Val initial_status, w') ∧
            trace w' = trace w ++ evs ∧
            sends evs = cancel_request ∘ ID <$> currentPredictOrder st ∧
            Forall cancel_event evs.
Proof.
  intros c st w.
  apply (cancel_all_then_clear instances.flaky instances.flaky_transport c st w).
  - exact flaky_answers_typed.
  - split; done.
Defined.

Example one_cancel_fails_both_attempted :
  cancel_existing instances.flaky instances.flaky_transport (NewClient "key" "secret")
    {| currentPredictOrder := [instances.order 5; instances.order 6];
       currentOrderBool := true |}
    {| venue := [false; true]; trace := [] |}
  = (Val initial_status,
     {| venue := [];
        trace := [ EvSend (cancel_request 5);
                   EvLog "Failed to cancel order (ID: %d): %v"
                     [VInt 5; VString "failed to cancel funding offer: Offer not found"];
                   EvSend (cancel_request 6) ] |}).
Proof. reflexivity. Qed.

Section PredictiveFacts.

Variable ParseFloat : string → option float64.
Variable Sprintf_2f : float64 → string.
Variable Sprintf_6f : float64 → string.
Variable Venue : Type.
Variable transport : Venue → Client → Request → result body * Venue.

Abbreviation World := (World Venue).
Abbreviation GetFundingStat := (GetFundingStat ParseFloat Venue transport).
Abbreviation SubmitFundingOffer := (SubmitFundingOffer Venue transport).
Abbreviation predictive_leg :=
  (predictive_leg ParseFloat Sprintf_2f Sprintf_6f Venue transport).

Lemma sends_app (e1 e2 : list event) : sends (e1 ++ e2) = sends e1 ++ sends e2.
Proof. apply omap_app. Qed.

(** No submission among the events of the cancellation loop. *)
Lemma cancel_events_no_submit (evs : list event) (offer : FundingOfferRequest) :
  Forall cancel_event evs → submit_request offer ∉ sends evs.
Proof.
  intros Hev Hin. apply list_elem_of_omap in Hin as (e & He & Hsend).
  rewrite Forall_forall in Hev. destruct (Hev e He) as [(id & ->)|(id & err & ->)];
    simpl in Hsend; [|done]. by injection Hsend.
Qed.

(** Reading the statistics sends one request and ends in a value. *)
Lemma GetFundingStat_run (c : Client) (w : World) :
  ∃ stats v, GetFundingStat c "fUSD" w =
             (Val stats, {| venue := v; trace := trace w ++ [EvSend stats_request] |}).
Proof.
  unfold data.GetFundingStat, bind, SendRequest.
  change ("v2/funding/stats/" +:+ "fUSD" +:+ "/hist") with "v2/funding/stats/fUSD/hist".
  fold stats_request.
  destruct (transport (venue w) c stats_request) as [[respBody|err] v]; simpl.
  - destruct (parseFundingStats ParseFloat respBody); by eexists _, v.
  - by eexists _, v.
Qed.

(** The predictive block at a given order status. In a run of the
    predictive leg from a consistent order status in which a submission is
    sent: the requests of the leg are the read of the statistics, then a
    cancel request for every tracked order, then the submission, which is
    the last; the offer has the period 2; and the leg ends with the new
    order as the only tracked one where the submission returns an offer,
    and with no tracked order (and the failure logged) where it returns an
    error. The block is written to replace what is tracked, whatever the
    status it is given. *)
Theorem predictive_replaces_tracked (c : Client) (st : OrderStatus)
    (remainPredictUsdBalance availableUsdBalance : float64) (w : World)
    (evs : list event) (offer : FundingOfferRequest) :
  consistent st →
  trace (predictive_leg c st remainPredictUsdBalance availableUsdBalance w).2
    = trace w ++ evs →
  submit_request offer ∈ sends evs →
  Period offer = 2 ∧
  sends evs = stats_request :: (cancel_request ∘ ID <$> currentPredictOrder st)
                ++ [submit_request offer] ∧
  ∃ w1,
    match SubmitFundingOffer c offer w1 with
    | (Val (Ok res), w2) =>
        predictive_leg c st remainPredictUsdBalance availableUsdBalance w =
        (Val (Next {| currentPredictOrder := [tracked_of res];
                      currentOrderBool := true |}), w2)
    | (Val (Err err), w2) =>
        predictive_leg c st remainPredictUsdBalance availableUsdBalance w =
        (Val (Next initial_status),
         {| venue := venue w2;
            trace := trace w2 ++
              [EvLog "Failed to submit predictive lending order: %v" [VString err]] |})
    | (Panic, w2) =>
        predictive_leg c st remainPredictUsdBalance availableUsdBalance w = (Panic, w2)
    | (Exit, _) => False
    end.
Proof.
  intros Hcons Htrace Hin.
  assert (Hnil : ∀ w0 : World, trace w0 = trace w0 ++ evs → False).
  { intros w0 H. rewrite <- (app_nil_r (trace w0)) in H at 1.
    apply app_inv_head in H. subst evs. by apply elem_of_nil in Hin. }
  remember (predictive_leg c st remainPredictUsdBalance availableUsdBalance w)
    as run eqn:Hrun.
  unfold strategy.predictive_leg in Hrun.
  destruct (gt remainPredictUsdBalance c150); [|subst run; by destruct (Hnil w)].
  set (amount := clamp availableUsdBalance remainPredictUsdBalance) in *.
  destruct (gt amount c150); [|subst run; by destruct (Hnil w)].
  unfold bind at 1 in Hrun.
  destruct (GetFundingStat_run c w) as (stats & v & Hstats).
  rewrite Hstats in Hrun.
  set (w1 := {| venue := v; trace := trace w ++ [EvSend stats_request] |}) in *.
  destruct stats as [[|latestStat stats]|err].
  - (* no statistics *)
    subst run. simpl in Htrace. apply app_inv_head in Htrace. subst evs.
    apply list_elem_of_singleton in Hin. discriminate Hin.
  - unfold bind at 1 in Hrun.
    destruct (cancel_existing_run Venue transport c st w1 Hcons)
      as (r & w2 & evc & Hc & Htr2 & Hev & Hex & Hval & _).
    rewrite Hc in Hrun.
    pose proof (cancel_events_no_submit evc offer Hev) as Hno.
    destruct r as [st'| |]; [|done|].
    + destruct (Hval st' eq_refl) as [-> Hsends].
      set (predictRate := mul (FRR latestStat) c1_3) in *.
      set (offer0 := {| Type_ := "LIMIT"; Symbol := "fUSD";
                        Amount := Sprintf_2f amount; Rate := Sprintf_6f predictRate;
                        Period := 2; Flags := 0 |}) in *.
      unfold bind at 1 in Hrun.
      pose proof (SubmitFundingOffer_run Venue transport c offer0 w2) as Hsub.
      destruct (validate offer0) as [e|].
      * (* refused by the validation: nothing is sent *)
        rewrite Hsub in Hrun. subst run. simpl in Htrace.
        rewrite Htr2 in Htrace. simpl in Htrace.
        rewrite <- !app_assoc in Htrace. apply app_inv_head in Htrace. subst evs.
        simpl in Hin. rewrite sends_app in Hin. simpl in Hin. rewrite app_nil_r in Hin.
        apply elem_of_cons in Hin as [Hin|Hin]; [discriminate Hin|done].
      * destruct Hsub as (rs & v3 & Hsub & Hexit).
        change (default_type offer0) with offer0 in Hsub.
        set (w3 := {| venue := v3; trace := trace w2 ++ [EvSend (submit_request offer0)] |}) in *.
        assert (Hevs : ∀ tail,
                  sends tail = [] →
                  (trace w1 ++ evc) ++ [EvSend (submit_request offer0)] ++ tail
                  = trace w ++ evs →
                  offer = offer0 ∧
                  sends evs = stats_request :: (cancel_request ∘ ID <$> currentPredictOrder st)
                                ++ [submit_request offer]).
        { intros tail Htail H. unfold w1 in H. simpl in H.
          rewrite <- !app_assoc in H. apply app_inv_head in H. subst evs.
          simpl in Hin |- *. rewrite !sends_app in Hin |- *. simpl in Hin |- *.
          rewrite Htail in Hin |- *. rewrite Hsends.
          apply elem_of_cons in Hin as [Hin|Hin]; [discriminate Hin|].
          apply elem_of_app in Hin as [Hin|Hin]; [done|].
          simpl in Hin |- *.
          apply list_elem_of_singleton in Hin. injection Hin as ->. done. }
        rewrite Hsub in Hrun.
        destruct rs as [[res|err]| |]; [| |done|].
        -- subst run. simpl in Htrace. rewrite Htr2 in Htrace.
           destruct (Hevs []) as [-> Hs]; [done|done|].
           split_and!; [done|done|]. exists w2. rewrite Hsub. reflexivity.
        -- subst run. simpl in Htrace. rewrite Htr2 in Htrace.
           destruct (Hevs [EvLog "Failed to submit predictive lending order: %v" [VString err]])
             as [-> Hs]; [done|by rewrite <- Htrace, <- !app_assoc|].
           split_and!; [done|done|]. exists w2. rewrite Hsub. reflexivity.
        -- subst run. simpl in Htrace. rewrite Htr2 in Htrace.
           destruct (Hevs []) as [-> Hs]; [done|done|].
           split_and!; [done|done|]. exists w2. rewrite Hsub. reflexivity.
    + (* a cancellation panics: nothing is submitted *)
      subst run. simpl in Htrace. rewrite Htr2 in Htrace. simpl in Htrace.
      rewrite <- app_assoc in Htrace. apply app_inv_head in Htrace. subst evs.
      simpl in Hin. apply elem_of_cons in Hin as [Hin|Hin]; [discriminate Hin|done].
  - (* the statistics cannot be read *)
    subst run. simpl in Htrace. rewrite <- app_assoc in Htrace.
    apply app_inv_head in Htrace. subst evs.
    simpl in Hin. apply list_elem_of_singleton in Hin. discriminate Hin.
Qed.

End PredictiveFacts.

Lemma predictive_replaces_tracked_witness :
  let c := NewClient "key" "secret" in
  let st := {| currentPredictOrder := [instances.order 5]; currentOrderBool := true |} in
  let w := instances.world_of
             [instances.stats_answer; Ok instances.cancel_refused;
              instances.submit_accepted 8] in
  let offer := {| Type_ := "LIMIT"; Symbol := "fUSD"; Amount := "500.00";
                  Rate := "0.000195"; Period := 2; Flags := 0 |} in
  let leg := predictive_leg instances.ParseFloat (instances.Sprintf_fixed 2)
               (instances.Sprintf_fixed 6) instances.scripted
               instances.scripted_transport c st (of_int 500) (of_int 500) in
  Period offer = 2 ∧
  sends [EvSend stats_request; EvSend (cancel_request 5);
         EvLog "Failed to cancel order (ID: %d): %v"
           [VInt 5; VString "failed to cancel funding offer: Offer not found"];
         EvSend (submit_request offer)]
  = stats_request :: (cancel_request ∘ ID <$> currentPredictOrder st)
      ++ [submit_request offer] ∧
  ∃ w1,
    match SubmitFundingOffer instances.scripted instances.scripted_transport c offer w1 with
    | (Val (Ok res), w2) =>
        leg w = (Val (Next {| currentPredictOrder := [tracked_of res];
                              currentOrderBool := true |}), w2)
    | (Val (Err err), w2) =>
        leg w = (Val (Next initial_status),
                 {| venue := venue w2;
                    trace := trace w2 ++
                      [EvLog "Failed to submit predictive lending order: %v" [VString err]] |})
    | (Panic, w2) => leg w = (Panic, w2)
    | (Exit, _) => False
    end.
Proof.
  intros c st w offer leg.
  apply (predictive_replaces_tracked instances.ParseFloat (instances.Sprintf_fixed 2)
           (instances.Sprintf_fixed 6) instances.scripted instances.scripted_transport
           c st (of_int 500) (of_int 500) w).
  - split; done.
  - reflexivity.
  - simpl. rewrite !elem_of_cons. auto.
Defined.

(* ================================================================== *)
(** * The cycle *)
(* ================================================================== *)

Section CycleFacts.

Variable ParseFloat : string → option float64.
Variable ParseInt : string → option Z.
Variable sort_Slice :
  (BitfinexOffer → BitfinexOffer → bool) → list BitfinexOffer → list BitfinexOffer.
Variable Sprintf_2f : float64 → string.
Variable Sprintf_6f : float64 → string.
Variable Venue : Type.
Variable transport : Venue → Client → Request → result body * Venue.

Abbreviation World := (World Venue).
Abbreviation M := (M Venue).
Abbreviation GetTotalWalletBalance := (GetTotalWalletBalance Venue transport).
Abbreviation GetWallets := (GetWallets Venue transport).
Abbreviation GetRawBookHighest := (GetRawBookHighest Venue transport).
Abbreviation SubmitFundingOffer := (SubmitFundingOffer Venue transport).
Abbreviation FindHighestRateForShortestPeriod :=
  (FindHighestRateForShortestPeriod ParseFloat ParseInt sort_Slice).
Abbreviation fixed_leg :=
  (fixed_leg ParseFloat ParseInt sort_Slice Sprintf_2f Sprintf_6f Venue transport).
Abbreviation predictive_leg :=
  (predictive_leg ParseFloat Sprintf_2f Sprintf_6f Venue transport).
Abbreviation cycle :=
  (cycle ParseFloat ParseInt sort_Slice Sprintf_2f Sprintf_6f Venue transport).
Abbreviation StrategyManager :=
  (StrategyManager ParseFloat ParseInt sort_Slice Sprintf_2f Sprintf_6f Venue transport).
Abbreviation run :=
  (run ParseFloat ParseInt sort_Slice Sprintf_2f Sprintf_6f Venue transport).

(** The world once the environment is loaded. *)
Abbreviation loaded w :=
  ({| venue := venue w; trace := trace w ++ [EvLoadEnv] |} : World).

(** With the environment configured, the cycle goes on to the balances. *)
Ltac begin_cycle Hconf :=
  unfold strategy.cycle;
  unfold bind at 1; unfold emit at 1; cbv beta iota;
  let Hd := fresh in let Hk := fresh in let Hs := fresh in
  destruct Hconf as (Hd & Hk & Hs);
  apply String.eqb_neq in Hk; apply String.eqb_neq in Hs;
  rewrite Hd, Hk, Hs;
  change (negb true) with false; change (false || false) with false;
  cbv beta iota.

(** The fixed leg where an offer is submitted: whatever the submission
    returns, the available balance is handed on less the amount. *)
Lemma fixed_leg_submitted (c : Client) (remainFixUsdBalance availableUsdBalance : float64)
    (w w1 w2 : World) (highest : body) (bestOffer : BitfinexOffer)
    (r : result FundingOffer) :
  let amount := clamp availableUsdBalance remainFixUsdBalance in
  gt remainFixUsdBalance c150 = true →
  gt amount c150 = true →
  GetRawBookHighest c w = (Val (Ok highest), w1) →
  FindHighestRateForShortestPeriod highest = Ok bestOffer →
  SubmitFundingOffer c
    {| Type_ := "LIMIT"; Symbol := "fUSD"; Amount := Sprintf_2f amount;
       Rate := Sprintf_6f (bo_Rate bestOffer); Period := bo_Period bestOffer;
       Flags := 0 |} w1 = (Val r, w2) →
  fixed_leg c remainFixUsdBalance availableUsdBalance w =
  (Val (Next (sub availableUsdBalance amount)),
   match r with
   | Ok _ => w2
   | Err err =>
       {| venue := venue w2;
          trace := trace w2 ++
            [EvLog "Failed to submit fixed lending order: %v" [VString err]] |}
   end).
Proof.
  intros amount Hgt Hamt Hbook Hbest Hsub. unfold strategy.fixed_leg.
  rewrite Hgt. fold amount. rewrite Hamt.
  unfold bind at 1. rewrite Hbook, Hbest.
  unfold bind at 1. unfold bind at 1. rewrite Hsub.
  by destruct r.
Qed.

(** C10. In a cycle whose fixed amount, clamped to the available balance,
    exceeds 150, with the book read and an offer selected: where the
    submission of the fixed offer fails, the failure is logged, the fixed
    leg still hands on the available balance less the amount, and the
    cycle goes on with the predictive leg on that reduced balance, which
    is what its clamp compares with. *)
Theorem failed_fixed_submission_reduces_available
    (st : OrderStatus) (env : Environment) (w w1 w2 w3 w4 : World)
    (usdBalance ustBalance availableUsdBalance : float64)
    (wallets : gmap string float64) (highest : body) (bestOffer : BitfinexOffer)
    (err : error) :
  let client := NewClient (BITFINEX_API_KEY env) (BITFINEX_API_SECRET env) in
  let alreadyLentAmount := sub usdBalance availableUsdBalance in
  let remainFixUsdBalance := sub (mul usdBalance half) (mul alreadyLentAmount half) in
  let remainPredictUsdBalance := sub (mul usdBalance half) (mul alreadyLentAmount half) in
  let amount := clamp availableUsdBalance remainFixUsdBalance in
  configured env →
  GetTotalWalletBalance client (loaded w) = (Val (Ok (usdBalance, ustBalance)), w1) →
  GetWallets client w1 = (Val (Ok wallets), w2) →
  wallets !! "USD" = Some availableUsdBalance →
  gt remainFixUsdBalance c150 = true →
  gt amount c150 = true →
  GetRawBookHighest client w2 = (Val (Ok highest), w3) →
  FindHighestRateForShortestPeriod highest = Ok bestOffer →
  SubmitFundingOffer client
    {| Type_ := "LIMIT"; Symbol := "fUSD"; Amount := Sprintf_2f amount;
       Rate := Sprintf_6f (bo_Rate bestOffer); Period := bo_Period bestOffer;
       Flags := 0 |} w3 = (Val (Err err), w4) →
  let w5 : World :=
    {| venue := venue w4;
       trace := trace w4 ++
         [EvLog "Failed to submit fixed lending order: %v" [VString err]] |} in
  fixed_leg client remainFixUsdBalance availableUsdBalance w2
    = (Val (Next (sub availableUsdBalance amount)), w5) ∧
  cycle st env w =
    (predictive <- predictive_leg client st remainPredictUsdBalance
                     (sub availableUsdBalance amount) ;;
     match predictive with
     | Return_ => ret Return_
     | Next st => time_Sleep 300 ;;; ret (Next st)
     end) w5.
Proof.
  intros client alreadyLentAmount remainFixUsdBalance remainPredictUsdBalance amount
    Hconf Htotal Hwallets Husd Hgt Hamt Hbook Hbest Hsub w5.
  pose proof (fixed_leg_submitted client remainFixUsdBalance availableUsdBalance
                w2 w3 w4 highest bestOffer (Err err) Hgt Hamt Hbook Hbest Hsub) as Hleg.
  split; [exact Hleg|].
  begin_cycle Hconf.
  unfold bind at 1. fold client. rewrite Htotal.
  unfold bind at 1. rewrite Hwallets, Husd.
  cbv zeta. simpl Fix. simpl Predict.
  fold alreadyLentAmount. fold remainFixUsdBalance.
  unfold bind at 1. rewrite Hleg. reflexivity.
Qed.

(** C4, as amended. Where the environment is configured and both reads of
    the balances succeed, but the wallet snapshot has no USD funding
    wallet, the cycle returns at once: [StrategyManager] ends normally, the
    process is not terminated, and the trace has the two balance reads
    only: no offer is submitted or cancelled and there is no sleep. *)
Theorem missing_usd_wallet_returns
    (st : OrderStatus) (env : Environment) (w w1 w2 : World)
    (usdBalance ustBalance : float64) (wallets : gmap string float64) :
  let client := NewClient (BITFINEX_API_KEY env) (BITFINEX_API_SECRET env) in
  configured env →
  GetTotalWalletBalance client (loaded w) = (Val (Ok (usdBalance, ustBalance)), w1) →
  GetWallets client w1 = (Val (Ok wallets), w2) →
  wallets !! "USD" = None →
  cycle st env w = (Val Return_, w2) ∧
  StrategyManager env w = (Val tt, w2) ∧
  trace w2 = trace w ++ [EvLoadEnv; EvSend wallets_request; EvSend wallets_request].
Proof.
  intros client Hconf Htotal Hwallets Husd.
  assert (Hcycle : ∀ st, cycle st env w = (Val Return_, w2)).
  { intros st0. begin_cycle Hconf.
    unfold bind at 1. fold client. rewrite Htotal.
    unfold bind at 1. rewrite Hwallets, Husd. reflexivity. }
  split_and!; [done| |].
  - unfold strategy.StrategyManager, bind. by rewrite Hcycle.
  - clear Hcycle. unfold data.GetTotalWalletBalance, bind, SendRequest in Htotal.
    unfold data.GetWallets, bind, SendRequest in Hwallets.
    fold wallets_request in Htotal, Hwallets. simpl in Htotal.
    destruct (transport (venue w) client wallets_request) as [[b1|e1] v1]; simpl in Htotal;
      [|by injection Htotal].
    destruct (unmarshal_rows b1) as [rows1|]; simpl in Htotal; [|by injection Htotal].
    assert (Hw1 : w1 = {| venue := v1;
                          trace := (trace w ++ [EvLoadEnv]) ++ [EvSend wallets_request] |}).
    { unfold or_panic, ret, panic in Htotal.
      destruct (foldl _ _ rows1); by injection Htotal. }
    subst w1. simpl in Hwallets.
    destruct (transport v1 client wallets_request) as [[b2|e2] v2]; simpl in Hwallets;
      [|by injection Hwallets].
    destruct (unmarshal_rows b2) as [rows2|]; simpl in Hwallets; [|by injection Hwallets].
    unfold or_panic, ret, panic in Hwallets.
    destruct (foldl _ _ rows2); [|by injection Hwallets].
    injection Hwallets as _ <-. simpl. by rewrite <- !app_assoc.
Qed.

End CycleFacts.

Section RunFacts.

Variable ParseFloat : string → option float64.
Variable ParseInt : string → option Z.
Variable sort_Slice :
  (BitfinexOffer → BitfinexOffer → bool) → list BitfinexOffer → list BitfinexOffer.
Variable Sprintf_2f : float64 → string.
Variable Sprintf_6f : float64 → string.
Variable Venue : Type.
Variable transport : Venue → Client → Request → result body * Venue.

Abbreviation World := (World Venue).
Abbreviation M := (M Venue).
Abbreviation cycle :=
  (cycle ParseFloat ParseInt sort_Slice Sprintf_2f Sprintf_6f Venue transport).
Abbreviation StrategyManager :=
  (StrategyManager ParseFloat ParseInt sort_Slice Sprintf_2f Sprintf_6f Venue transport).
Abbreviation run :=
  (run ParseFloat ParseInt sort_Slice Sprintf_2f Sprintf_6f Venue transport).

Lemma cycles_begun_app (e1 e2 : list event) :
  cycles_begun (e1 ++ e2) = (cycles_begun e1 + cycles_begun e2)%nat.
Proof. unfold cycles_begun. by rewrite omap_app, length_app. Qed.

Lemma quiet_ret {A} (a : A) : quiet (ret a : M A).
Proof. intros w. exists []. simpl. by rewrite app_nil_r. Qed.

Lemma quiet_panic {A} : quiet (panic : M A).
Proof. intros w. exists []. simpl. by rewrite app_nil_r. Qed.

Lemma quiet_or_panic {A} (o : option A) : quiet (or_panic o : M A).
Proof. destruct o; [apply quiet_ret|apply quiet_panic]. Qed.

Lemma quiet_bind {A B} (m : M A) (k : A → M B) :
  quiet m → (∀ a, quiet (k a)) → quiet (bind m k).
Proof.
  intros Hm Hk w. unfold bind.
  destruct (Hm w) as (e1 & Ht1 & Hc1 & Hx1).
  destruct (m w) as [[a| |] w1]; simpl in *; [|done|by exists e1].
  destruct (Hk a w1) as (e2 & Ht2 & Hc2 & Hx2).
  exists (e1 ++ e2). rewrite Ht2, Ht1, app_assoc, cycles_begun_app, Hc1, Hc2. done.
Qed.

Lemma quiet_SendRequest (c : Client) (method path : string) (b : payload) :
  quiet (SendRequest Venue transport c method path b).
Proof.
  intros w. unfold SendRequest. destruct (transport _ _ _) as [answer v].
  by eexists [_].
Qed.

Lemma quiet_log (format : string) (args : list value) :
  quiet (log_Printf format args : M unit).
Proof. intros w. by exists [EvLog format args]. Qed.

Lemma quiet_sleep (seconds : Z) : quiet (time_Sleep seconds : M unit).
Proof. intros w. by exists [EvSleep seconds]. Qed.

Create HintDb quiet.

#[local] Hint Resolve quiet_ret quiet_panic quiet_or_panic quiet_SendRequest quiet_log
  quiet_sleep : quiet.

(** Quietness by the structure of a computation. *)
Ltac quietly :=
  repeat first
    [ apply quiet_bind; [|intros ?]
    | solve [auto with quiet]
    | match goal with
      | |- quiet (match ?x with _ => _ end) => destruct x
      | |- quiet (if ?x then _ else _) => destruct x
      end ].

Lemma quiet_GetTotalWalletBalance (c : Client) :
  quiet (GetTotalWalletBalance Venue transport c).
Proof. unfold data.GetTotalWalletBalance. quietly. Qed.

Lemma quiet_GetWallets (c : Client) : quiet (GetWallets Venue transport c).
Proof. unfold data.GetWallets. quietly. Qed.

Lemma quiet_GetRawBookHighest (c : Client) :
  quiet (GetRawBookHighest Venue transport c).
Proof. unfold data.GetRawBookHighest. quietly. Qed.

Lemma quiet_GetFundingStat (c : Client) (symbol : string) :
  quiet (GetFundingStat ParseFloat Venue transport c symbol).
Proof. unfold data.GetFundingStat. quietly. Qed.

Lemma quiet_SubmitFundingOffer (c : Client) (offer : FundingOfferRequest) :
  quiet (SubmitFundingOffer Venue transport c offer).
Proof. unfold data.SubmitFundingOffer. quietly. Qed.

Lemma quiet_CancelFundingOffer (c : Client) (id : Z) :
  quiet (CancelFundingOffer Venue transport c id).
Proof. unfold data.CancelFundingOffer. quietly. Qed.

#[local] Hint Resolve quiet_GetTotalWalletBalance quiet_GetWallets quiet_GetRawBookHighest
  quiet_GetFundingStat quiet_SubmitFundingOffer quiet_CancelFundingOffer : quiet.

Lemma quiet_cancel_each (c : Client) (orders : list CurrentPredictOrder) :
  quiet (cancel_each Venue transport c orders).
Proof. induction orders as [|o orders IH]; simpl; quietly. Qed.

#[local] Hint Resolve quiet_cancel_each : quiet.

Lemma quiet_fixed_leg (c : Client) (remain available : float64) :
  quiet (fixed_leg ParseFloat ParseInt sort_Slice Sprintf_2f Sprintf_6f Venue transport
           c remain available).
Proof. unfold strategy.fixed_leg. quietly. Qed.

Lemma quiet_predictive_leg (c : Client) (st : OrderStatus) (remain available : float64) :
  quiet (predictive_leg ParseFloat Sprintf_2f Sprintf_6f Venue transport
           c st remain available).
Proof. unfold strategy.predictive_leg, strategy.cancel_existing. quietly. Qed.

(** How a cycle ends, by its trace: it begins by loading the environment
    and begins no second cycle; reaching the end of the function it has
    slept 300 seconds last; leaving the process it has logged one of the
    fatal messages last. *)
Lemma cycle_run (st : OrderStatus) (env : Environment) (w : World) :
  ∃ evs,
    trace (cycle st env w).2 = trace w ++ EvLoadEnv :: evs ∧
    cycles_begun evs = 0%nat ∧
    match (cycle st env w).1 with
    | Val (Next _) => ∃ evs', evs = evs' ++ [EvSleep 300]
    | Val Return_ => True
    | Exit => ∃ evs' format args,
                evs = evs' ++ [EvLog format args] ∧ format ∈ fatal_messages
    | Panic => True
    end.
Proof.
  set (G := λ r : res (flow OrderStatus) * World,
    ∃ evs,
      trace r.2 = trace w ++ EvLoadEnv :: evs ∧
      cycles_begun evs = 0%nat ∧
      match r.1 with
      | Val (Next _) => ∃ evs', evs = evs' ++ [EvSleep 300]
      | Val Return_ => True
      | Exit => ∃ evs' format args,
                  evs = evs' ++ [EvLog format args] ∧ format ∈ fatal_messages
      | Panic => True
      end).
  change (G (cycle st env w)).
  unfold strategy.cycle. unfold bind at 1, emit at 1. cbv beta iota.
  set (w0 := {| venue := venue w; trace := trace w ++ [EvLoadEnv] |}).
  assert (Hfatal : ∀ pre format args,
            format ∈ fatal_messages → cycles_begun pre = 0%nat →
            ∀ w1 : World, trace w1 = trace w0 ++ pre →
            G (log_Fatal format args w1)).
  { intros pre format args Hin Hpre w1 Hw1. exists (pre ++ [EvLog format args]).
    simpl. rewrite Hw1. simpl. rewrite <- !app_assoc. split_and!; [done| |by eexists _, _, _].
    by rewrite cycles_begun_app, Hpre. }
  assert (Hquiet : ∀ pre (w1 : World) r,
            cycles_begun pre = 0%nat → trace w1 = trace w0 ++ pre →
            r = Panic ∨ r = Val Return_ → G (r, w1)).
  { intros pre w1 r Hpre Hw1 Hr. exists pre. simpl. rewrite Hw1. simpl.
    rewrite <- app_assoc. split_and!; [done|done|]. by destruct Hr as [-> | ->]. }
  destruct (dotenv_loaded env);
    [change (negb true) with false|change (negb false) with true]; cbv beta iota;
    [|apply (Hfatal []); [repeat constructor|done|by rewrite app_nil_r]].
  destruct (String.eqb (BITFINEX_API_KEY env) "" || String.eqb (BITFINEX_API_SECRET env) "");
    cbv beta iota;
    [apply (Hfatal []); [repeat constructor|done|by rewrite app_nil_r]|].
  set (client := NewClient _ _).
  unfold bind at 1.
  destruct (quiet_GetTotalWalletBalance client w0) as (e1 & Ht1 & Hc1 & Hx1).
  destruct (GetTotalWalletBalance Venue transport client w0) as [[total| |] w1];
    simpl in Ht1, Hx1; cbv beta iota; [|done|by apply (Hquiet e1); auto].
  destruct total as [[usdBalance ustBalance]|err];
    [|apply (Hfatal e1); [repeat constructor|done|done]].
  unfold bind at 1.
  destruct (quiet_GetWallets client w1) as (e2 & Ht2 & Hc2 & Hx2).
  assert (Hc12 : cycles_begun (e1 ++ e2) = 0%nat)
    by (by rewrite cycles_begun_app, Hc1, Hc2).
  destruct (GetWallets Venue transport client w1) as [[wallets| |] w2];
    simpl in Ht2, Hx2; cbv beta iota; [|done|]; rewrite Ht1, <- app_assoc in Ht2;
    [|by apply (Hquiet (e1 ++ e2)); auto].
  destruct wallets as [wallets|err]; [|by apply (Hfatal (e1 ++ e2)); [repeat constructor|..]].
  destruct (wallets !! "USD") as [availableUsdBalance|];
    [|by apply (Hquiet (e1 ++ e2)); auto].
  cbv zeta. unfold bind at 1.
  match goal with |- context [strategy.fixed_leg _ _ _ _ _ _ _ ?c ?r ?a w2] =>
    destruct (quiet_fixed_leg c r a w2) as (e3 & Ht3 & Hc3 & Hx3);
    destruct (strategy.fixed_leg ParseFloat ParseInt sort_Slice Sprintf_2f Sprintf_6f
                Venue transport c r a w2) as [[fixed| |] w3]
  end; simpl in Ht3, Hx3; cbv beta iota; [|done|]; rewrite Ht2, <- app_assoc in Ht3.
  all: assert (Hc123 : cycles_begun ((e1 ++ e2) ++ e3) = 0%nat)
         by (by rewrite cycles_begun_app, Hc12, Hc3).
  2: by apply (Hquiet ((e1 ++ e2) ++ e3)); auto.
  destruct fixed as [available'|]; [|by apply (Hquiet ((e1 ++ e2) ++ e3)); auto].
  unfold bind at 1.
  match goal with |- context [strategy.predictive_leg _ _ _ _ _ ?c ?s ?r ?a w3] =>
    destruct (quiet_predictive_leg c s r a w3) as (e4 & Ht4 & Hc4 & Hx4);
    destruct (strategy.predictive_leg ParseFloat Sprintf_2f Sprintf_6f
                Venue transport c s r a w3) as [[predictive| |] w4]
  end; simpl in Ht4, Hx4; cbv beta iota; [|done|]; rewrite Ht3, <- app_assoc in Ht4.
  all: assert (Hc1234 : cycles_begun (((e1 ++ e2) ++ e3) ++ e4) = 0%nat)
         by (by rewrite cycles_begun_app, Hc123, Hc4).
  2: by apply (Hquiet (((e1 ++ e2) ++ e3) ++ e4)); auto.
  destruct predictive as [st'|]; [|by apply (Hquiet (((e1 ++ e2) ++ e3) ++ e4)); auto].
  exists ((((e1 ++ e2) ++ e3) ++ e4) ++ [EvSleep 300]). simpl.
  rewrite Ht4. simpl. rewrite <- !app_assoc.
  split_and!; [done| |].
  - rewrite !app_assoc. rewrite cycles_begun_app, Hc1234. done.
  - exists (((e1 ++ e2) ++ e3) ++ e4). by rewrite <- !app_assoc.
Qed.

Lemma extends_quiet {A} (m : M A) : quiet m → extends m.
Proof. intros Hm w. destruct (Hm w) as (evs & H & _). by exists evs. Qed.

Lemma extends_bind {A B} (m : M A) (k : A → M B) :
  extends m → (∀ a, extends (k a)) → extends (bind m k).
Proof.
  intros Hm Hk w. unfold bind. destruct (Hm w) as (e1 & Ht1).
  destruct (m w) as [[a| |] w1]; simpl in *; [|by exists e1..].
  destruct (Hk a w1) as (e2 & Ht2). exists (e1 ++ e2). by rewrite Ht2, Ht1, app_assoc.
Qed.

Lemma extends_log_Fatal {A} (format : string) (args : list value) :
  extends (log_Fatal format args : M A).
Proof. intros w. by exists [EvLog format args]. Qed.

#[local] Hint Resolve quiet_fixed_leg quiet_predictive_leg : quiet.

(** Extension of the trace by the structure of a computation. *)
Ltac extending :=
  repeat first
    [ apply extends_log_Fatal
    | apply extends_quiet; solve [auto with quiet]
    | apply extends_bind; [|intros ?]
    | match goal with
      | |- extends (match ?x with _ => _ end) => destruct x
      | |- extends (if ?x then _ else _) => destruct x
      | |- extends (let _ := _ in _) => cbv zeta
      end ].

(** The read of the total balances sends the wallets request first. *)
Lemma GetTotalWalletBalance_begins (c : Client) (w : World) :
  ∃ evs, trace (GetTotalWalletBalance Venue transport c w).2
         = trace w ++ EvSend wallets_request :: evs.
Proof.
  unfold data.GetTotalWalletBalance, bind, SendRequest. fold wallets_request.
  destruct (transport (venue w) c wallets_request) as [[respBody|err] v]; [|by exists []].
  destruct (unmarshal_rows respBody) as [wallets|]; [|by exists []].
  destruct (foldl _ _ wallets); by exists [].
Qed.

(** With the environment configured the cycle begins with the read of the
    balances. *)
Lemma cycle_begins (st : OrderStatus) (env : Environment) (w : World) :
  configured env →
  ∃ evs, trace (cycle st env w).2
         = trace w ++ EvLoadEnv :: EvSend wallets_request :: evs.
Proof.
  intros (Hd & Hk%String.eqb_neq & Hs%String.eqb_neq).
  unfold strategy.cycle. unfold bind at 1, emit at 1. cbv beta iota.
  rewrite Hd, Hk, Hs.
  change (negb true) with false; change (false || false) with false; cbv beta iota.
  set (client := NewClient _ _).
  set (w0 := {| venue := venue w; trace := trace w ++ [EvLoadEnv] |}).
  unfold bind at 1.
  destruct (GetTotalWalletBalance_begins client w0) as (e1 & Ht1).
  match goal with
  | |- ∃ evs, trace (let (r, w') := _ in
                     match r with Val a => @?k a w' | Exit => _ | Panic => _ end).2 = _ =>
      assert (Hk' : ∀ a, extends (k a))
        by (intros [[usdBalance ustBalance]|err]; cbv beta iota; extending)
  end.
  destruct (GetTotalWalletBalance Venue transport client w0) as [[a| |] w1];
    simpl in Ht1; cbv beta iota.
  - destruct (Hk' a w1) as (e2 & Ht2). cbv beta in Ht2. exists (e1 ++ e2).
    rewrite Ht2, Ht1. unfold w0. simpl. by rewrite <- !app_assoc.
  - exists e1. simpl. rewrite Ht1. unfold w0. simpl. by rewrite <- !app_assoc.
  - exists e1. simpl. rewrite Ht1. unfold w0. simpl. by rewrite <- !app_assoc.
Qed.

(** The driver begins one cycle after the other until one leaves the
    process or panics. *)
Lemma run_cycles (cycles : nat) (env : Environment) (w : World) :
  match run cycles env w with
  | (Val _, w') => ∃ evs, trace w' = trace w ++ evs ∧ cycles_begun evs = cycles
  | (Exit, w') =>
      ∃ evs format args,
        trace w' = trace w ++ evs ++ [EvLog format args] ∧
        format ∈ fatal_messages ∧ (1 ≤ cycles_begun evs ≤ cycles)%nat
  | (Panic, _) => True
  end.
Proof.
  revert w. induction cycles as [|n IH]; intros w; simpl.
  - exists []. by rewrite app_nil_r.
  - unfold bind at 1. unfold strategy.StrategyManager at 1. unfold bind at 1.
    destruct (cycle_run initial_status env w) as (e1 & Ht1 & Hc1 & Hend).
    destruct (cycle initial_status env w) as [[f| |] w1]; simpl in Ht1, Hend; cbv beta iota.
    + unfold ret at 1. cbv beta iota. specialize (IH w1).
      destruct (run n env w1) as [[[]| |] w2]; [| |done].
      * destruct IH as (e2 & Ht2 & Hc2). exists ((EvLoadEnv :: e1) ++ e2).
        rewrite Ht2, Ht1, <- app_assoc. split; [done|].
        rewrite cycles_begun_app. change (cycles_begun (EvLoadEnv :: e1))
          with (S (cycles_begun e1)). lia.
      * destruct IH as (e2 & format & args & Ht2 & Hin & Hc2).
        exists ((EvLoadEnv :: e1) ++ e2), format, args.
        rewrite Ht2, Ht1, <- !app_assoc. split_and!; [done|done| |].
        -- rewrite cycles_begun_app. change (cycles_begun (EvLoadEnv :: e1))
             with (S (cycles_begun e1)). lia.
        -- rewrite cycles_begun_app. change (cycles_begun (EvLoadEnv :: e1))
             with (S (cycles_begun e1)). lia.
    + destruct Hend as (e1' & format & args & -> & Hin).
      exists (EvLoadEnv :: e1'), format, args. rewrite Ht1. split_and!; [done|done| |].
      * change (cycles_begun (EvLoadEnv :: e1')) with (S (cycles_begun e1')). lia.
      * rewrite cycles_begun_app in Hc1.
        change (cycles_begun (EvLoadEnv :: e1')) with (S (cycles_begun e1')). lia.
    + done.
Qed.

(** C3, as amended. A cycle that reaches the end of [StrategyManager] has
    slept 300 seconds as its last step; every cycle of a configured
    process begins with loading the environment and reading the balances;
    and the driver begins cycle after cycle: a run of a number of cycles
    either has begun as many cycles as asked, or has left the process
    through [log.Fatal] with one of its four messages logged last, or has
    panicked. There is no other end. *)
Theorem cycle_sleeps_then_repeats (st : OrderStatus) (env : Environment)
    (cycles : nat) (w : World) :
  (∀ st', (cycle st env w).1 = Val (Next st') →
          ∃ evs, trace (cycle st env w).2 = trace w ++ evs ++ [EvSleep 300]) ∧
  (configured env →
   ∃ evs, trace (cycle st env w).2
          = trace w ++ EvLoadEnv :: EvSend wallets_request :: evs) ∧
  match run cycles env w with
  | (Val _, w') => ∃ evs, trace w' = trace w ++ evs ∧ cycles_begun evs = cycles
  | (Exit, w') =>
      ∃ evs format args,
        trace w' = trace w ++ evs ++ [EvLog format args] ∧
        format ∈ fatal_messages ∧ (1 ≤ cycles_begun evs ≤ cycles)%nat
  | (Panic, _) => True
  end.
Proof.
  split_and!.
  - intros st' Hend. destruct (cycle_run st env w) as (evs & Ht & _ & Hlast).
    rewrite Hend in Hlast. destruct Hlast as (evs' & ->).
    exists (EvLoadEnv :: evs'). by rewrite Ht.
  - apply cycle_begins.
  - apply run_cycles.
Qed.

End RunFacts.

(* ================================================================== *)
(** * The cycle on scripted venues *)
(* ================================================================== *)

Module examples.

Import instances.

Abbreviation cycle :=
  (cycle ParseFloat ParseInt (@insertionSort _) (Sprintf_fixed 2) (Sprintf_fixed 6)
     scripted scripted_transport).
Abbreviation StrategyManager :=
  (StrategyManager ParseFloat ParseInt (@insertionSort _) (Sprintf_fixed 2)
     (Sprintf_fixed 6) scripted scripted_transport).
Abbreviation run :=
  (run ParseFloat ParseInt (@insertionSort _) (Sprintf_fixed 2) (Sprintf_fixed 6)
     scripted scripted_transport).
Abbreviation fixed_leg :=
  (fixed_leg ParseFloat ParseInt (@insertionSort _) (Sprintf_fixed 2) (Sprintf_fixed 6)
     scripted scripted_transport).
Abbreviation predictive_leg :=
  (predictive_leg ParseFloat (Sprintf_fixed 2) (Sprintf_fixed 6)
     scripted scripted_transport).

Lemma env_ok_configured : configured env_ok.
Proof. by split_and!. Qed.

(** A whole cycle: 1000 USD, all available; 500 go to each leg. *)
Example full_cycle :
  sends (trace (cycle initial_status env_ok
                  (world_of [wallets_answer "USD" 1000 1000;
                             wallets_answer "USD" 1000 1000;
                             book_answer; submit_accepted 7;
                             stats_answer; submit_accepted 8])).2)
  = [ wallets_request; wallets_request; book_request;
      submit_request {| Type_ := "LIMIT"; Symbol := "fUSD"; Amount := "500.00";
                        Rate := "0.000150"; Period := 2; Flags := 0 |};
      stats_request;
      submit_request {| Type_ := "LIMIT"; Symbol := "fUSD"; Amount := "500.00";
                        Rate := "0.000195"; Period := 2; Flags := 0 |} ].
Proof. reflexivity. Qed.

(** C3 as the specification states it fails: with the read of the
    balances failing,
    a run of three cycles leaves the process in the first, of its own
    accord. *)
Lemma run_ends_when_balances_fail :
  let r := run 3 env_ok (world_of [Err "timeout"]) in
  r.1 = Exit ∧ cycles_begun (trace r.2) = 1%nat.
Proof. split; reflexivity. Qed.

Lemma cycle_sleeps_then_repeats_witness :
  let w := world_of [wallets_answer "USD" 1000 1000; wallets_answer "USD" 1000 1000;
                     book_answer; submit_accepted 7; stats_answer; submit_accepted 8] in
  (∃ evs, trace (cycle initial_status env_ok w).2 = trace w ++ evs ++ [EvSleep 300]) ∧
  (∃ evs, trace (cycle initial_status env_ok w).2
          = trace w ++ EvLoadEnv :: EvSend wallets_request :: evs).
Proof.
  intros w.
  destruct (cycle_sleeps_then_repeats ParseFloat ParseInt (@insertionSort _)
              (Sprintf_fixed 2) (Sprintf_fixed 6) scripted scripted_transport
              initial_status env_ok 1 w) as (Hsleep & Hbegin & _).
  split.
  - eapply Hsleep. reflexivity.
  - apply Hbegin. exact env_ok_configured.
Defined.

(** C4 as the specification states it fails: with a wallet snapshot
    without a USD
    funding wallet, [StrategyManager] returns; the process is not left. *)
Lemma missing_usd_wallet_is_not_fatal :
  let r := StrategyManager env_ok
             (world_of [wallets_answer "UST" 1000 1000; wallets_answer "UST" 1000 1000]) in
  r.1 = Val tt ∧ r.1 ≠ Exit.
Proof. split; [reflexivity|discriminate]. Qed.

Lemma missing_usd_wallet_returns_witness :
  let w := world_of [wallets_answer "UST" 1000 1000; wallets_answer "UST" 1000 1000] in
  ∃ w2, cycle initial_status env_ok w = (Val Return_, w2) ∧
        StrategyManager env_ok w = (Val tt, w2) ∧
        trace w2 = trace w ++ [EvLoadEnv; EvSend wallets_request; EvSend wallets_request].
Proof.
  intros w. eexists.
  eapply (missing_usd_wallet_returns ParseFloat ParseInt (@insertionSort _)
            (Sprintf_fixed 2) (Sprintf_fixed 6) scripted scripted_transport
            initial_status env_ok w).
  - exact env_ok_configured.
  - reflexivity.
  - reflexivity.
  - reflexivity.
Defined.

Lemma failed_fixed_submission_reduces_available_witness :
  let w := world_of [wallets_answer "USD" 1000 1000; wallets_answer "USD" 1000 1000;
                     book_answer; Err "rejected"; stats_answer; submit_accepted 8] in
  let client := NewClient "key" "secret" in
  ∃ w2 w5,
    fixed_leg client (of_int 500) (of_int 1000) w2 = (Val (Next (of_int 500)), w5) ∧
    cycle initial_status env_ok w =
      (predictive <- predictive_leg client initial_status (of_int 500) (of_int 500) ;;
       match predictive with
       | Return_ => ret Return_
       | Next st => time_Sleep 300 ;;; ret (Next st)
       end) w5.
Proof.
  intros w client. eexists _, _.
  eapply (failed_fixed_submission_reduces_available ParseFloat ParseInt (@insertionSort _)
            (Sprintf_fixed 2) (Sprintf_fixed 6) scripted scripted_transport
            initial_status env_ok w _ _ _ _ (of_int 1000) zero (of_int 1000)).
  - exact env_ok_configured.
  - vm_compute. reflexivity.
  - vm_compute. reflexivity.
  - vm_compute. reflexivity.
  - vm_compute. reflexivity.
  - vm_compute. reflexivity.
  - vm_compute. reflexivity.
  - vm_compute. reflexivity.
  - vm_compute. reflexivity.
Defined.

End examples.

(* ================================================================== *)
(** * Further properties of the rate selectors *)
(* ================================================================== *)

Section SelectorsMore.

Variable ParseFloat : string → option float64.
Variable ParseInt : string → option Z.
Variable sort_Slice :
  (BitfinexOffer → BitfinexOffer → bool) → list BitfinexOffer → list BitfinexOffer.

(** X1. The errors of the two selections. Each fails with "error parsing
    JSON" exactly when the payload is no array of arrays; on a decoded book
    it fails, with its "no valid ... offers found", exactly when its
    decoding loop keeps no row, and returns an offer otherwise, whatever
    [sort.Slice] does. *)
Theorem selections_fail_without_offers (data : body) (minPeriod : Z) :
  match unmarshal_rows data with
  | None =>
      FindHighestRateForShortestPeriod ParseFloat ParseInt sort_Slice data
        = Err "error parsing JSON" ∧
      FindHighestLendingRate ParseFloat ParseInt data minPeriod
        = Err "error parsing JSON"
  | Some rawOffers =>
      (FindHighestRateForShortestPeriod ParseFloat ParseInt sort_Slice data
         = Err "no valid offers found" ↔
       Forall (λ raw, kept ParseFloat ParseInt raw = None) rawOffers) ∧
      (is_ok (FindHighestRateForShortestPeriod ParseFloat ParseInt sort_Slice data) = false ↔
       Forall (λ raw, kept ParseFloat ParseInt raw = None) rawOffers) ∧
      (FindHighestLendingRate ParseFloat ParseInt data minPeriod
         = Err "no valid lending offers found" ↔
       Forall (λ raw, lending_kept ParseFloat ParseInt minPeriod raw = None) rawOffers) ∧
      (is_ok (FindHighestLendingRate ParseFloat ParseInt data minPeriod) = false ↔
       Forall (λ raw, lending_kept ParseFloat ParseInt minPeriod raw = None) rawOffers)
  end.
Proof.
  assert (Hnil : ∀ {A B} (f : A → option B) (l : list A),
            omap f l = [] ↔ Forall (λ x, f x = None) l).
  { intros A B f l. induction l as [|x l IH]; simpl; [split; [constructor|done]|].
    destruct (f x) eqn:E; split.
    - done.
    - intros H. apply Forall_cons in H as [H _]. congruence.
    - intros H. constructor; [done|by apply IH].
    - intros H. apply Forall_cons in H as [_ H]. by apply IH. }
  unfold FindHighestRateForShortestPeriod, FindHighestLendingRate.
  destruct (unmarshal_rows data) as [rawOffers|]; [|done].
  rewrite (fold_left_append _ _ (shortest_step_row ParseFloat ParseInt)), app_nil_l.
  rewrite (fold_left_append _ _ (lending_step_row ParseFloat ParseInt minPeriod)), app_nil_l.
  rewrite <- !Hnil.
  split_and!.
  - destruct (omap (kept ParseFloat ParseInt) rawOffers) as [|o l]; [done|].
    change (length (o :: l) =? 0)%nat with false. cbv iota zeta.
    destruct (fold_left _ _ _). split; discriminate.
  - destruct (omap (kept ParseFloat ParseInt) rawOffers) as [|o l]; [done|].
    change (length (o :: l) =? 0)%nat with false. cbv iota zeta.
    destruct (fold_left _ _ _). split; discriminate.
  - destruct (omap (lending_kept ParseFloat ParseInt minPeriod) rawOffers); [done|].
    split; discriminate.
  - destruct (omap (lending_kept ParseFloat ParseInt minPeriod) rawOffers); [done|].
    split; discriminate.
Qed.

(** The selection loop with the place of the offer it retains: the offers
    of the shortest period before it are neither above nor equal to its
    rate, those after it are not above. *)
Lemma best_loop_first (shortestPeriod : Z) (offers : list BitfinexOffer) :
  let '(highestRate, bestOffer) :=
    fold_left (best_step shortestPeriod) offers (minus_one, zero_offer) in
  (highestRate = minus_one ∧ bestOffer = zero_offer ∧
   ∀ o, o ∈ of_period shortestPeriod offers → gt (bo_Rate o) minus_one = false) ∨
  (highestRate = bo_Rate bestOffer ∧
   ∃ pre post,
     of_period shortestPeriod offers = pre ++ bestOffer :: post ∧
     (∀ o, o ∈ pre → gt (bo_Rate o) highestRate = false ∧ eq (bo_Rate o) highestRate = false) ∧
     (∀ o, o ∈ post → gt (bo_Rate o) highestRate = false)).
Proof.
  induction offers as [|x offers IH] using rev_ind; simpl.
  - left. split_and!; [done|done|]. by intros o ?%elem_of_nil.
  - rewrite fold_left_app. simpl.
    destruct (fold_left (best_step shortestPeriod) offers (minus_one, zero_offer))
      as [highestRate bestOffer].
    unfold of_period in *. rewrite filter_app, filter_cons, filter_nil.
    unfold best_step.
    destruct (decide (bo_Period x = shortestPeriod)) as [Hp|Hp].
    2:{ apply Z.eqb_neq in Hp. rewrite Hp. simpl. by rewrite app_nil_r. }
    rewrite (proj2 (Z.eqb_eq _ _) Hp). simpl.
    destruct (gt (bo_Rate x) highestRate) eqn:Hgt.
    + right. split; [done|].
      exists (filter (λ o, bo_Period o = shortestPeriod) offers), []. split; [done|].
      split; [|by intros o ?%elem_of_nil].
      intros o Ho.
      destruct IH as [(-> & _ & Hall)|(-> & pre & post & Hsplit & Hpre & Hpost)].
      * apply (Float64_facts.gt_bound _ _ _ Hgt). by apply Hall.
      * apply (Float64_facts.gt_bound _ _ _ Hgt). rewrite Hsplit in Ho.
        apply elem_of_app in Ho as [Ho|Ho]; [by apply Hpre|].
        apply elem_of_cons in Ho as [->|Ho]; [apply Float64_facts.gt_irrefl|by apply Hpost].
    + destruct IH as [(-> & -> & Hall)|(-> & pre & post & Hsplit & Hpre & Hpost)].
      * left. split_and!; [done|done|].
        intros o [Ho| ->%list_elem_of_singleton]%elem_of_app; [by apply Hall|done].
      * right. split; [done|]. exists pre, (post ++ [x]).
        split; [by rewrite Hsplit, <- app_assoc|]. split; [done|].
        intros o [Ho| ->%list_elem_of_singleton]%elem_of_app; [by apply Hpost|done].
Qed.

(** X2. Ties in the shortest-period selection. Where the call of
    [sort.Slice] on the kept offers permutes them into ascending periods
    and leaves the offers of the shortest period in their order, and some
    kept offer of the shortest period has a rate above -1: the selection
    returns the first, in the order of the rows, of the kept offers of the
    shortest period that none of them exceeds in rate; the ones before it
    are neither above it nor equal to it. Nothing is asked of the sort on
    other slices. *)
Theorem shortest_period_first_of_ties (data : body) (rawOffers : list (list value))
    (o1 : BitfinexOffer) :
  let offers := omap (kept ParseFloat ParseInt) rawOffers in
  let sorted := sort_Slice (λ i j, bo_Period i <? bo_Period j) offers in
  Permutation offers sorted →
  StronglySorted (λ a b, bo_Period a ≤ bo_Period b) sorted →
  of_period (bo_Period o1) sorted = of_period (bo_Period o1) offers →
  unmarshal_rows data = Some rawOffers →
  o1 ∈ offers →
  (∀ o, o ∈ offers → bo_Period o1 ≤ bo_Period o) →
  gt (bo_Rate o1) minus_one = true →
  ∃ best pre post,
    FindHighestRateForShortestPeriod ParseFloat ParseInt sort_Slice data = Ok best ∧
    bo_Period best = bo_Period o1 ∧
    of_period (bo_Period o1) offers = pre ++ best :: post ∧
    (∀ o, o ∈ pre → gt (bo_Rate o) (bo_Rate best) = false ∧
                     eq (bo_Rate o) (bo_Rate best) = false) ∧
    (∀ o, o ∈ post → gt (bo_Rate o) (bo_Rate best) = false).
Proof.
  intros offers sorted Hp Hsorted Hstable Hdata Hin Hmin Hrate.
  unfold FindHighestRateForShortestPeriod. rewrite Hdata.
  rewrite (fold_left_append _ _ (shortest_step_row ParseFloat ParseInt)), app_nil_l.
  fold offers.
  assert (Hlen : (length offers =? 0)%nat = false).
  { apply Nat.eqb_neq. intros Hnil. apply nil_length_inv in Hnil.
    rewrite Hnil in Hin. by apply elem_of_nil in Hin. }
  rewrite Hlen. cbv iota zeta. fold sorted.
  assert (Hin' : o1 ∈ sorted) by (by rewrite <- Hp).
  assert (Hshortest : bo_Period (default zero_offer (head sorted)) = bo_Period o1).
  { destruct sorted as [|s0 sorted']; [by apply elem_of_nil in Hin'|]. simpl.
    apply Z.le_antisymm.
    - apply StronglySorted_inv in Hsorted as [_ Hall].
      apply elem_of_cons in Hin' as [->|Hin'']; [done|].
      rewrite Forall_forall in Hall. by apply Hall.
    - apply Hmin. rewrite Hp. left. }
  rewrite Hshortest.
  pose proof (best_loop_first (bo_Period o1) sorted) as Hloop.
  destruct (fold_left (best_step (bo_Period o1)) sorted (minus_one, zero_offer))
    as [highestRate bestOffer].
  rewrite Hstable in Hloop.
  destruct Hloop as [(-> & -> & Hall)|(-> & pre & post & Hsplit & Hpre & Hpost)].
  - assert (Ho1 : o1 ∈ of_period (bo_Period o1) offers)
      by (by apply list_elem_of_filter).
    specialize (Hall o1 Ho1). congruence.
  - exists bestOffer, pre, post. split_and!; try done.
    assert (Hb : bestOffer ∈ of_period (bo_Period o1) offers)
      by (rewrite Hsplit; apply elem_of_app; right; left).
    by apply list_elem_of_filter in Hb as [? _].
Qed.

End SelectorsMore.

(** Insertion sort keeps the order of the offers of equal period. *)
Lemma insert_left_of_period (p : Z) (x : BitfinexOffer) (sorted : list BitfinexOffer) :
  of_period p (insert_left (λ i j, bo_Period i <? bo_Period j) x sorted)
  = of_period p (x :: sorted).
Proof.
  unfold of_period. induction sorted as [|y before IH]; simpl; [done|].
  destruct (Z.ltb_spec (bo_Period x) (bo_Period y)) as [Hlt|Hge]; [|done].
  rewrite filter_cons, IH, !filter_cons.
  destruct (decide (bo_Period y = p)), (decide (bo_Period x = p)); try done. lia.
Qed.

Lemma of_period_rev (p : Z) (l : list BitfinexOffer) :
  of_period p (rev l) = rev (of_period p l).
Proof.
  unfold of_period. induction l as [|x l IH]; simpl; [done|].
  rewrite filter_app, IH, filter_cons, (filter_cons _ x).
  destruct (decide (bo_Period x = p)); simpl; [done|by rewrite app_nil_r].
Qed.

Lemma insertionSort_stable (p : Z) (l : list BitfinexOffer) :
  of_period p (insertionSort (λ i j, bo_Period i <? bo_Period j) l) = of_period p l.
Proof.
  unfold insertionSort. rewrite of_period_rev.
  assert (H : ∀ sorted,
            of_period p (fold_left (λ sorted x,
                           insert_left (λ i j, bo_Period i <? bo_Period j) x sorted)
                         l sorted)
            = rev (of_period p l) ++ of_period p sorted).
  { induction l as [|x l IH]; intros sorted; simpl; [done|].
    rewrite IH, insert_left_of_period. unfold of_period.
    rewrite !filter_cons. destruct (decide (bo_Period x = p)); simpl; [|done].
    by rewrite <- app_assoc. }
  rewrite H. unfold of_period. simpl. by rewrite app_nil_r, rev_involutive.
Qed.

(* ================================================================== *)
(** * The reads of the balances *)
(* ================================================================== *)

Section WalletFacts.

(** What a row contributes for a currency. *)
Abbreviation row_balance position least currency :=
  (λ wallet : list value,
     if (least <=? length wallet)%nat then
       '(c, balance) ← funding_entry position wallet;
       if String.eqb c currency then Some balance else None
     else None).

Lemma last_balance_snoc (position least : nat) (currency : string)
    (wallets : list (list value)) (wallet : list value) :
  last_balance position least currency (wallets ++ [wallet]) =
  match row_balance position least currency wallet with
  | Some balance => Some balance
  | None => last_balance position least currency wallets
  end.
Proof.
  unfold last_balance. rewrite omap_app. simpl.
  destruct (if (least <=? length wallet)%nat then _ else _) as [b|]; simpl.
  - by rewrite last_snoc.
  - by rewrite app_nil_r.
Qed.

Lemma wallets_step_panics (m : gmap string float64) (wallet : list value) :
  wallets_step m wallet = None ↔ wallets_row_ill_typed wallet.
Proof.
  unfold wallets_step, wallets_row_ill_typed.
  destruct (Nat.leb_spec 5 (length wallet)) as [Hlen|Hlen]; [|split; [done|lia]].
  destruct (assert_string (idx wallet 0)) as [walletType|] eqn:H0; simpl;
    [|split; [auto|done]].
  destruct (assert_string (idx wallet 1)) as [currency|] eqn:H1; simpl;
    [|split; [auto|done]].
  destruct (idx wallet 0) as [| | |s| | | | |] eqn:E0; try discriminate.
  injection H0 as ->.
  destruct (String.eqb_spec walletType "funding") as [->|Hne].
  - destruct (assert_float64 (idx wallet 4)); simpl; split; try done; [|auto].
    intros (_ & [?|[?|[_ ?]]]); done.
  - split; [done|]. intros (_ & [?|[?|[[= ?] _]]]); done.
Qed.

Lemma wallets_step_lookup (m m' : gmap string float64) (wallet : list value)
    (currency : string) :
  wallets_step m wallet = Some m' →
  m' !! currency =
  match row_balance 4%nat 5%nat currency wallet with
  | Some balance => Some balance
  | None => m !! currency
  end.
Proof.
  unfold wallets_step, funding_entry, idx.
  destruct (5 <=? length wallet)%nat; [|by intros [= <-]].
  destruct (wallet !! 0%nat) as [[| | |walletType| | | | |]|]; simpl; try done.
  destruct (wallet !! 1%nat) as [[| | |c| | | | |]|]; simpl; try done;
    try (destruct (String.eqb_spec walletType "funding") as [->|?]; done).
  destruct (String.eqb_spec walletType "funding") as [->|Hne].
  - destruct (wallet !! 4%nat) as [[| |balance| | | | | |]|]; simpl; try done.
    intros [= <-]. destruct (String.eqb_spec c currency) as [->|Hc].
    + by rewrite lookup_insert_eq.
    + by rewrite lookup_insert_ne.
  - intros [= <-].
    assert (H : match walletType with
                | "funding" => match wallet !! 4%nat with
                               | Some (VFloat64 balance) => Some (c, balance)
                               | _ => None
                               end
                | _ => None
                end = (None : option (string * float64))).
    { clear -Hne.
      repeat match goal with
             | |- context [match ?s with EmptyString => _ | String _ _ => _ end] =>
                 destruct s as [|[[] [] [] [] [] [] [] []] ?]; try done
             end. }
    by rewrite H.
Qed.

(** The loop of [GetWallets]: it panics exactly on an ill-typed row, and
    otherwise maps each currency to the available balance of its last
    funding row. *)
Lemma wallets_loop (wallets : list (list value)) :
  match foldl (λ acc wallet, m ← acc; wallets_step m wallet) (Some ∅) wallets with
  | None => Exists wallets_row_ill_typed wallets
  | Some m =>
      ¬ Exists wallets_row_ill_typed wallets ∧
      ∀ currency, m !! currency = last_balance 4 5 currency wallets
  end.
Proof.
  induction wallets as [|wallet wallets IH] using rev_ind; simpl.
  - split; [by intros ?%Exists_nil|done].
  - rewrite foldl_snoc.
    destruct (foldl _ _ wallets) as [m|]; cbn -[wallets_step].
    + destruct IH as [Hok Hm].
      destruct (wallets_step m wallet) as [m'|] eqn:Hstep.
      * split.
        -- intros [H|H]%Exists_app; [done|]. apply Exists_cons in H as [H|H%Exists_nil]; [|done].
           apply (wallets_step_panics m) in H. congruence.
        -- intros currency. rewrite last_balance_snoc, <- Hm.
           by apply wallets_step_lookup.
      * apply Exists_app. right. left. by apply (wallets_step_panics m).
    + apply Exists_app. by left.
Qed.

Lemma total_step_panics (acc : float64 * float64) (wallet : list value) :
  total_step acc wallet = None ↔ total_row_ill_typed wallet.
Proof.
  unfold total_step, total_row_ill_typed. destruct acc as [usd ust].
  destruct (Nat.leb_spec 3 (length wallet)) as [Hlen|Hlen]; [|split; [done|lia]].
  destruct (assert_string (idx wallet 0)) as [walletType|]; simpl; [|split; [auto|done]].
  destruct (assert_string (idx wallet 1)) as [currency|]; simpl; [|split; [auto|done]].
  destruct (assert_float64 (idx wallet 2)) as [balance|]; simpl; [|split; [auto|done]].
  split; [|intros (_ & [?|[?|?]]); done].
  destruct (String.eqb walletType "funding"); [|done].
  destruct (String.eqb currency "USD"); [done|].
  by destruct (String.eqb currency "UST").
Qed.

Lemma total_step_balances (usd ust usd' ust' : float64) (wallet : list value) :
  total_step (usd, ust) wallet = Some (usd', ust') →
  usd' = default usd (row_balance 2%nat 3%nat "USD" wallet) ∧
  ust' = default ust (row_balance 2%nat 3%nat "UST" wallet).
Proof.
  unfold total_step, funding_entry, idx.
  destruct (3 <=? length wallet)%nat; [|by intros [= <- <-]].
  destruct (wallet !! 0%nat) as [[| | |walletType| | | | |]|]; simpl; try done.
  destruct (wallet !! 1%nat) as [[| | |c| | | | |]|]; simpl; try done.
  destruct (wallet !! 2%nat) as [[| |balance| | | | | |]|]; simpl; try done.
  destruct (String.eqb_spec walletType "funding") as [->|Hne].
  - destruct (String.eqb_spec c "USD") as [->|Husd]; [by intros [= <- <-]|].
    destruct (String.eqb_spec c "UST") as [->|Hust]; intros [= <- <-]; simpl; [done|].
    apply String.eqb_neq in Husd, Hust. by rewrite Husd, Hust.
  - intros [= <- <-].
    assert (H : match walletType with
                | "funding" => Some (c, balance)
                | _ => None
                end = (None : option (string * float64))).
    { clear -Hne.
      repeat match goal with
             | |- context [match ?s with EmptyString => _ | String _ _ => _ end] =>
                 destruct s as [|[[] [] [] [] [] [] [] []] ?]; try done
             end. }
    by rewrite H.
Qed.

(** The loop of [GetTotalWalletBalance]: it panics exactly on an ill-typed
    row, and otherwise yields the balances of the last funding rows of USD
    and of UST, zero where there is none. *)
Lemma total_loop (wallets : list (list value)) :
  match foldl (λ acc wallet, b ← acc; total_step b wallet) (Some (zero, zero)) wallets with
  | None => Exists total_row_ill_typed wallets
  | Some (usdBalance, ustBalance) =>
      ¬ Exists total_row_ill_typed wallets ∧
      usdBalance = default zero (last_balance 2 3 "USD" wallets) ∧
      ustBalance = default zero (last_balance 2 3 "UST" wallets)
  end.
Proof.
  induction wallets as [|wallet wallets IH] using rev_ind; simpl.
  - split; [by intros ?%Exists_nil|done].
  - rewrite foldl_snoc.
    destruct (foldl _ _ wallets) as [[usd ust]|]; cbn -[total_step].
    + destruct IH as (Hok & Husd & Hust).
      destruct (total_step (usd, ust) wallet) as [[usd' ust']|] eqn:Hstep; cbv beta iota.
      * split.
        -- intros [H|H]%Exists_app; [done|]. apply Exists_cons in H as [H|H%Exists_nil]; [|done].
           apply (total_step_panics (usd, ust)) in H. congruence.
        -- apply total_step_balances in Hstep as [-> ->].
           rewrite !last_balance_snoc, Husd, Hust.
           split.
           ++ by destruct (if (3 <=? length wallet)%nat then _ else _).
           ++ by destruct (if (3 <=? length wallet)%nat then _ else _).
      * apply Exists_app. right. left. by apply (total_step_panics (usd, ust)).
    + apply Exists_app. by left.
Qed.

Variable Venue : Type.
Variable transport : Venue → Client → Request → result body * Venue.

(** The world after one request and its answer. *)
Abbreviation sent w v r :=
  ({| venue := v; trace := trace w ++ [EvSend r] |} : World Venue).

(** X3. [GetWallets] by the answer to its one request. An error of the
    transport and a body that is no array of arrays come back as errors.
    On decoded rows the call panics exactly when some row of 5 entries has
    a type or a currency that is no string, or is a funding row whose
    available balance is no number; otherwise the map it returns has, for
    every currency, the available balance (index 4) of the last funding
    row of 5 entries for that currency, and no entry where there is no
    such row. *)
Theorem GetWallets_available (c : Client) (w : World Venue) :
  match transport (venue w) c wallets_request with
  | (Err err, v) =>
      GetWallets Venue transport c w
      = (Val (Err ("failed to get wallets: " +:+ err)), sent w v wallets_request)
  | (Ok respBody, v) =>
      match unmarshal_rows respBody with
      | None =>
          GetWallets Venue transport c w
          = (Val (Err "JSON parsing error"), sent w v wallets_request)
      | Some wallets =>
          (GetWallets Venue transport c w).2 = sent w v wallets_request ∧
          match (GetWallets Venue transport c w).1 with
          | Val (Ok fundingBalances) =>
              ¬ Exists wallets_row_ill_typed wallets ∧
              ∀ currency,
                fundingBalances !! currency = last_balance 4 5 currency wallets
          | Panic => Exists wallets_row_ill_typed wallets
          | _ => False
          end
      end
  end.
Proof.
  unfold data.GetWallets, bind, SendRequest. fold wallets_request.
  destruct (transport (venue w) c wallets_request) as [[respBody|err] v]; [|done].
  destruct (unmarshal_rows respBody) as [wallets|]; [|done].
  pose proof (wallets_loop wallets) as Hloop.
  destruct (foldl _ _ wallets) as [m|]; simpl; by split.
Qed.

(** X4. [GetTotalWalletBalance] by the answer to its one request. Errors
    as for [GetWallets]. On decoded rows the call panics exactly when some
    row of 3 entries, of whatever wallet type, has a type or currency that
    is no string or a balance that is no number; otherwise it returns the
    balances (index 2) of the last funding rows for USD and for UST, and
    zero for a currency without funding row. *)
Theorem GetTotalWalletBalance_last_rows (c : Client) (w : World Venue) :
  match transport (venue w) c wallets_request with
  | (Err err, v) =>
      GetTotalWalletBalance Venue transport c w
      = (Val (Err ("failed to get wallets: " +:+ err)), sent w v wallets_request)
  | (Ok respBody, v) =>
      match unmarshal_rows respBody with
      | None =>
          GetTotalWalletBalance Venue transport c w
          = (Val (Err "failed to parse wallets"), sent w v wallets_request)
      | Some wallets =>
          (GetTotalWalletBalance Venue transport c w).2 = sent w v wallets_request ∧
          match (GetTotalWalletBalance Venue transport c w).1 with
          | Val (Ok (usdBalance, ustBalance)) =>
              ¬ Exists total_row_ill_typed wallets ∧
              usdBalance = default zero (last_balance 2 3 "USD" wallets) ∧
              ustBalance = default zero (last_balance 2 3 "UST" wallets)
          | Panic => Exists total_row_ill_typed wallets
          | _ => False
          end
      end
  end.
Proof.
  unfold data.GetTotalWalletBalance, bind, SendRequest. fold wallets_request.
  destruct (transport (venue w) c wallets_request) as [[respBody|err] v]; [|done].
  destruct (unmarshal_rows respBody) as [wallets|]; [|done].
  pose proof (total_loop wallets) as Hloop.
  destruct (foldl _ _ wallets) as [[usd ust]|]; simpl; by split.
Qed.

End WalletFacts.

(** Two funding rows for USD: the later one counts. *)
Example wallets_last_row_counts :
  (GetWallets instances.scripted instances.scripted_transport (NewClient "key" "secret")
     (instances.world_of
        [Ok (Some (VSlice [instances.wallet_row "funding" "USD" 1000 400;
                           instances.wallet_row "margin" "USD" 7 7;
                           instances.wallet_row "funding" "USD" 900 300]))])).1
  = Val (Ok {[ "USD" := of_int 300 ]}).
Proof. vm_compute. reflexivity. Qed.

(** A wallet row of the exchange type without a balance stops the read of
    the totals. *)
Example total_panics_on_exchange_row :
  (GetTotalWalletBalance instances.scripted instances.scripted_transport
     (NewClient "key" "secret")
     (instances.world_of
        [Ok (Some (VSlice [VSlice [VString "exchange"; VString "USD"; VNil];
                           instances.wallet_row "funding" "USD" 1000 400]))])).1
  = Panic.
Proof. reflexivity. Qed.

(* ================================================================== *)
(** * Further properties of the cycle *)
(* ================================================================== *)

Section CycleMore.

Variable ParseFloat : string → option float64.
Variable ParseInt : string → option Z.
Variable sort_Slice :
  (BitfinexOffer → BitfinexOffer → bool) → list BitfinexOffer → list BitfinexOffer.
Variable Sprintf_2f : float64 → string.
Variable Sprintf_6f : float64 → string.
Variable Venue : Type.
Variable transport : Venue → Client → Request → result body * Venue.

Abbreviation World := (World Venue).
Abbreviation M := (M Venue).
Abbreviation GetTotalWalletBalance := (GetTotalWalletBalance Venue transport).
Abbreviation GetWallets := (GetWallets Venue transport).
Abbreviation GetRawBookHighest := (GetRawBookHighest Venue transport).
Abbreviation GetFundingStat := (GetFundingStat ParseFloat Venue transport).
Abbreviation SubmitFundingOffer := (SubmitFundingOffer Venue transport).
Abbreviation FindHighestRateForShortestPeriod :=
  (FindHighestRateForShortestPeriod ParseFloat ParseInt sort_Slice).
Abbreviation fixed_leg :=
  (fixed_leg ParseFloat ParseInt sort_Slice Sprintf_2f Sprintf_6f Venue transport).
Abbreviation predictive_leg :=
  (predictive_leg ParseFloat Sprintf_2f Sprintf_6f Venue transport).
Abbreviation cycle :=
  (cycle ParseFloat ParseInt sort_Slice Sprintf_2f Sprintf_6f Venue transport).
Abbreviation StrategyManager :=
  (StrategyManager ParseFloat ParseInt sort_Slice Sprintf_2f Sprintf_6f Venue transport).

Abbreviation loaded w :=
  ({| venue := venue w; trace := trace w ++ [EvLoadEnv] |} : World).
Abbreviation logged w format err :=
  ({| venue := venue w; trace := trace w ++ [EvLog format [VString err]] |} : World).

(** The cycle up to the legs, with the environment configured and both
    reads of the balances answered. *)
Lemma cycle_to_legs (st : OrderStatus) (env : Environment) (w w1 w2 : World)
    (usdBalance ustBalance availableUsdBalance : float64)
    (wallets : gmap string float64) :
  let client := NewClient (BITFINEX_API_KEY env) (BITFINEX_API_SECRET env) in
  let remain := sub (mul usdBalance half) (mul (sub usdBalance availableUsdBalance) half) in
  configured env →
  GetTotalWalletBalance client (loaded w) = (Val (Ok (usdBalance, ustBalance)), w1) →
  GetWallets client w1 = (Val (Ok wallets), w2) →
  wallets !! "USD" = Some availableUsdBalance →
  cycle st env w =
    (fixed <- fixed_leg client remain availableUsdBalance ;;
     match fixed with
     | Return_ => ret Return_
     | Next availableUsdBalance =>
         predictive <- predictive_leg client st remain availableUsdBalance ;;
         match predictive with
         | Return_ => ret Return_
         | Next st => time_Sleep 300 ;;; ret (Next st)
         end
     end) w2.
Proof.
  intros client remain (Hd & Hk%String.eqb_neq & Hs%String.eqb_neq) Htotal Hwallets Husd.
  unfold strategy.cycle. unfold bind at 1, emit at 1. cbv beta iota.
  rewrite Hd, Hk, Hs.
  change (negb true) with false; change (false || false) with false; cbv beta iota.
  unfold bind at 1. fold client. rewrite Htotal.
  unfold bind at 1. rewrite Hwallets, Husd. reflexivity.
Qed.

(** X5. Below the threshold the cycle does nothing. With the environment
    configured and the balances read, where the amount that remains to be
    lent on a leg, half of the total less half of what is lent already, is
    not above 150, the cycle reads no book and no statistics, submits and
    cancels nothing, sleeps 300 seconds and ends with the order status it
    began with. *)
Theorem cycle_idles_below_threshold (st : OrderStatus) (env : Environment)
    (w w1 w2 : World) (usdBalance ustBalance availableUsdBalance : float64)
    (wallets : gmap string float64) :
  let client := NewClient (BITFINEX_API_KEY env) (BITFINEX_API_SECRET env) in
  let remain := sub (mul usdBalance half) (mul (sub usdBalance availableUsdBalance) half) in
  configured env →
  GetTotalWalletBalance client (loaded w) = (Val (Ok (usdBalance, ustBalance)), w1) →
  GetWallets client w1 = (Val (Ok wallets), w2) →
  wallets !! "USD" = Some availableUsdBalance →
  gt remain c150 = false →
  cycle st env w =
    (Val (Next st), {| venue := venue w2; trace := trace w2 ++ [EvSleep 300] |}).
Proof.
  intros client remain Hconf Htotal Hwallets Husd Hlow.
  rewrite (cycle_to_legs st env w w1 w2 _ _ _ _ Hconf Htotal Hwallets Husd).
  fold client remain.
  unfold bind at 1. unfold strategy.fixed_leg. rewrite Hlow.
  unfold ret at 1. cbv beta iota.
  unfold bind at 1. unfold strategy.predictive_leg. rewrite Hlow.
  reflexivity.
Qed.

(** X6. A book that cannot be read or yields no offer ends the cycle. With
    the fixed amount above 150 after the clamp: where the read of the book
    fails, or the selection on the book read fails, the failure is logged
    and the cycle returns at once: nothing is submitted, the predictive
    leg is not run, and there is no sleep. *)
Theorem book_failure_ends_cycle (st : OrderStatus) (env : Environment)
    (w w1 w2 w3 : World) (usdBalance ustBalance availableUsdBalance : float64)
    (wallets : gmap string float64) (book : result body) :
  let client := NewClient (BITFINEX_API_KEY env) (BITFINEX_API_SECRET env) in
  let remain := sub (mul usdBalance half) (mul (sub usdBalance availableUsdBalance) half) in
  configured env →
  GetTotalWalletBalance client (loaded w) = (Val (Ok (usdBalance, ustBalance)), w1) →
  GetWallets client w1 = (Val (Ok wallets), w2) →
  wallets !! "USD" = Some availableUsdBalance →
  gt remain c150 = true →
  gt (clamp availableUsdBalance remain) c150 = true →
  GetRawBookHighest client w2 = (Val book, w3) →
  match book with
  | Err err =>
      cycle st env w = (Val Return_, logged w3 "Error getting book: %v" err)
  | Ok highest =>
      match FindHighestRateForShortestPeriod highest with
      | Err err =>
          cycle st env w =
          (Val Return_, logged w3 "Error finding highest lending rate: %v" err)
      | Ok _ => True
      end
  end.
Proof.
  intros client remain Hconf Htotal Hwallets Husd Hgt Hamt Hbook.
  pose proof (cycle_to_legs st env w w1 w2 _ _ _ _ Hconf Htotal Hwallets Husd) as Hcycle.
  fold client remain in Hcycle.
  unfold bind at 1 in Hcycle. unfold strategy.fixed_leg in Hcycle.
  rewrite Hgt, Hamt in Hcycle. unfold bind at 1 in Hcycle. rewrite Hbook in Hcycle.
  destruct book as [highest|err]; [|exact Hcycle].
  destruct (FindHighestRateForShortestPeriod highest); [done|exact Hcycle].
Qed.

(** X7. An offer selected with a period outside [2, 120] is not sent. In
    the fixed leg, with the amount above 150, the book read and an offer
    selected whose period is below 2 or above 120 (the zero offer that the
    selection returns for rates not above -1 is one), and with amount and
    rate formatted to non-empty strings: no submission is sent, the
    refusal of the validation is logged, and the available balance is
    handed on less the amount all the same. *)
Theorem fixed_offer_outside_period_not_sent (c : Client)
    (remainFixUsdBalance availableUsdBalance : float64) (w w1 : World)
    (highest : body) (bestOffer : BitfinexOffer) :
  let amount := clamp availableUsdBalance remainFixUsdBalance in
  gt remainFixUsdBalance c150 = true →
  gt amount c150 = true →
  GetRawBookHighest c w = (Val (Ok highest), w1) →
  FindHighestRateForShortestPeriod highest = Ok bestOffer →
  Sprintf_2f amount ≠ "" →
  Sprintf_6f (bo_Rate bestOffer) ≠ "" →
  bo_Period bestOffer < 2 ∨ 120 < bo_Period bestOffer →
  fixed_leg c remainFixUsdBalance availableUsdBalance w =
  (Val (Next (sub availableUsdBalance amount)),
   {| venue := venue w1;
      trace := trace w ++
        [EvSend book_request;
         EvLog "Failed to submit fixed lending order: %v"
           [VString "period must be between 2 and 120 days"]] |}).
Proof.
  intros amount Hgt Hamt Hbook Hbest Ha Hr Hperiod.
  assert (Htrace : trace w1 = trace w ++ [EvSend book_request]).
  { unfold data.GetRawBookHighest, SendRequest in Hbook. fold book_request in Hbook.
    destruct (transport (venue w) c book_request). by injection Hbook as _ <-. }
  assert (Hval : validate {| Type_ := "LIMIT"; Symbol := "fUSD";
                             Amount := Sprintf_2f amount;
                             Rate := Sprintf_6f (bo_Rate bestOffer);
                             Period := bo_Period bestOffer; Flags := 0 |}
                 = Some "period must be between 2 and 120 days").
  { unfold validate. simpl.
    apply String.eqb_neq in Ha, Hr. rewrite Ha, Hr.
    assert (Hp : (bo_Period bestOffer <? 2) || (120 <? bo_Period bestOffer) = true).
    { apply orb_true_iff.
      destruct Hperiod; [left; by apply Z.ltb_lt|right; by apply Z.ltb_lt]. }
    by rewrite Hp. }
  unfold strategy.fixed_leg. rewrite Hgt. fold amount. rewrite Hamt.
  unfold bind at 1. rewrite Hbook, Hbest.
  unfold bind at 1. unfold bind at 1.
  unfold data.SubmitFundingOffer. rewrite Hval.
  unfold bind, log_Printf, emit, ret. simpl. rewrite Htrace, <- app_assoc. reflexivity.
Qed.

(** X8. The predictive leg without statistics. With the predictive amount
    above 150 after the clamp: where the read of the statistics fails, the
    failure is logged and the cycle returns; where it yields no row, the
    leg ends with the order status as it was, its tracked orders neither
    cancelled nor replaced, and with the one request sent. *)
Theorem predictive_leg_without_statistics (c : Client) (st : OrderStatus)
    (remainPredictUsdBalance availableUsdBalance : float64) (w w1 : World)
    (stats : result (list FundingStat)) :
  gt remainPredictUsdBalance c150 = true →
  gt (clamp availableUsdBalance remainPredictUsdBalance) c150 = true →
  GetFundingStat c "fUSD" w = (Val stats, w1) →
  trace w1 = trace w ++ [EvSend stats_request] ∧
  match stats with
  | Err err =>
      predictive_leg c st remainPredictUsdBalance availableUsdBalance w =
      (Val Return_, logged w1 "Failed to get funding statistics: %v" err)
  | Ok [] =>
      predictive_leg c st remainPredictUsdBalance availableUsdBalance w = (Val (Next st), w1)
  | Ok (_ :: _) => True
  end.
Proof.
  intros Hgt Hamt Hstats. split.
  - destruct (GetFundingStat_run ParseFloat Venue transport c w) as (r & v & H).
    rewrite H in Hstats. by injection Hstats as _ <-.
  - remember (predictive_leg c st remainPredictUsdBalance availableUsdBalance w)
      as leg eqn:Hleg.
    unfold strategy.predictive_leg in Hleg. rewrite Hgt, Hamt in Hleg.
    unfold bind at 1 in Hleg. rewrite Hstats in Hleg.
    destruct stats as [[|]|]; [exact Hleg|done|exact Hleg].
Qed.

End CycleMore.

(* ================================================================== *)
(** * The legs: order status, amounts and requests *)
(* ================================================================== *)

Section LegsMore.

Variable ParseFloat : string → option float64.
Variable ParseInt : string → option Z.
Variable sort_Slice :
  (BitfinexOffer → BitfinexOffer → bool) → list BitfinexOffer → list BitfinexOffer.
Variable Sprintf_2f : float64 → string.
Variable Sprintf_6f : float64 → string.
Variable Venue : Type.
Variable transport : Venue → Client → Request → result body * Venue.

Abbreviation World := (World Venue).
Abbreviation M := (M Venue).
Abbreviation SubmitFundingOffer := (SubmitFundingOffer Venue transport).
Abbreviation fixed_leg :=
  (fixed_leg ParseFloat ParseInt sort_Slice Sprintf_2f Sprintf_6f Venue transport).
Abbreviation predictive_leg :=
  (predictive_leg ParseFloat Sprintf_2f Sprintf_6f Venue transport).
Abbreviation cycle :=
  (cycle ParseFloat ParseInt sort_Slice Sprintf_2f Sprintf_6f Venue transport).
Abbreviation StrategyManager :=
  (StrategyManager ParseFloat ParseInt sort_Slice Sprintf_2f Sprintf_6f Venue transport).

(** X9. The order status through the predictive leg. From a consistent
    order status, a leg that reaches its end either leaves the status as it
    was, having sent nothing or the read of the statistics alone; or it has
    read the statistics, cancelled what was tracked and submitted its
    offer, and then the status holds exactly the order of the offer that
    this submission returned, and none where the submission returned an
    error. The status stays consistent, and one that held at most one
    order holds at most one. *)
Theorem predictive_leg_tracks_at_most_one (c : Client) (st st' : OrderStatus)
    (remainPredictUsdBalance availableUsdBalance : float64) (w : World) :
  let leg := predictive_leg c st remainPredictUsdBalance availableUsdBalance w in
  let amount := clamp availableUsdBalance remainPredictUsdBalance in
  consistent st →
  leg.1 = Val (Next st') →
  ((st' = st ∧
    (trace leg.2 = trace w ∨ trace leg.2 = trace w ++ [EvSend stats_request])) ∨
   ∃ w1 latestStat stats w2,
     GetFundingStat ParseFloat Venue transport c "fUSD" w
       = (Val (Ok (latestStat :: stats)), w1) ∧
     cancel_existing Venue transport c st w1 = (Val initial_status, w2) ∧
     match SubmitFundingOffer c
             {| Type_ := "LIMIT"; Symbol := "fUSD"; Amount := Sprintf_2f amount;
                Rate := Sprintf_6f (mul (FRR latestStat) c1_3);
                Period := 2; Flags := 0 |} w2 with
     | (Val (Ok res), w3) =>
         st' = {| currentPredictOrder := [tracked_of res]; currentOrderBool := true |} ∧
         leg.2 = w3
     | (Val (Err err), w3) =>
         st' = initial_status ∧
         leg.2 = {| venue := venue w3;
                    trace := trace w3 ++
                      [EvLog "Failed to submit predictive lending order: %v"
                         [VString err]] |}
     | _ => False
     end) ∧
  consistent st' ∧
  ((length (currentPredictOrder st) ≤ 1)%nat → (length (currentPredictOrder st') ≤ 1)%nat).
Proof.
  intros leg amount Hcons Hend.
  assert (Hshape : ∀ P : Prop, P →
            (st' = initial_status ∨
             ∃ res, st' = {| currentPredictOrder := [tracked_of res];
                             currentOrderBool := true |}) →
            P ∧ consistent st' ∧
            ((length (currentPredictOrder st) ≤ 1)%nat →
             (length (currentPredictOrder st') ≤ 1)%nat)).
  { intros P HP [->|(res & ->)]; split_and!; try done. intros _. simpl. lia. }
  assert (Hsame : ∀ P : Prop, P → st' = st →
            P ∧ consistent st' ∧
            ((length (currentPredictOrder st) ≤ 1)%nat →
             (length (currentPredictOrder st') ≤ 1)%nat)).
  { by intros P HP ->. }
  subst leg.
  remember (predictive_leg c st remainPredictUsdBalance availableUsdBalance w)
    as leg eqn:Hleg.
  unfold strategy.predictive_leg in Hleg. fold amount in Hleg.
  destruct (gt remainPredictUsdBalance c150).
  2:{ subst leg. injection Hend as <-. apply Hsame; [|done]. left. split; [done|by left]. }
  destruct (gt amount c150).
  2:{ subst leg. injection Hend as <-. apply Hsame; [|done]. left. split; [done|by left]. }
  unfold bind at 1 in Hleg.
  destruct (GetFundingStat_run ParseFloat Venue transport c w) as (stats & v & Hstats).
  rewrite Hstats in Hleg.
  set (w1 := {| venue := v; trace := trace w ++ [EvSend stats_request] |}) in *.
  destruct stats as [[|latestStat stats]|err]; [|clear Hsame|subst leg; discriminate Hend].
  { subst leg. injection Hend as <-. apply Hsame; [|done]. left. split; [done|by right]. }
  unfold bind at 1 in Hleg.
  destruct (cancel_existing_run Venue transport c st w1 Hcons)
    as (r & w2 & evc & Hc & _ & _ & _ & Hval & _).
  rewrite Hc in Hleg.
  destruct r as [st1| |]; [|subst leg; discriminate Hend..].
  destruct (Hval st1 eq_refl) as [-> _].
  unfold bind at 1 in Hleg.
  set (offer := {| Type_ := "LIMIT"; Symbol := "fUSD"; Amount := Sprintf_2f amount;
                   Rate := Sprintf_6f (mul (FRR latestStat) c1_3);
                   Period := 2; Flags := 0 |}) in *.
  pose proof (SubmitFundingOffer_run Venue transport c offer w2) as Hsub.
  assert (Hrun : ∃ rs w3, SubmitFundingOffer c offer w2 = (rs, w3) ∧ rs ≠ Exit).
  { destruct (validate offer) as [e|]; [by exists (Val (Err e)), w2|].
    destruct Hsub as (rs & v3 & Hsub & Hexit). by eexists rs, _. }
  clear Hsub. destruct Hrun as (rs & w3 & Hsub & Hexit).
  rewrite Hsub in Hleg.
  destruct rs as [[res|err]| |]; subst leg; simpl in Hend; try discriminate Hend.
  - injection Hend as <-. apply Hshape; [|right; by exists res].
    right. exists w1, latestStat, stats, w2. split_and!; [done|done|].
    fold offer. by rewrite Hsub.
  - injection Hend as <-. apply Hshape; [|by left].
    right. exists w1, latestStat, stats, w2. split_and!; [done|done|].
    fold offer. by rewrite Hsub.
Qed.

Lemma lt_gt_false (a b : float64) : lt a b = true → gt a b = false.
Proof.
  unfold lt, gt, SFltb, SFcompare.
  destruct a as [[]|[]| |[] ? ?], b as [[]|[]| |[] ? ?]; try (simpl; congruence);
    intros; Float64_facts.compare_cases; simpl in *; try congruence; try lia.
Qed.

(** The clamped amount is above neither the available balance nor the
    amount asked for. *)
Lemma clamp_bounds (available remain : float64) :
  gt (clamp available remain) available = false ∧
  gt (clamp available remain) remain = false.
Proof.
  unfold clamp. destruct (lt available remain) eqn:Hlt.
  - split; [apply Float64_facts.gt_irrefl|by apply lt_gt_false].
  - split; [exact Hlt|apply Float64_facts.gt_irrefl].
Qed.

(** X10. The fixed offer. Whenever the fixed leg sends a submission, it is
    its second and last request, after the read of the book; the offer is
    a LIMIT offer for fUSD without flags, with a period between 2 and 120;
    and its amount is the formatted clamped amount, which is above 150 and
    above neither the available balance nor the amount that remained to
    be lent. *)
Theorem fixed_offer_within_balance (c : Client)
    (remainFixUsdBalance availableUsdBalance : float64) (w : World)
    (evs : list event) (offer : FundingOfferRequest) :
  let amount := clamp availableUsdBalance remainFixUsdBalance in
  trace (fixed_leg c remainFixUsdBalance availableUsdBalance w).2 = trace w ++ evs →
  submit_request offer ∈ sends evs →
  sends evs = [book_request; submit_request offer] ∧
  Type_ offer = "LIMIT" ∧ Symbol offer = "fUSD" ∧ Flags offer = 0 ∧
  2 ≤ Period offer ≤ 120 ∧
  Amount offer = Sprintf_2f amount ∧
  gt amount c150 = true ∧
  gt amount availableUsdBalance = false ∧
  gt amount remainFixUsdBalance = false.
Proof.
  intros amount Htrace Hin.
  assert (Hnil : ∀ w0 : World, trace w0 = trace w0 ++ evs → False).
  { intros w0 H. rewrite <- (app_nil_r (trace w0)) in H at 1.
    apply app_inv_head in H. subst evs. by apply elem_of_nil in Hin. }
  destruct (clamp_bounds availableUsdBalance remainFixUsdBalance) as [Hb1 Hb2].
  remember (fixed_leg c remainFixUsdBalance availableUsdBalance w) as leg eqn:Hleg.
  unfold strategy.fixed_leg in Hleg.
  destruct (gt remainFixUsdBalance c150); [|subst leg; by destruct (Hnil w)].
  fold amount in Hleg.
  destruct (gt amount c150) eqn:Hamt; [|subst leg; by destruct (Hnil w)].
  unfold bind at 1 in Hleg. unfold data.GetRawBookHighest, SendRequest in Hleg.
  fold book_request in Hleg.
  destruct (transport (venue w) c book_request) as [[highest|err] v].
  2:{ subst leg. simpl in Htrace. rewrite <- app_assoc in Htrace.
      apply app_inv_head in Htrace. subst evs. simpl in Hin.
      apply list_elem_of_singleton in Hin. discriminate Hin. }
  set (w1 := {| venue := v; trace := trace w ++ [EvSend book_request] |}) in *.
  destruct (FindHighestRateForShortestPeriod ParseFloat ParseInt sort_Slice highest)
    as [bestOffer|err].
  2:{ subst leg. simpl in Htrace. rewrite <- app_assoc in Htrace.
      apply app_inv_head in Htrace. subst evs. simpl in Hin.
      apply list_elem_of_singleton in Hin. discriminate Hin. }
  set (offer0 := {| Type_ := "LIMIT"; Symbol := "fUSD"; Amount := Sprintf_2f amount;
                    Rate := Sprintf_6f (bo_Rate bestOffer);
                    Period := bo_Period bestOffer; Flags := 0 |}) in *.
  unfold bind at 1 in Hleg. unfold bind at 1 in Hleg.
  pose proof (SubmitFundingOffer_run Venue transport c offer0 w1) as Hsub.
  pose proof (validate_none offer0) as Hval.
  destruct (validate offer0) as [e|].
  - rewrite Hsub in Hleg. subst leg. simpl in Htrace. rewrite <- !app_assoc in Htrace.
    apply app_inv_head in Htrace. subst evs. simpl in Hin.
    apply list_elem_of_singleton in Hin. discriminate Hin.
  - destruct Hsub as (rs & v2 & Hsub & Hexit).
    change (default_type offer0) with offer0 in Hsub. rewrite Hsub in Hleg.
    destruct Hval as [Hval _]. destruct (Hval eq_refl) as (_ & _ & _ & Hperiod).
    assert (Hevs : ∀ tail, sends tail = [] →
              evs = [EvSend book_request; EvSend (submit_request offer0)] ++ tail →
              offer = offer0 ∧ sends evs = [book_request; submit_request offer]).
    { intros tail Htail ->. simpl in Hin |- *. rewrite Htail in Hin |- *.
      apply elem_of_cons in Hin as [Hin|Hin]; [discriminate Hin|].
      apply list_elem_of_singleton in Hin. injection Hin as ->. done. }
    destruct rs as [[res|err]| |]; [| |done|]; subst leg; simpl in Htrace;
      rewrite <- ?app_assoc in Htrace; apply app_inv_head in Htrace.
    + destruct (Hevs []) as [-> Hs]; [done|by rewrite <- Htrace|]. split_and!; try done; apply Hperiod.
    + destruct (Hevs [EvLog "Failed to submit fixed lending order: %v" [VString err]])
        as [-> Hs]; [done|by rewrite <- Htrace|]. split_and!; try done; apply Hperiod.
    + destruct (Hevs []) as [-> Hs]; [done|by rewrite <- Htrace|]. split_and!; try done; apply Hperiod.
Qed.

(** ** What the strategy sends *)

Lemma emits_ret {A} (P : event → Prop) (a : A) : emits P (ret a : M A).
Proof. intros w. exists []. simpl. by rewrite app_nil_r. Qed.

Lemma emits_panic {A} (P : event → Prop) : emits P (panic : M A).
Proof. intros w. exists []. simpl. by rewrite app_nil_r. Qed.

Lemma emits_exit {A} (P : event → Prop) : emits P (exit : M A).
Proof. intros w. exists []. simpl. by rewrite app_nil_r. Qed.

Lemma emits_or_panic {A} (P : event → Prop) (o : option A) : emits P (or_panic o : M A).
Proof. destruct o; [apply emits_ret|apply emits_panic]. Qed.

Lemma emits_emit (P : event → Prop) (e : event) : P e → emits P (emit e : M unit).
Proof. intros He w. exists [e]. split; [done|by constructor]. Qed.

Lemma emits_bind {A B} (P : event → Prop) (m : M A) (k : A → M B) :
  emits P m → (∀ a, emits P (k a)) → emits P (bind m k).
Proof.
  intros Hm Hk w. unfold bind. destruct (Hm w) as (e1 & Ht1 & Hp1).
  destruct (m w) as [[a| |] w1]; simpl in *; [|by exists e1..].
  destruct (Hk a w1) as (e2 & Ht2 & Hp2). exists (e1 ++ e2).
  split; [by rewrite Ht2, Ht1, app_assoc|by apply Forall_app].
Qed.

Lemma emits_log_Fatal {A} (P : event → Prop) (format : string) (args : list value) :
  P (EvLog format args) → emits P (log_Fatal format args : M A).
Proof. intros He w. exists [EvLog format args]. split; [done|by constructor]. Qed.

Lemma emits_SendRequest (P : event → Prop) (c : Client) (method path : string)
    (b : payload) :
  P (EvSend {| method := method; path := path; req_body := b |}) →
  emits P (SendRequest Venue transport c method path b).
Proof.
  intros He w. unfold SendRequest. destruct (transport _ _ _) as [answer v].
  eexists [_]. split; [done|by constructor].
Qed.

Lemma strategy_event_log (format : string) (args : list value) :
  strategy_event (EvLog format args).
Proof. done. Qed.

(** A submission of a LIMIT offer for fUSD without flags. *)
Lemma emits_SubmitFundingOffer (c : Client) (offer : FundingOfferRequest) :
  Type_ offer = "LIMIT" → Symbol offer = "fUSD" → Flags offer = 0 →
  emits strategy_event (SubmitFundingOffer c offer).
Proof.
  intros Ht Hs Hf. unfold data.SubmitFundingOffer.
  destruct (validate offer); [apply emits_ret|].
  assert (Hd : default_type offer = offer) by (unfold default_type; by rewrite Ht).
  rewrite Hd. apply emits_bind.
  - apply emits_SendRequest. right. right. right. by exists offer.
  - intros [respBody|err]; [apply emits_or_panic|apply emits_ret].
Qed.

Create HintDb emits.

#[local] Hint Resolve emits_ret emits_panic emits_exit emits_or_panic emits_emit emits_log_Fatal
  strategy_event_log : emits.

(** The events of a computation by its structure. *)
Ltac emitting :=
  repeat first
    [ apply emits_bind; [|intros ?]
    | apply emits_SendRequest; simpl; solve [auto 6]
    | apply emits_SubmitFundingOffer; reflexivity
    | solve [unfold log_Printf, time_Sleep; auto with emits]
    | solve [unfold log_Printf, time_Sleep; apply emits_emit; exact I]
    | solve [apply emits_log_Fatal; exact I]
    | match goal with
      | |- emits _ (match ?x with _ => _ end) => destruct x
      | |- emits _ (if ?x then _ else _) => destruct x
      | |- emits _ (let _ := _ in _) => cbv zeta
      end ].

(** X11. What [StrategyManager] sends. Every request of a call is a read
    of the balances, the read of the book, the read of the statistics for
    fUSD, or the submission of a LIMIT offer for fUSD without flags. No
    call sends a cancel request: the order status is empty at the start of
    each call, so an order submitted by an earlier call is never
    cancelled. *)
Theorem strategy_never_cancels (env : Environment) (w : World) :
  ∃ evs,
    trace (StrategyManager env w).2 = trace w ++ evs ∧
    Forall strategy_event evs ∧
    ∀ id, cancel_request id ∉ sends evs.
Proof.
  assert (Hemits : emits strategy_event (StrategyManager env)).
  { unfold strategy.StrategyManager, strategy.cycle, strategy.fixed_leg,
      strategy.predictive_leg, strategy.cancel_existing, initial_status,
      data.GetTotalWalletBalance, data.GetWallets, data.GetRawBookHighest,
      data.GetFundingStat.
    simpl currentOrderBool. cbv iota.
    change ("v2/funding/stats/" +:+ "fUSD" +:+ "/hist") with "v2/funding/stats/fUSD/hist".
    emitting. }
  destruct (Hemits w) as (evs & Htrace & Hall).
  exists evs. split_and!; [done|done|].
  intros id Hin. apply list_elem_of_omap in Hin as (e & He & Hsend).
  rewrite Forall_forall in Hall. specialize (Hall e He).
  destruct e as [|r| |]; simpl in Hsend; try discriminate Hsend.
  injection Hsend as ->. simpl in Hall.
  destruct Hall as [H|[H|[H|(offer & H & _)]]]; discriminate H.
Qed.


(** Every event of a call is one of the strategy's. *)
Lemma StrategyManager_emits (env : Environment) :
  emits strategy_event (StrategyManager env).
Proof.
  unfold strategy.StrategyManager, strategy.cycle, strategy.fixed_leg,
    strategy.predictive_leg, strategy.cancel_existing, initial_status,
    data.GetTotalWalletBalance, data.GetWallets, data.GetRawBookHighest,
    data.GetFundingStat.
  simpl currentOrderBool. cbv iota.
  change ("v2/funding/stats/" +:+ "fUSD" +:+ "/hist") with "v2/funding/stats/fUSD/hist".
  emitting.
Qed.

(** No cancel request among the strategy's events. *)
Lemma strategy_events_no_cancel (evs : list event) (id : Z) :
  Forall strategy_event evs → cancel_request id ∉ sends evs.
Proof.
  intros Hall Hin. apply list_elem_of_omap in Hin as (e & He & Hsend).
  rewrite Forall_forall in Hall. specialize (Hall e He).
  destruct e as [|r| |]; simpl in Hsend; try discriminate Hsend.
  injection Hsend as ->. simpl in Hall.
  destruct Hall as [H|[H|[H|(offer & H & _)]]]; discriminate H.
Qed.

(** C7. Replace-on-cycle is missed. The order status is a local variable
    that every call of [StrategyManager] initialises empty, so the order a
    call tracks at its end is forgotten by the next. Over two consecutive
    calls, whatever the environments and the answers of the venue, the
    second call begins where the first ended and neither sends a cancel
    request: an offer that the first call had accepted is never cancelled
    before the second call submits its own. *)
Theorem replace_on_cycle_missed (env env' : Environment) (w : World) :
  let first := StrategyManager env w in
  let second := StrategyManager env' first.2 in
  ∃ evs1 evs2,
    trace first.2 = trace w ++ evs1 ∧
    trace second.2 = trace first.2 ++ evs2 ∧
    (first.1 = Val tt → (StrategyManager env ;;; StrategyManager env') w = second) ∧
    ∀ id, cancel_request id ∉ sends (evs1 ++ evs2).
Proof.
  intros first second.
  destruct (StrategyManager_emits env w) as (evs1 & Ht1 & Hall1).
  destruct (StrategyManager_emits env' first.2) as (evs2 & Ht2 & Hall2).
  exists evs1, evs2. split_and!; [done|done| |].
  - intros Hfirst. unfold bind. fold first.
    destruct first as [r w1]. simpl in Hfirst. by subst r.
  - intros id. apply strategy_events_no_cancel. by apply Forall_app.
Qed.

End LegsMore.

(* ================================================================== *)
(** * Answers that make a call panic *)
(* ================================================================== *)

Section AnswerFacts.

Variable Venue : Type.
Variable transport : Venue → Client → Request → result body * Venue.

Abbreviation World := (World Venue).
Abbreviation CancelFundingOffer := (CancelFundingOffer Venue transport).

(** X12. A cancel answer of exactly 7 entries. Where the answer to a
    cancel request is an array of 7 entries whose entry at index 6 is not
    the string "SUCCESS", the call panics after its one request: the entry
    is no string, or the message at index 7 is read and is not there. *)
Theorem cancel_panics_on_seven_entries (c : Client) (id : Z) (w : World)
    (respBody : body) (v : Venue) (response : list value) :
  transport (venue w) c (cancel_request id) = (Ok respBody, v) →
  unmarshal_slice respBody = Some response →
  length response = 7%nat →
  response !! 6%nat ≠ Some (VString "SUCCESS") →
  CancelFundingOffer c id w =
  (Panic, {| venue := v; trace := trace w ++ [EvSend (cancel_request id)] |}).
Proof.
  intros Ht Hr Hlen Hstatus.
  unfold data.CancelFundingOffer, bind, SendRequest. fold (cancel_request id).
  rewrite Ht, Hr.
  assert (Hcheck : cancel_check response = None).
  { unfold cancel_check, idx. rewrite Hlen. simpl.
    destruct (response !! 6%nat) as [v6|] eqn:H6;
      [|apply lookup_ge_None in H6; lia].
    assert (H7 : response !! 7%nat = None) by (apply lookup_ge_None; lia).
    destruct v6 as [| | |status| | | | |]; simpl; try done.
    destruct (String.eqb_spec status "SUCCESS") as [->|Hne]; [done|].
    simpl. by rewrite H7. }
  by rewrite Hcheck.
Qed.

End AnswerFacts.

Lemma assert_float64_lookup (l : list value) (i : nat) (f : float64) :
  assert_float64 (idx l i) = Some f ↔ l !! i = Some (VFloat64 f).
Proof.
  unfold idx. destruct (l !! i) as [[]|]; simpl; split; congruence.
Qed.

Lemma assert_string_lookup (l : list value) (i : nat) (s : string) :
  assert_string (idx l i) = Some s ↔ l !! i = Some (VString s).
Proof.
  unfold idx. destruct (l !! i) as [[]|]; simpl; split; congruence.
Qed.

Lemma assert_bool_lookup (l : list value) (i : nat) (b : bool) :
  assert_bool (idx l i) = Some b ↔ l !! i = Some (VBool b).
Proof.
  unfold idx. destruct (l !! i) as [[]|]; simpl; split; congruence.
Qed.

(** The offer is populated exactly from offer data whose entries have the
    types asserted. *)
Lemma populate_typed (offerData : list value) :
  is_Some (populate offerData) ↔ offer_data_typed offerData.
Proof.
  split.
  - intros [o H]. unfold populate in H.
    repeat match type of H with
    | (_ ≫= _) = Some _ =>
        let H' := fresh "Hentry" in apply bind_Some in H as (? & H' & H)
    end.
    repeat match goal with
    | H : assert_float64 _ = Some _ |- _ => apply assert_float64_lookup in H
    | H : assert_string _ = Some _ |- _ => apply assert_string_lookup in H
    | H : assert_bool _ = Some _ |- _ => apply assert_bool_lookup in H
    end.
    unfold offer_data_typed, float64_entries, string_entries, bool_entries.
    split_and!; repeat constructor; eauto.
  - intros (Hf & Hs & Hb).
    unfold float64_entries, string_entries, bool_entries in *.
    repeat match goal with
    | H : Forall _ (_ :: _) |- _ =>
        let H' := fresh "Hentry" in apply Forall_cons in H as [[? H'] H]
    end.
    unfold populate.
    repeat match goal with
    | H : _ !! _ = Some (VFloat64 _) |- _ =>
        apply assert_float64_lookup in H; rewrite H; clear H
    | H : _ !! _ = Some (VString _) |- _ =>
        apply assert_string_lookup in H; rewrite H; clear H
    | H : _ !! _ = Some (VBool _) |- _ =>
        apply assert_bool_lookup in H; rewrite H; clear H
    end.
    simpl. by eexists.
Qed.

(** X13. What a submit answer yields. The decoding returns an offer
    exactly when the answer carries offer data whose entries have the types
    asserted, and panics exactly when it carries offer data with an entry
    of another type; neither depends on the status at index 6 of the
    answer, or on any entry of the answer but the one at index 4. The id of
    the offer returned is the entry at index 0 of the offer data,
    truncated. *)
Theorem submit_answer_outcome (respBody : body) :
  ((∃ res, submit_decode respBody = Some (Ok res)) ↔
   ∃ offerData, carries_offer_data respBody offerData ∧ offer_data_typed offerData) ∧
  (submit_decode respBody = None ↔
   ∃ offerData, carries_offer_data respBody offerData ∧ ¬ offer_data_typed offerData) ∧
  (∀ res offerData,
     submit_decode respBody = Some (Ok res) →
     carries_offer_data respBody offerData →
     ∃ id, offerData !! 0%nat = Some (VFloat64 id) ∧ fo_ID res = to_int id).
Proof.
  unfold submit_decode, carries_offer_data.
  destruct (unmarshal_slice respBody) as [response|].
  2:{ split_and!.
      - split; [by intros [? ?]|by intros (? & (? & ? & _) & _)].
      - split; [done|by intros (? & (? & ? & _) & _)].
      - done. }
  destruct (length response <? 8)%nat eqn:Hlen.
  { apply Nat.ltb_lt in Hlen. split_and!.
    - split; [by intros [? ?]|intros (? & (? & [= <-] & ? & _) & _); lia].
    - split; [done|intros (? & (? & [= <-] & ? & _) & _); lia].
    - done. }
  apply Nat.ltb_ge in Hlen.
  destruct (response !! 4%nat) as [v4|] eqn:H4; [|apply lookup_ge_None in H4; lia].
  assert (Hidx : idx response 4 = v4) by (unfold idx; by rewrite H4).
  rewrite !Hidx. clear Hidx.
  assert (Hother : (∀ l, v4 ≠ VSlice l) →
            ∀ offerData, ¬ ∃ response0, Some response = Some response0 ∧
              (8 ≤ length response0)%nat ∧ response0 !! 4%nat = Some (VSlice offerData) ∧
              (20 ≤ length offerData)%nat).
  { intros Hne offerData (? & [= <-] & _ & H & _). rewrite H4 in H.
    injection H as ->. by apply (Hne offerData). }
  destruct v4 as [| | | |offerData| | | |];
    try (split_and!;
         [split; [by intros [? ?]|intros (d & Hd & _); by destruct (Hother ltac:(done) d)]
         |split; [done|intros (d & Hd & _); by destruct (Hother ltac:(done) d)]
         |done]).
  clear Hother.
  assert (Hcarried : ∀ d, (∃ response0, Some response = Some response0 ∧
              (8 ≤ length response0)%nat ∧ response0 !! 4%nat = Some (VSlice d) ∧
              (20 ≤ length d)%nat) → d = offerData ∧ (20 ≤ length offerData)%nat).
  { intros d (? & [= <-] & _ & H & Hl). rewrite H4 in H. by injection H as ->. }
  destruct (length offerData <? 20)%nat eqn:Hlen'.
  { apply Nat.ltb_lt in Hlen'. split_and!.
    - split; [by intros [? ?]|intros (d & Hd & _); destruct (Hcarried d Hd); lia].
    - split; [done|intros (d & Hd & _); destruct (Hcarried d Hd); lia].
    - done. }
  apply Nat.ltb_ge in Hlen'.
  pose proof (populate_typed offerData) as Htyped.
  assert (Hhere : ∃ response0, Some response = Some response0 ∧
            (8 ≤ length response0)%nat ∧ response0 !! 4%nat = Some (VSlice offerData) ∧
            (20 ≤ length offerData)%nat) by by exists response.
  destruct (populate offerData) as [res|] eqn:Hpop; simpl.
  - assert (Hok : offer_data_typed offerData) by (apply Htyped; by eexists).
    split_and!.
    + split; [intros _; by exists offerData|intros _; by exists res].
    + split; [done|]. intros (d & Hd & Hnot). destruct (Hcarried d Hd) as [-> _]. done.
    + intros res' d [= <-] Hd. destruct (Hcarried d Hd) as [-> _].
      unfold populate in Hpop.
      apply bind_Some in Hpop as (id & Hid & Hpop).
      apply assert_float64_lookup in Hid. exists id. split; [done|].
      repeat match type of Hpop with
      | (_ ≫= _) = Some _ => apply bind_Some in Hpop as (? & _ & Hpop)
      end.
      by injection Hpop as <-.
  - assert (Hnot : ¬ offer_data_typed offerData).
    { intros H. apply Htyped in H. by destruct H. }
    split_and!.
    + split; [by intros [? ?]|]. intros (d & Hd & Hty).
      destruct (Hcarried d Hd) as [-> _]. done.
    + split; [intros _; by exists offerData|done].
    + done.
Qed.

(* ================================================================== *)
(** * The trade stream *)
(* ================================================================== *)

Section StreamFacts.

Variable ParseFloat : string → float64 * bool.
Variable ParseInt : string → Z * bool.
Variable Atoi : string → Z * bool.

Abbreviation listen_message := (listen_message ParseFloat ParseInt Atoi).
Abbreviation SafeInt64 := (util.values.SafeInt64 ParseInt).
Abbreviation SafeInt := (util.values.SafeInt ParseInt Atoi).
Abbreviation SafeFloat64 := (util.values.SafeFloat64 ParseFloat).

(** X14. Which messages are delivered. A message read from the stream is
    handed to the callback exactly when it is an array with the string
    "te" at index 1 and an array of at least 5 entries at index 2; the
    trade then holds the coercions of the first five entries with their
    flags dropped, so an entry that fails to coerce is delivered as the
    value the coercion returned with the failure. A message that is not an
    array (and not null) is reported as a parse error, an event object of
    the venue included, and every other message is passed over. *)
Theorem trade_delivered (message : body) :
  (∀ trade,
     listen_message message = Deliver trade ↔
     ∃ msg data,
       unmarshal_slice message = Some msg ∧
       msg !! 1%nat = Some (VString "te") ∧
       msg !! 2%nat = Some (VSlice data) ∧
       (5 ≤ length data)%nat ∧
       trade = {| tm_ID := (SafeInt64 (idx data 0)).1;
                  tm_Timestamp := (SafeInt64 (idx data 1)).1;
                  tm_Amount := (SafeFloat64 (idx data 2)).1;
                  tm_Rate := (SafeFloat64 (idx data 3)).1;
                  tm_Period := (SafeInt (idx data 4)).1 |}) ∧
  (listen_message message = ParseError ↔ unmarshal_slice message = None).
Proof.
  unfold data.listen_message.
  destruct (unmarshal_slice message) as [msg|];
    [|split; [intros trade; split; [done|by intros (? & ? & ? & _)]|done]].
  assert (Hskip : ∀ trade,
            (¬ ∃ data, msg !! 1%nat = Some (VString "te") ∧
                       msg !! 2%nat = Some (VSlice data) ∧ (5 ≤ length data)%nat) →
            Skip = Deliver trade ↔
            ∃ msg0 data, Some msg = Some msg0 ∧ msg0 !! 1%nat = Some (VString "te") ∧
              msg0 !! 2%nat = Some (VSlice data) ∧ (5 ≤ length data)%nat ∧
              trade = {| tm_ID := (SafeInt64 (idx data 0)).1;
                         tm_Timestamp := (SafeInt64 (idx data 1)).1;
                         tm_Amount := (SafeFloat64 (idx data 2)).1;
                         tm_Rate := (SafeFloat64 (idx data 3)).1;
                         tm_Period := (SafeInt (idx data 4)).1 |}).
  { intros trade Hno. split; [done|].
    intros (? & data & [= <-] & H1 & H2 & H5 & _). destruct Hno. by exists data. }
  destruct msg as [|m0 [|m1 [|m2 rest]]]; simpl.
  - split; [|done]. intros trade. apply Hskip. by intros (? & ? & _).
  - split; [|done]. intros trade. apply Hskip. by intros (? & ? & _).
  - rewrite andb_false_r. split; [|done]. intros trade. apply Hskip.
    by intros (? & ? & ? & _).
  - rewrite andb_true_r.
    change (idx (m0 :: m1 :: m2 :: rest) 1) with m1.
    change (idx (m0 :: m1 :: m2 :: rest) 2) with m2.
    destruct (is_string m1 "te") eqn:Hte.
    2:{ split; [|done]. intros trade. apply Hskip.
        intros (? & [= ->] & _). done. }
    assert (m1 = VString "te") as ->.
    { destruct m1; try done. simpl in Hte. apply String.eqb_eq in Hte. by subst. }
    destruct m2 as [| | | |data| | | |];
      try (split; [|done]; intros trade; apply Hskip; by intros (? & _ & ? & _)).
    destruct (length data <? 5)%nat eqn:Hlen.
    { apply Nat.ltb_lt in Hlen. split; [|done]. intros trade. apply Hskip.
      intros (? & _ & [= <-] & ?). lia. }
    apply Nat.ltb_ge in Hlen.
    destruct (SafeInt64 (idx data 0)) as [id ?] eqn:H0,
      (SafeInt64 (idx data 1)) as [ts ?] eqn:H1,
      (SafeFloat64 (idx data 2)) as [amount ?] eqn:H2,
      (SafeFloat64 (idx data 3)) as [rate ?] eqn:H3,
      (SafeInt (idx data 4)) as [period ?] eqn:H4.
    split; [|done]. intros trade. split.
    + intros [= <-]. eexists _, data. split_and!; try done.
      by rewrite H0, H1, H2, H3, H4.
    + intros (? & ? & [= <-] & _ & [= <-] & _ & ->).
      by rewrite H0, H1, H2, H3, H4.
Qed.

(** The two integer coercions differ on strings only, which one reads
    with [Atoi] and the other with [ParseInt]. *)
Lemma SafeInt_SafeInt64 (v : value) :
  (∀ s, v ≠ VString s) → SafeInt v = SafeInt64 v.
Proof. intros Hv. destruct v; try done. by destruct (Hv s). Qed.

End StreamFacts.

(* ================================================================== *)
(** * The coercions *)
(* ================================================================== *)

Section CoercionFacts.

Variable ParseFloat : string → option float64.
Variable ParseInt : string → option Z.

Abbreviation ToFloat64 := (util.ToFloat64 ParseFloat).
Abbreviation SafeFloat64 := (util.SafeFloat64 ParseFloat).

(** X15. [SafeFloat64] beside [ToFloat64]. Whatever [ToFloat64] coerces,
    [SafeFloat64] coerces to the same number; beyond that [SafeFloat64]
    coerces the strings that parse as numbers and every int64, which
    [ToFloat64] refuses. So a numeric string counts as a number in a
    rate-statistics row, and not in a row of the book. *)
Theorem SafeFloat64_extends_ToFloat64 (v : value) :
  ((ToFloat64 v).2 = true → SafeFloat64 v = ToFloat64 v) ∧
  ((SafeFloat64 v).2 = true ↔
   (ToFloat64 v).2 = true ∨
   (∃ s f, v = VString s ∧ ParseFloat s = Some f) ∨
   (∃ i, v = VInt64 i)) ∧
  (∀ s, (ToFloat64 (VString s)).2 = false) ∧
  (∀ i, (ToFloat64 (VInt64 i)).2 = false).
Proof.
  split_and!; [| |done|done].
  - destruct v; simpl; try done.
  - destruct v as [| | |s| | | |i|s]; simpl.
    + split; [done|]. intros [?|[(? & ? & ? & _)|(? & ?)]]; done.
    + split; [done|]. intros [?|[(? & ? & ? & _)|(? & ?)]]; done.
    + split; [by left|done].
    + destruct (ParseFloat s) as [f|] eqn:Hs; simpl.
      * split; [|done]. intros _. right. left. by exists s, f.
      * split; [done|]. intros [?|[(? & ? & [= <-] & H)|(? & ?)]]; [done| |done].
        rewrite Hs in H. done.
    + split; [done|]. intros [?|[(? & ? & ? & _)|(? & ?)]]; done.
    + split; [done|]. intros [?|[(? & ? & ? & _)|(? & ?)]]; done.
    + split; [by left|done].
    + split; [|done]. intros _. right. right. by exists i.
    + destruct (ParseFloat s); simpl; [split; [by left|done]|].
      split; [done|]. intros [?|[(? & ? & ? & _)|(? & ?)]]; done.
Qed.

(** The coercion with the value of a failed parse kept has the flag of
    the coercion without, and its value where the flag is set. *)
Lemma SafeFloat64_values (parse : string → float64 * bool) (v : value) :
  coerced (util.values.SafeFloat64 parse v) =
  coerced (util.SafeFloat64 (λ s, coerced (parse s)) v).
Proof.
  destruct v; simpl; try done; unfold coerced; by destruct (parse s) as [f []].
Qed.

End CoercionFacts.

(* ================================================================== *)
(** * The predictive offer *)
(* ================================================================== *)

Section PredictiveMore.

Variable ParseFloat : string → option float64.
Variable Sprintf_2f : float64 → string.
Variable Sprintf_6f : float64 → string.
Variable Venue : Type.
Variable transport : Venue → Client → Request → result body * Venue.

Abbreviation World := (World Venue).
Abbreviation GetFundingStat := (GetFundingStat ParseFloat Venue transport).
Abbreviation predictive_leg :=
  (predictive_leg ParseFloat Sprintf_2f Sprintf_6f Venue transport).

(** Reading the statistics: one request, and the records of the rows that
    decode, or the error of the transport or of the document. *)
Lemma GetFundingStat_answer (c : Client) (w : World) :
  ∃ answer v,
    transport (venue w) c stats_request = (answer, v) ∧
    GetFundingStat c "fUSD" w =
    (Val match answer with
         | Err err => Err ("failed to get funding statistics: " +:+ err)
         | Ok respBody =>
             match unmarshal_rows respBody with
             | None => Err "error parsing FundingStat: error parsing JSON"
             | Some rows => Ok (omap (stat_of_row ParseFloat) rows)
             end
         end,
     {| venue := v; trace := trace w ++ [EvSend stats_request] |}).
Proof.
  unfold data.GetFundingStat, bind, SendRequest.
  change ("v2/funding/stats/" +:+ "fUSD" +:+ "/hist") with "v2/funding/stats/fUSD/hist".
  fold stats_request.
  destruct (transport (venue w) c stats_request) as [[respBody|err] v];
    eexists _, v; (split; [done|]); simpl; [|done].
  unfold parseFundingStats. destruct (unmarshal_rows respBody) as [rows|]; [|done].
  by rewrite (fold_left_append _ _ (stats_step_row ParseFloat)).
Qed.

(** X16. The predictive offer. Whenever the predictive leg sends a
    submission from a consistent order status, the statistics were
    answered with rows of which one at least decodes; the rate of the
    offer is 1.3 times the FRR of the first row that decodes, formatted to
    6 decimals; the offer is a LIMIT offer for fUSD of period 2 without
    flags; and its amount is the formatted clamped amount, which is above
    150 and above neither the available balance nor the amount that
    remained to be lent. *)
Theorem predictive_offer_from_first_row (c : Client) (st : OrderStatus)
    (remainPredictUsdBalance availableUsdBalance : float64) (w : World)
    (evs : list event) (offer : FundingOfferRequest) :
  let amount := clamp availableUsdBalance remainPredictUsdBalance in
  consistent st →
  trace (predictive_leg c st remainPredictUsdBalance availableUsdBalance w).2
    = trace w ++ evs →
  submit_request offer ∈ sends evs →
  ∃ respBody v rows latest,
    transport (venue w) c stats_request = (Ok respBody, v) ∧
    unmarshal_rows respBody = Some rows ∧
    head (omap (stat_of_row ParseFloat) rows) = Some latest ∧
    offer = {| Type_ := "LIMIT"; Symbol := "fUSD"; Amount := Sprintf_2f amount;
               Rate := Sprintf_6f (mul (FRR latest) c1_3);
               Period := 2; Flags := 0 |} ∧
    gt amount c150 = true ∧
    gt amount availableUsdBalance = false ∧
    gt amount remainPredictUsdBalance = false.
Proof.
  intros amount Hcons Htrace Hin.
  assert (Hnil : ∀ w0 : World, trace w0 = trace w0 ++ evs → False).
  { intros w0 H. rewrite <- (app_nil_r (trace w0)) in H at 1.
    apply app_inv_head in H. subst evs. by apply elem_of_nil in Hin. }
  destruct (clamp_bounds availableUsdBalance remainPredictUsdBalance) as [Hb1 Hb2].
  remember (predictive_leg c st remainPredictUsdBalance availableUsdBalance w)
    as run eqn:Hrun.
  unfold strategy.predictive_leg in Hrun.
  destruct (gt remainPredictUsdBalance c150); [|subst run; by destruct (Hnil w)].
  fold amount in Hrun.
  destruct (gt amount c150) eqn:Hamt; [|subst run; by destruct (Hnil w)].
  unfold bind at 1 in Hrun.
  destruct (GetFundingStat_answer c w) as (answer & v & Ht & Hstats).
  rewrite Hstats in Hrun.
  set (w1 := {| venue := v; trace := trace w ++ [EvSend stats_request] |}) in *.
  assert (Hone : ∀ tail, sends tail = [] → evs = EvSend stats_request :: tail → False).
  { intros tail Htail ->. simpl in Hin. rewrite Htail in Hin.
    apply list_elem_of_singleton in Hin. discriminate Hin. }
  destruct answer as [respBody|err].
  2:{ subst run. simpl in Htrace. rewrite <- app_assoc in Htrace.
      apply app_inv_head in Htrace. by destruct (Hone [EvLog "Failed to get funding statistics: %v" [VString ("failed to get funding statistics: " +:+ err)]]). }
  destruct (unmarshal_rows respBody) as [rows|] eqn:Hrows.
  2:{ subst run. simpl in Htrace. rewrite <- app_assoc in Htrace.
      apply app_inv_head in Htrace. by destruct (Hone [EvLog "Failed to get funding statistics: %v" [VString "error parsing FundingStat: error parsing JSON"]]). }
  destruct (omap (stat_of_row ParseFloat) rows) as [|latestStat stats] eqn:Hstat.
  { subst run. simpl in Htrace. apply app_inv_head in Htrace.
    by destruct (Hone []). }
  exists respBody, v, rows, latestStat. rewrite Hstat. split_and!; try done.
  unfold bind at 1 in Hrun.
  destruct (cancel_existing_run Venue transport c st w1 Hcons)
    as (r & w2 & evc & Hc & Htr2 & Hev & Hex & Hval & _).
  rewrite Hc in Hrun.
  pose proof (cancel_events_no_submit evc offer Hev) as Hno.
  destruct r as [st'| |]; [|done|].
  - destruct (Hval st' eq_refl) as [-> Hsends].
    set (offer0 := {| Type_ := "LIMIT"; Symbol := "fUSD";
                      Amount := Sprintf_2f amount;
                      Rate := Sprintf_6f (mul (FRR latestStat) c1_3);
                      Period := 2; Flags := 0 |}) in *.
    unfold bind at 1 in Hrun.
    pose proof (SubmitFundingOffer_run Venue transport c offer0 w2) as Hsub.
    assert (Hevs : ∀ tail, sends tail = [] →
              (trace w1 ++ evc) ++ tail = trace w ++ evs →
              submit_request offer ∈ sends tail).
    { intros tail Htail H. unfold w1 in H. simpl in H.
      rewrite <- !app_assoc in H. apply app_inv_head in H. subst evs.
      simpl in Hin. rewrite !sends_app in Hin.
      apply elem_of_cons in Hin as [Hin|Hin]; [discriminate Hin|].
      apply elem_of_app in Hin as [Hin|Hin]; [done|]. done. }
    assert (Hsent : ∀ tail, sends tail = [] →
              (trace w1 ++ evc) ++ EvSend (submit_request offer0) :: tail
              = trace w ++ evs → offer = offer0).
    { intros tail Htail H. unfold w1 in H. simpl in H.
      rewrite <- !app_assoc in H. apply app_inv_head in H. subst evs.
      simpl in Hin. rewrite !sends_app in Hin. simpl in Hin. rewrite Htail in Hin.
      apply elem_of_cons in Hin as [Hin|Hin]; [discriminate Hin|].
      apply elem_of_app in Hin as [Hin|Hin]; [done|].
      apply list_elem_of_singleton in Hin. by injection Hin as ->. }
    destruct (validate offer0) as [e|].
    + rewrite Hsub in Hrun. subst run. simpl in Htrace. rewrite Htr2 in Htrace.
      specialize (Hevs [EvLog "Failed to submit predictive lending order: %v" [VString e]]
                    eq_refl Htrace).
      by apply elem_of_nil in Hevs.
    + destruct Hsub as (rs & v3 & Hsub & Hexit).
      change (default_type offer0) with offer0 in Hsub. rewrite Hsub in Hrun.
      destruct rs as [[res|err]| |]; [| |done|]; subst run; simpl in Htrace;
        rewrite Htr2 in Htrace.
      * by apply (Hsent []).
      * apply (Hsent [EvLog "Failed to submit predictive lending order: %v" [VString err]]);
          [done|]. by rewrite <- Htrace, <- !app_assoc.
      * by apply (Hsent []).
  - subst run. simpl in Htrace. rewrite Htr2 in Htrace. simpl in Htrace.
    rewrite <- app_assoc in Htrace. apply app_inv_head in Htrace. subst evs.
    simpl in Hin. apply elem_of_cons in Hin as [Hin|Hin]; [discriminate Hin|done].
Qed.

End PredictiveMore.

(* ================================================================== *)
(** * Answers that stop the cancellation loop *)
(* ================================================================== *)

Section CancelPanic.

Variable Venue : Type.
Variable transport : Venue → Client → Request → result body * Venue.

Abbreviation World := (World Venue).
Abbreviation CancelFundingOffer := (CancelFundingOffer Venue transport).
Abbreviation cancel_each := (cancel_each Venue transport).
Abbreviation cancel_existing := (cancel_existing Venue transport).




End CancelPanic.

(* ================================================================== *)
(** * Wallet rows that are not dropped *)
(* ================================================================== *)

Section WalletRows.

Variable ParseFloat : string → option float64.
Variable Venue : Type.
Variable transport : Venue → Client → Request → result body * Venue.

Abbreviation SafeFloat64 := (util.SafeFloat64 ParseFloat).
Abbreviation GetWallets := (GetWallets Venue transport).
Abbreviation GetTotalWalletBalance := (GetTotalWalletBalance Venue transport).

(** What fails the numeric coercion is no float64. *)
Lemma not_coerced_not_float64 (v : value) :
  (SafeFloat64 v).2 = false → assert_float64 v = None.
Proof. by destruct v. Qed.

(** C9. Wallet rows are not decoded leniently. Where the wallets are
    answered with rows of which one has the 3 entries that
    [GetTotalWalletBalance] asks for and a balance (index 2) that fails the
    numeric coercion, the call panics; where one is a funding row with the
    5 entries that [GetWallets] asks for and an available balance (index 4)
    that fails the numeric coercion, that call panics. The row is not
    dropped, and the rows that decode are not returned. *)
Theorem wallet_rows_not_dropped (c : Client) (w : World Venue) (respBody : body)
    (v : Venue) (wallets : list (list value)) (wallet : list value) :
  let sent : World Venue :=
    {| venue := v; trace := trace w ++ [EvSend wallets_request] |} in
  transport (venue w) c wallets_request = (Ok respBody, v) →
  unmarshal_rows respBody = Some wallets →
  wallet ∈ wallets →
  ((3 ≤ length wallet)%nat →
   (SafeFloat64 (idx wallet 2)).2 = false →
   GetTotalWalletBalance c w = (Panic, sent)) ∧
  ((5 ≤ length wallet)%nat →
   idx wallet 0 = VString "funding" →
   (SafeFloat64 (idx wallet 4)).2 = false →
   GetWallets c w = (Panic, sent)).
Proof.
  intros sent Ht Hrows Hin. split.
  - intros Hlen Hbalance.
    assert (Hill : Exists total_row_ill_typed wallets).
    { apply Exists_exists. exists wallet. split; [done|]. split; [done|].
      right. right. by apply not_coerced_not_float64. }
    unfold data.GetTotalWalletBalance, bind, SendRequest. fold wallets_request.
    rewrite Ht, Hrows.
    pose proof (total_loop wallets) as Hloop.
    destruct (foldl _ _ wallets) as [[usd ust]|]; [by destruct Hloop|done].
  - intros Hlen Hfunding Havailable.
    assert (Hill : Exists wallets_row_ill_typed wallets).
    { apply Exists_exists. exists wallet. split; [done|]. split; [done|].
      right. right. split; [done|]. by apply not_coerced_not_float64. }
    unfold data.GetWallets, bind, SendRequest. fold wallets_request.
    rewrite Ht, Hrows.
    pose proof (wallets_loop wallets) as Hloop.
    destruct (foldl _ _ wallets) as [m|]; [by destruct Hloop|done].
Qed.

End WalletRows.

(* ================================================================== *)
(** * Scenarios *)
(* ================================================================== *)

Module scenarios.

Import instances.

Abbreviation cycle :=
  (cycle ParseFloat ParseInt (@insertionSort _) (Sprintf_fixed 2) (Sprintf_fixed 6)
     scripted scripted_transport).
Abbreviation fixed_leg :=
  (fixed_leg ParseFloat ParseInt (@insertionSort _) (Sprintf_fixed 2) (Sprintf_fixed 6)
     scripted scripted_transport).
Abbreviation predictive_leg :=
  (predictive_leg ParseFloat (Sprintf_fixed 2) (Sprintf_fixed 6)
     scripted scripted_transport).
Abbreviation CancelFundingOffer := (CancelFundingOffer scripted scripted_transport).
Abbreviation StrategyManager :=
  (StrategyManager ParseFloat ParseInt (@insertionSort _) (Sprintf_fixed 2)
     (Sprintf_fixed 6) scripted scripted_transport).

(** In the book with a tie the offer 2 is returned, before the offer 3 of
    the same rate. *)
Lemma shortest_period_first_of_ties_witness :
  let data := Some (VSlice (VSlice <$> tie_book)) in
  let offers := omap (kept ParseFloat ParseInt) tie_book in
  ∃ best pre post,
    FindHighestRateForShortestPeriod ParseFloat ParseInt (@insertionSort _) data = Ok best ∧
    bo_Period best = 2 ∧
    of_period 2 offers = pre ++ best :: post ∧
    (∀ o, o ∈ pre → gt (bo_Rate o) (bo_Rate best) = false ∧
                     eq (bo_Rate o) (bo_Rate best) = false) ∧
    (∀ o, o ∈ post → gt (bo_Rate o) (bo_Rate best) = false).
Proof.
  intros data offers.
  apply (shortest_period_first_of_ties ParseFloat ParseInt (@insertionSort _) data tie_book
           {| OfferID := 1; bo_Period := 2; bo_Rate := of_int 2;
              bo_Amount := of_int (-500) |}).
  - apply insertionSort_permutation.
  - apply insertionSort_ascending.
  - apply insertionSort_stable.
  - reflexivity.
  - apply list_elem_of_In. vm_compute. auto.
  - intros o Ho. apply list_elem_of_In in Ho. vm_compute in Ho.
    destruct Ho as [<-|[<-|[<-|[<-|[]]]]]; vm_compute; discriminate.
  - vm_compute. reflexivity.
Defined.

Example tie_book_selection :
  FindHighestRateForShortestPeriod ParseFloat ParseInt (@insertionSort _)
    (Some (VSlice (VSlice <$> tie_book)))
  = Ok {| OfferID := 2; bo_Period := 2; bo_Rate := of_int 3; bo_Amount := of_int (-100) |}.
Proof. vm_compute. reflexivity. Qed.

(** With a sort that hands back the offers of equal period in another
    order, the offer 3 is returned. *)
Example tie_book_selection_other_sort :
  FindHighestRateForShortestPeriod ParseFloat ParseInt (@sort_ties_reversed _)
    (Some (VSlice (VSlice <$> tie_book)))
  = Ok {| OfferID := 3; bo_Period := 2; bo_Rate := of_int 3; bo_Amount := of_int (-40) |}.
Proof. vm_compute. reflexivity. Qed.

(** 200 USD, all available: 100 remain for each leg, below the
    threshold. *)
Lemma cycle_idles_below_threshold_witness :
  let w := world_of [wallets_answer "USD" 200 200; wallets_answer "USD" 200 200] in
  ∃ w2, cycle initial_status env_ok w =
        (Val (Next initial_status),
         {| venue := venue w2; trace := trace w2 ++ [EvSleep 300] |}).
Proof.
  intros w. eexists.
  eapply (cycle_idles_below_threshold ParseFloat ParseInt (@insertionSort _)
            (Sprintf_fixed 2) (Sprintf_fixed 6) scripted scripted_transport
            initial_status env_ok w _ _ (of_int 200) zero (of_int 200)).
  - exact examples.env_ok_configured.
  - vm_compute. reflexivity.
  - vm_compute. reflexivity.
  - vm_compute. reflexivity.
  - vm_compute. reflexivity.
Defined.

(** The venue does not answer the read of the book. *)
Lemma book_failure_ends_cycle_witness :
  let w := world_of [wallets_answer "USD" 1000 1000; wallets_answer "USD" 1000 1000] in
  ∃ w3, cycle initial_status env_ok w =
        (Val Return_,
         {| venue := venue w3;
            trace := trace w3 ++ [EvLog "Error getting book: %v" [VString "no answer"]] |}).
Proof.
  intros w. eexists.
  eapply (book_failure_ends_cycle ParseFloat ParseInt (@insertionSort _)
            (Sprintf_fixed 2) (Sprintf_fixed 6) scripted scripted_transport
            initial_status env_ok w _ _ _ (of_int 1000) zero (of_int 1000) _
            (Err "no answer")).
  - exact examples.env_ok_configured.
  - vm_compute. reflexivity.
  - vm_compute. reflexivity.
  - vm_compute. reflexivity.
  - vm_compute. reflexivity.
  - vm_compute. reflexivity.
  - vm_compute. reflexivity.
Defined.

(** The best offer of the book has a period of 1 day. *)
Lemma fixed_offer_outside_period_not_sent_witness :
  let c := NewClient "key" "secret" in
  let w := world_of [one_day_book_answer] in
  ∃ w1, fixed_leg c (of_int 500) (of_int 1000) w =
        (Val (Next (sub (of_int 1000) (clamp (of_int 1000) (of_int 500)))),
         {| venue := venue w1;
            trace := trace w ++
              [EvSend book_request;
               EvLog "Failed to submit fixed lending order: %v"
                 [VString "period must be between 2 and 120 days"]] |}).
Proof.
  intros c w. eexists.
  eapply (fixed_offer_outside_period_not_sent ParseFloat ParseInt (@insertionSort _)
            (Sprintf_fixed 2) (Sprintf_fixed 6) scripted scripted_transport
            c (of_int 500) (of_int 1000) w _ _
            {| OfferID := 7; bo_Period := 1; bo_Rate := of_int 3;
               bo_Amount := of_int (-100) |}).
  - vm_compute. reflexivity.
  - vm_compute. reflexivity.
  - vm_compute. reflexivity.
  - vm_compute. reflexivity.
  - vm_compute. discriminate.
  - vm_compute. discriminate.
  - left. simpl. lia.
Defined.

(** The statistics are answered without rows. *)
Lemma predictive_leg_without_statistics_witness :
  let c := NewClient "key" "secret" in
  let st := {| currentPredictOrder := [order 5]; currentOrderBool := true |} in
  let w := world_of [Ok (Some (VSlice []))] in
  ∃ w1, trace w1 = trace w ++ [EvSend stats_request] ∧
        predictive_leg c st (of_int 500) (of_int 500) w = (Val (Next st), w1).
Proof.
  intros c st w. eexists.
  eapply (predictive_leg_without_statistics ParseFloat (Sprintf_fixed 2) (Sprintf_fixed 6)
            scripted scripted_transport c st (of_int 500) (of_int 500) w _ (Ok [])).
  - vm_compute. reflexivity.
  - vm_compute. reflexivity.
  - vm_compute. reflexivity.
Defined.

(** The order 5 is replaced by the order 8 that the submission returns. *)
Lemma predictive_leg_tracks_at_most_one_witness :
  let c := NewClient "key" "secret" in
  let st := {| currentPredictOrder := [order 5]; currentOrderBool := true |} in
  let w := world_of [stats_answer; Ok cancel_accepted; submit_accepted 8] in
  let leg := predictive_leg c st (of_int 500) (of_int 500) w in
  ∃ st',
    leg.1 = Val (Next st') ∧
    ID <$> currentPredictOrder st' = [8] ∧
    ((st' = st ∧
      (trace leg.2 = trace w ∨ trace leg.2 = trace w ++ [EvSend stats_request])) ∨
     ∃ w1 latestStat stats w2,
       GetFundingStat ParseFloat scripted scripted_transport c "fUSD" w
         = (Val (Ok (latestStat :: stats)), w1) ∧
       cancel_existing scripted scripted_transport c st w1 = (Val initial_status, w2) ∧
       match SubmitFundingOffer scripted scripted_transport c
               {| Type_ := "LIMIT"; Symbol := "fUSD";
                  Amount := Sprintf_fixed 2 (clamp (of_int 500) (of_int 500));
                  Rate := Sprintf_fixed 6 (mul (FRR latestStat) c1_3);
                  Period := 2; Flags := 0 |} w2 with
       | (Val (Ok res), w3) =>
           st' = {| currentPredictOrder := [tracked_of res]; currentOrderBool := true |} ∧
           leg.2 = w3
       | (Val (Err err), w3) =>
           st' = initial_status ∧
           leg.2 = {| venue := venue w3;
                      trace := trace w3 ++
                        [EvLog "Failed to submit predictive lending order: %v"
                           [VString err]] |}
       | _ => False
       end) ∧
    consistent st' ∧
    ((length (currentPredictOrder st) ≤ 1)%nat → (length (currentPredictOrder st') ≤ 1)%nat).
Proof.
  intros c st w leg. eexists. split; [vm_compute; reflexivity|].
  split; [reflexivity|].
  apply (predictive_leg_tracks_at_most_one ParseFloat (Sprintf_fixed 2) (Sprintf_fixed 6)
           scripted scripted_transport c st _ (of_int 500) (of_int 500) w).
  - split; done.
  - vm_compute. reflexivity.
Defined.

(** 500 of the 1000 available go to the fixed offer. *)
Lemma fixed_offer_within_balance_witness :
  let c := NewClient "key" "secret" in
  let w := world_of [book_answer; submit_accepted 7] in
  let amount := clamp (of_int 1000) (of_int 500) in
  let offer := {| Type_ := "LIMIT"; Symbol := "fUSD"; Amount := "500.00";
                  Rate := "0.000150"; Period := 2; Flags := 0 |} in
  let evs := [EvSend book_request; EvSend (submit_request offer)] in
  trace (fixed_leg c (of_int 500) (of_int 1000) w).2 = trace w ++ evs ∧
  sends evs = [book_request; submit_request offer] ∧
  Type_ offer = "LIMIT" ∧ Symbol offer = "fUSD" ∧ Flags offer = 0 ∧
  2 ≤ Period offer ≤ 120 ∧
  Amount offer = Sprintf_fixed 2 amount ∧
  gt amount c150 = true ∧
  gt amount (of_int 1000) = false ∧
  gt amount (of_int 500) = false.
Proof.
  intros c w amount offer evs. split; [vm_compute; reflexivity|].
  apply (fixed_offer_within_balance ParseFloat ParseInt (@insertionSort _)
           (Sprintf_fixed 2) (Sprintf_fixed 6) scripted scripted_transport
           c (of_int 500) (of_int 1000) w evs offer).
  - vm_compute. reflexivity.
  - simpl. rewrite !elem_of_cons. auto.
Defined.

(** The answer to the cancel request stops after the status "ERROR". *)
Lemma cancel_panics_on_seven_entries_witness :
  let c := NewClient "key" "secret" in
  let w := world_of [Ok cancel_cut_short] in
  CancelFundingOffer c 7 w =
  (Panic, {| venue := []; trace := trace w ++ [EvSend (cancel_request 7)] |}).
Proof.
  intros c w.
  apply (cancel_panics_on_seven_entries scripted scripted_transport c 7 w
           cancel_cut_short []
           [num 1700000000000; VString "foc-req"; VNil; VNil; VNil; VNil; VString "ERROR"]).
  - reflexivity.
  - reflexivity.
  - reflexivity.
  - simpl. discriminate.
Defined.

(** The rate of the predictive offer is 1.3 times the FRR 0.00015. *)
Lemma predictive_offer_from_first_row_witness :
  let c := NewClient "key" "secret" in
  let amount := clamp (of_int 500) (of_int 500) in
  let offer := {| Type_ := "LIMIT"; Symbol := "fUSD"; Amount := "500.00";
                  Rate := "0.000195"; Period := 2; Flags := 0 |} in
  let w := world_of [stats_answer; submit_accepted 8] in
  let evs := [EvSend stats_request; EvSend (submit_request offer)] in
  trace (predictive_leg c initial_status (of_int 500) (of_int 500) w).2 = trace w ++ evs ∧
  ∃ respBody v rows latest,
    scripted_transport (venue w) c stats_request = (Ok respBody, v) ∧
    unmarshal_rows respBody = Some rows ∧
    head (omap (stat_of_row ParseFloat) rows) = Some latest ∧
    offer = {| Type_ := "LIMIT"; Symbol := "fUSD"; Amount := Sprintf_fixed 2 amount;
               Rate := Sprintf_fixed 6 (mul (FRR latest) c1_3);
               Period := 2; Flags := 0 |} ∧
    gt amount c150 = true ∧
    gt amount (of_int 500) = false ∧
    gt amount (of_int 500) = false.
Proof.
  intros c amount offer w evs. split; [vm_compute; reflexivity|].
  apply (predictive_offer_from_first_row ParseFloat (Sprintf_fixed 2) (Sprintf_fixed 6)
           scripted scripted_transport c initial_status (of_int 500) (of_int 500) w
           evs offer).
  - split; done.
  - vm_compute. reflexivity.
  - simpl. rewrite !elem_of_cons. auto.
Defined.


Example cut_short_answer_leaves_order_unattempted :
  cancel_existing scripted scripted_transport (NewClient "key" "secret")
    {| currentPredictOrder := [order 5; order 6; order 7]; currentOrderBool := true |}
    (world_of [Ok cancel_refused; Ok cancel_cut_short; Ok cancel_accepted])
  = (Panic,
     {| venue := [Ok cancel_accepted];
        trace := [ EvSend (cancel_request 5);
                   EvLog "Failed to cancel order (ID: %d): %v"
                     [VInt 5; VString "failed to cancel funding offer: Offer not found"];
                   EvSend (cancel_request 6) ] |}).
Proof. reflexivity. Qed.

(** Two calls in a row: the first ends tracking the order 8, the second
    submits the order 10 beside it, and nothing is cancelled. *)
Lemma replace_on_cycle_missed_witness :
  let w := world_of two_calls in
  let first := StrategyManager env_ok w in
  let second := StrategyManager env_ok first.2 in
  let fixed := {| Type_ := "LIMIT"; Symbol := "fUSD"; Amount := "500.00";
                  Rate := "0.000150"; Period := 2; Flags := 0 |} in
  let predictive := {| Type_ := "LIMIT"; Symbol := "fUSD"; Amount := "500.00";
                       Rate := "0.000195"; Period := 2; Flags := 0 |} in
  (∃ st1, (cycle initial_status env_ok w).1 = Val (Next st1) ∧
          ID <$> currentPredictOrder st1 = [8]) ∧
  first.1 = Val tt ∧
  sends (trace second.2)
  = [ wallets_request; wallets_request; book_request; submit_request fixed;
      stats_request; submit_request predictive;
      wallets_request; wallets_request; book_request; submit_request fixed;
      stats_request; submit_request predictive ] ∧
  ∃ evs1 evs2,
    trace first.2 = trace w ++ evs1 ∧
    trace second.2 = trace first.2 ++ evs2 ∧
    (first.1 = Val tt → (StrategyManager env_ok ;;; StrategyManager env_ok) w = second) ∧
    ∀ id, cancel_request id ∉ sends (evs1 ++ evs2).
Proof.
  intros w first second fixed predictive. split_and!.
  - eexists. split; [vm_compute; reflexivity|reflexivity].
  - vm_compute. reflexivity.
  - vm_compute. reflexivity.
  - apply (replace_on_cycle_missed ParseFloat ParseInt (@insertionSort _)
             (Sprintf_fixed 2) (Sprintf_fixed 6) scripted scripted_transport
             env_ok env_ok w).
Defined.

(** A funding row whose balances are null beside a row that decodes. *)
Lemma wallet_rows_not_dropped_witness :
  let c := NewClient "key" "secret" in
  let w := world_of [Ok wallets_with_null_balance] in
  let sent : World scripted :=
    {| venue := []; trace := trace w ++ [EvSend wallets_request] |} in
  GetTotalWalletBalance scripted scripted_transport c w = (Panic, sent) ∧
  GetWallets scripted scripted_transport c w = (Panic, sent).
Proof.
  intros c w sent.
  destruct (wallet_rows_not_dropped ParseFloat scripted scripted_transport c w
              wallets_with_null_balance []
              [[VString "funding"; VString "UST"; num 5; num 0; num 5]; null_balance_row]
              null_balance_row)
    as [Htotal Havailable].
  - reflexivity.
  - reflexivity.
  - right. left.
  - split.
    + apply Htotal; [simpl; lia|reflexivity].
    + apply Havailable; [simpl; lia|reflexivity|reflexivity].
Defined.

(** The same null in a row of the rate statistics: the row is dropped and
    the other is returned. *)
Example stats_row_with_null_dropped :
  parseFundingStats ParseFloat
    (Some (VSlice [VSlice [VNil; VNil; VNil; VNil; VNil; VNil; VNil; VNil; VNil; VNil;
                           VNil; VNil];
                   stats_row]))
  = Ok [ {| Timestamp := 1700000000000; FRR := rate_0_00015; AveragePeriod := of_int 3;
            FundingAmount := of_int 100; FundingAmountUsed := of_int 50;
            FundingBelowThreshold := of_int 7 |} ].
Proof. vm_compute. reflexivity. Qed.

End scenarios.
